(** * Offscreen-effect compositing pipeline of Clutter: a shallow embedding

    The development follows three source files:

    - [clutter/clutter-offscreen-effect.c]: the per-camera render-target
      cache and the redirection engine (module [Offscreen]);
    - [clutter/clutter-blur-effect.c]: the two-pass Gaussian blur and its
      per-class pipeline cache (module [Blur]);
    - [clutter/clutter-shader-effect.c]: the write-once shader source
      (module [Shader]).

    Conventions.  A C pointer that may be [NULL] is an [option]; a Cogl
    object is a handle ([positive]) into the context of module [Cogl], which
    counts the references the client code holds on it.  A [gfloat] is a
    rational number: every finite float is one, and rounding is not
    modelled.  An [int] is a [Z]; the values met here (ages, sizes in
    pixels) stay far from the 32-bit limits, and no wrap-around is
    modelled. *)

From Stdlib Require Import ZArith QArith Qround Qreals Reals Psatz String List.
From stdpp Require Import base option list gmap strings pretty.
Import ListNotations.

Local Open Scope Z_scope.

(** ** Cogl objects and reference counting *)

Module Cogl.

Definition CoglHandle := positive.

(** The part of the Cogl context the effects depend on.  [refcount] holds,
    for every object, the number of references owned by client code:
    a constructor returns an object with one reference,
    [cogl_object_ref] adds one and [cogl_object_unref] removes one.
    [texture_new_ok] and [offscreen_new_ok] say whether the driver is able
    to allocate a texture, respectively an offscreen framebuffer, when it
    is next asked to. *)
Record CoglContext := mkCoglContext {
  next_handle : positive;
  refcount : gmap positive Z;
  texture_size : gmap positive (Z * Z);
  texture_new_ok : bool;
  offscreen_new_ok : bool
}.

Definition refs (ctx : CoglContext) (h : CoglHandle) : Z :=
  default 0 (refcount ctx !! h).

Definition cogl_object_ref (h : CoglHandle) (ctx : CoglContext) : CoglContext :=
  mkCoglContext (next_handle ctx) (<[h := refs ctx h + 1]> (refcount ctx))
    (texture_size ctx) (texture_new_ok ctx) (offscreen_new_ok ctx).

Definition cogl_object_unref (h : CoglHandle) (ctx : CoglContext) : CoglContext :=
  mkCoglContext (next_handle ctx) (<[h := refs ctx h - 1]> (refcount ctx))
    (texture_size ctx) (texture_new_ok ctx) (offscreen_new_ok ctx).

(** A new object: the next free handle, with one reference. *)
Definition new_object (ctx : CoglContext) : CoglHandle * CoglContext :=
  let h := next_handle ctx in
  (h, mkCoglContext (Pos.succ h) (<[h := 1]> (refcount ctx))
        (texture_size ctx) (texture_new_ok ctx) (offscreen_new_ok ctx)).

Definition cogl_pipeline_new (ctx : CoglContext) : CoglHandle * CoglContext :=
  new_object ctx.

Definition cogl_texture_new_with_size (width height : Z) (ctx : CoglContext)
  : option CoglHandle * CoglContext :=
  if texture_new_ok ctx then
    let '(h, ctx1) := new_object ctx in
    (Some h, mkCoglContext (next_handle ctx1) (refcount ctx1)
               (<[h := (width, height)]> (texture_size ctx1))
               (texture_new_ok ctx1) (offscreen_new_ok ctx1))
  else (None, ctx).

Definition cogl_offscreen_new_to_texture (tex : CoglHandle) (ctx : CoglContext)
  : option CoglHandle * CoglContext :=
  if offscreen_new_ok ctx then
    let '(h, ctx1) := new_object ctx in (Some h, ctx1)
  else (None, ctx).

(** Width and height of a texture; [0] for a handle that is no texture. *)
Definition cogl_texture_get_width (tex : option CoglHandle) (ctx : CoglContext) : Z :=
  match tex with
  | Some h => fst (default (0, 0) (texture_size ctx !! h))
  | None => 0
  end.

Definition cogl_texture_get_height (tex : option CoglHandle) (ctx : CoglContext) : Z :=
  match tex with
  | Some h => snd (default (0, 0) (texture_size ctx !! h))
  | None => 0
  end.

End Cogl.

(** ** Floats *)

Definition gfloat := Q.

(** C comparison operators on floats. *)
Definition flt (a b : gfloat) : bool := negb (Qle_bool b a).
Definition fgt (a b : gfloat) : bool := negb (Qle_bool a b).

(** The [MAX] macro of GLib: [((a) > (b)) ? (a) : (b)]. *)
Definition MAX (a b : gfloat) : gfloat := if fgt a b then a else b.

(** Conversion of a float to [int]: truncation towards zero. *)
Definition float_to_int (q : gfloat) : Z := Z.quot (Qnum q) (Zpos (Qden q)).

(** Conversion of an [int] to a float. *)
Definition int_to_float (z : Z) : gfloat := inject_Z z.

(** ** The offscreen effect: clutter-offscreen-effect.c *)

(** Cogl's matrix type and the four operations the effect calls on it.
    Cogl is a library outside the repository, so they are parameters. *)
Class CoglMatrixAPI (CoglMatrix : Type) := {
  cogl_matrix_equal : CoglMatrix -> CoglMatrix -> bool;
  cogl_matrix_init_identity : CoglMatrix;
  cogl_matrix_translate : CoglMatrix -> gfloat -> gfloat -> gfloat -> CoglMatrix;
  cogl_matrix_scale : CoglMatrix -> gfloat -> gfloat -> gfloat -> CoglMatrix
}.

Module Offscreen.
Import Cogl.

Section WithMatrix.

Context {CoglMatrix : Type} `{CoglMatrixAPI CoglMatrix}.

(** *** Data model *)

(** [ClutterCamera], as the effect reads it: [index], [viewport[4]], [age]. *)
Record ClutterCamera := mkCamera {
  index : nat;
  viewport_0 : gfloat;
  viewport_1 : gfloat;
  viewport_2 : gfloat;
  viewport_3 : gfloat;
  age : Z
}.

(** [PerCameraState].  The [camera] pointer points into the stage's array
    of cameras: it is the position of the camera in that array. *)
Record PerCameraState := mkPerCameraState {
  camera : nat;
  valid_for_age : Z;
  offscreen : option CoglHandle;
  pipeline : option CoglHandle;
  texture : option CoglHandle;
  viewport_x_offset : gfloat;
  viewport_y_offset : gfloat;
  request_width : Z;
  request_height : Z;
  last_matrix_drawn : CoglMatrix
}.

Record ClutterActorBox := mkBox {
  x1 : gfloat; y1 : gfloat; x2 : gfloat; y2 : gfloat
}.

(** What the effect reads and writes of the actor it is attached to. *)
Record ClutterActor := mkActor {
  opacity_override : Z;
  paint_box : option ClutterActorBox;
  paint_opacity : Z
}.

(** [ClutterOffscreenEffectPrivate].  The actor lives under the back
    pointer: the effect is the only code here that reaches it. *)
Record ClutterOffscreenEffectPrivate := mkPriv {
  actor : option ClutterActor;
  camera_state : list PerCameraState;
  n_cameras : nat;
  cameras_age : Z;
  old_opacity_override : Z
}.

(** What the effect reads of the stage. *)
Record ClutterStage := mkStage {
  cameras : list ClutterCamera;
  stage_cameras_age : Z;
  current_camera : nat;
  stage_projection : CoglMatrix;
  stage_width : gfloat;
  stage_height : gfloat
}.

(** Calls into Cogl, GLib and the actor that only act on the outside
    world; the model records them, most recent first. *)
Inductive Event :=
| g_warning (msg : string)
| cogl_pipeline_set_layer_filters (p : CoglHandle)
| cogl_pipeline_set_layer_texture (p : option CoglHandle) (t : option CoglHandle)
| cogl_push_framebuffer (fb : option CoglHandle)
| cogl_set_modelview_matrix (m : CoglMatrix)
| cogl_set_viewport (x y w h : gfloat)
| cogl_set_projection_matrix (m : CoglMatrix)
| cogl_clear
| cogl_push_matrix
| cogl_pop_matrix
| cogl_pop_framebuffer
| cogl_ortho (l r b t n f : gfloat)
| cogl_pipeline_set_color4ub (p : option CoglHandle) (r g b a : Z)
| cogl_set_source (p : option CoglHandle)
| cogl_rectangle_with_texture_coords (rx1 ry1 rx2 ry2 : gfloat)
| clutter_actor_continue_paint.

(** The effect together with the world it runs in.  [fb_modelview] and
    [fb_projection] are the matrices of the framebuffer the caller is
    drawing to; the effect reads them before it redirects the drawing and
    after it has restored it, so its own [cogl_set_*] calls, recorded in
    [log], do not show in them.  [slice_garbage] is the content of the
    memory [g_slice_alloc] hands out, which it does not clear. *)
Record State := mkState {
  meta_enabled : bool;
  priv : ClutterOffscreenEffectPrivate;
  stage : ClutterStage;
  cogl : CoglContext;
  fb_modelview : CoglMatrix;
  fb_projection : CoglMatrix;
  slice_garbage : PerCameraState;
  log : list Event
}.

(** Field updates. *)
Definition set_priv (p : ClutterOffscreenEffectPrivate) (st : State) : State :=
  mkState (meta_enabled st) p (stage st) (cogl st) (fb_modelview st)
    (fb_projection st) (slice_garbage st) (log st).

Definition set_cogl (c : CoglContext) (st : State) : State :=
  mkState (meta_enabled st) (priv st) (stage st) c (fb_modelview st)
    (fb_projection st) (slice_garbage st) (log st).

Definition set_stage (s : ClutterStage) (st : State) : State :=
  mkState (meta_enabled st) (priv st) s (cogl st) (fb_modelview st)
    (fb_projection st) (slice_garbage st) (log st).

Definition set_meta_enabled (b : bool) (st : State) : State :=
  mkState b (priv st) (stage st) (cogl st) (fb_modelview st)
    (fb_projection st) (slice_garbage st) (log st).

Definition emit (e : Event) (st : State) : State :=
  mkState (meta_enabled st) (priv st) (stage st) (cogl st) (fb_modelview st)
    (fb_projection st) (slice_garbage st) (e :: log st).

Definition set_camera_states (l : list PerCameraState)
    (p : ClutterOffscreenEffectPrivate) : ClutterOffscreenEffectPrivate :=
  mkPriv (actor p) l (n_cameras p) (cameras_age p) (old_opacity_override p).

Definition set_actor_field (a : option ClutterActor)
    (p : ClutterOffscreenEffectPrivate) : ClutterOffscreenEffectPrivate :=
  mkPriv a (camera_state p) (n_cameras p) (cameras_age p) (old_opacity_override p).

Definition set_old_opacity_override (v : Z)
    (p : ClutterOffscreenEffectPrivate) : ClutterOffscreenEffectPrivate :=
  mkPriv (actor p) (camera_state p) (n_cameras p) (cameras_age p) v.

Definition set_handles (o p t : option CoglHandle) (cs : PerCameraState)
  : PerCameraState :=
  mkPerCameraState (camera cs) (valid_for_age cs) o p t
    (viewport_x_offset cs) (viewport_y_offset cs)
    (request_width cs) (request_height cs) (last_matrix_drawn cs).

Definition set_valid_for_age (a : Z) (cs : PerCameraState) : PerCameraState :=
  mkPerCameraState (camera cs) a (offscreen cs) (pipeline cs) (texture cs)
    (viewport_x_offset cs) (viewport_y_offset cs)
    (request_width cs) (request_height cs) (last_matrix_drawn cs).

Definition set_viewport_offset (x y : gfloat) (cs : PerCameraState)
  : PerCameraState :=
  mkPerCameraState (camera cs) (valid_for_age cs) (offscreen cs) (pipeline cs)
    (texture cs) x y (request_width cs) (request_height cs)
    (last_matrix_drawn cs).

Definition set_request (w h : Z) (cs : PerCameraState) : PerCameraState :=
  mkPerCameraState (camera cs) (valid_for_age cs) (offscreen cs) (pipeline cs)
    (texture cs) (viewport_x_offset cs) (viewport_y_offset cs) w h
    (last_matrix_drawn cs).

Definition set_last_matrix_drawn (m : CoglMatrix) (cs : PerCameraState)
  : PerCameraState :=
  mkPerCameraState (camera cs) (valid_for_age cs) (offscreen cs) (pipeline cs)
    (texture cs) (viewport_x_offset cs) (viewport_y_offset cs)
    (request_width cs) (request_height cs) m.

(** *** Array and pointer accesses *)

(** An entry with no handle, and a camera at the origin: what an access
    outside an array reads in the model (in C such an access is
    undefined; none happens while the effect's array mirrors the
    stage's). *)
Definition null_camera : ClutterCamera := mkCamera 0 0%Q 0%Q 0%Q 0%Q 0.

Definition null_entry (st : State) : PerCameraState :=
  set_handles None None None (slice_garbage st).

(** [&priv->camera_state[i]], read. *)
Definition camera_state_at (st : State) (i : nat) : PerCameraState :=
  default (null_entry st) (camera_state (priv st) !! i).

(** [priv->camera_state[i] = cs]; a store outside the array is dropped. *)
Definition store_camera_state (i : nat) (cs : PerCameraState) (st : State)
  : State :=
  set_priv (set_camera_states (<[i := cs]> (camera_state (priv st))) (priv st)) st.

(** [_clutter_stage_get_camera (stage, i)], dereferenced. *)
Definition _clutter_stage_get_camera (s : ClutterStage) (i : nat) : ClutterCamera :=
  default null_camera (cameras s !! i).

Definition _clutter_stage_get_current_camera (s : ClutterStage) : ClutterCamera :=
  _clutter_stage_get_camera s (current_camera s).

Definition _clutter_stage_get_n_cameras (s : ClutterStage) : nat :=
  length (cameras s).

(** [camera_state->camera->age]. *)
Definition camera_age (st : State) (cs : PerCameraState) : Z :=
  age (_clutter_stage_get_camera (stage st) (camera cs)).

(** *** The render-target cache *)

(** [clutter_offscreen_effect_real_create_texture]: the float arguments
    are clamped with [MAX] and converted to the unsigned sizes
    [cogl_texture_new_with_size] takes. *)
Definition clutter_offscreen_effect_real_create_texture
    (width height : gfloat) (ctx : CoglContext)
  : option CoglHandle * CoglContext :=
  cogl_texture_new_with_size (float_to_int (MAX width 1%Q))
    (float_to_int (MAX height 1%Q)) ctx.

(** [clutter_offscreen_effect_create_texture] calls the class's
    [create_texture]; no class of the repository overrides it. *)
Definition clutter_offscreen_effect_create_texture
    (width height : gfloat) (ctx : CoglContext)
  : option CoglHandle * CoglContext :=
  clutter_offscreen_effect_real_create_texture width height ctx.

Definition invalidate_per_camera_state (cs : PerCameraState) (ctx : CoglContext)
  : PerCameraState * CoglContext :=
  let '(cs, ctx) :=
    match pipeline cs with
    | Some p => (set_handles (offscreen cs) None (texture cs) cs,
                 cogl_object_unref p ctx)
    | None => (cs, ctx)
    end in
  match offscreen cs with
  | Some o => (set_handles None (pipeline cs) (texture cs) cs,
               cogl_object_unref o ctx)
  | None => (cs, ctx)
  end.

(** The first loop of the rebuild: [invalidate_per_camera_state] on every
    entry of the old array.  The entries are about to be freed, so only
    the context is kept. *)
Definition invalidate_all (l : list PerCameraState) (ctx : CoglContext)
  : CoglContext :=
  foldl (fun ctx cs => snd (invalidate_per_camera_state cs ctx)) ctx l.

(** The second loop: entry [i] of the new array points to camera [i] and
    has its three handles cleared; its other fields keep what the
    allocator left there. *)
Definition fresh_entry (st : State) (i : nat) : PerCameraState :=
  let g := slice_garbage st in
  mkPerCameraState i (valid_for_age g) None None None
    (viewport_x_offset g) (viewport_y_offset g)
    (request_width g) (request_height g) (last_matrix_drawn g).

(** [get_per_camera_state], first half: when the stage's [cameras_age]
    is not the one recorded, the cached state of the old cameras is
    thrown away and an array for the current cameras is allocated. *)
Definition rebuild_camera_states (st : State) : State :=
  let ctx := invalidate_all
               (take (n_cameras (priv st)) (camera_state (priv st)))
               (cogl st) in
  let n := _clutter_stage_get_n_cameras (stage st) in
  let arr := map (fresh_entry st) (seq 0 n) in
  set_cogl ctx
    (set_priv (mkPriv (actor (priv st)) arr n (stage_cameras_age (stage st))
                 (old_opacity_override (priv st))) st).

Definition check_cameras_age (st : State) : State :=
  if bool_decide (stage_cameras_age (stage st) <> cameras_age (priv st))
  then rebuild_camera_states st
  else st.

(** Second half: the entry is invalidated in place when its camera has
    aged.  An index outside the array finds no entry (the C code would
    read past the array; this does not happen while the array mirrors
    the stage's cameras). *)
Definition check_camera_age (st : State) (camera_index : nat) : State :=
  match camera_state (priv st) !! camera_index with
  | None => st
  | Some cs =>
      if bool_decide (camera_age st cs <> valid_for_age cs) then
        let '(cs, ctx) := invalidate_per_camera_state cs (cogl st) in
        store_camera_state camera_index
          (set_valid_for_age (camera_age st cs) cs) (set_cogl ctx st)
      else st
  end.

(** [get_per_camera_state].  The pointer it returns is
    [&priv->camera_state[camera_index]] of the state it returns. *)
Definition get_per_camera_state (st : State) (camera_index : nat) : State :=
  check_camera_age (check_cameras_age st) camera_index.

(** [update_fbo], from the creation of the pipeline on: the target of
    entry [cs] is allocated anew.  [G_STRLOC] in the warning is the
    source location. *)
Definition allocate_fbo (st : State) (camera_index : nat) (cs : PerCameraState)
    (request_width' request_height' : Z) : bool * State :=
  (* the pipeline is created on first use *)
  let '(cs, st) :=
    match pipeline cs with
    | None =>
        let '(p, ctx) := cogl_pipeline_new (cogl st) in
        (set_handles (offscreen cs) (Some p) (texture cs) cs,
         emit (cogl_pipeline_set_layer_filters p) (set_cogl ctx st))
    | Some _ => (cs, st)
    end in
  (* the previous texture is released *)
  let '(cs, st) :=
    match texture cs with
    | Some t => (set_handles (offscreen cs) (pipeline cs) None cs,
                 set_cogl (cogl_object_unref t (cogl st)) st)
    | None => (cs, st)
    end in
  let '(t, ctx) :=
    clutter_offscreen_effect_create_texture
      (int_to_float request_width') (int_to_float request_height')
      (cogl st) in
  let cs := set_handles (offscreen cs) (pipeline cs) t cs in
  let st := set_cogl ctx st in
  match t with
  | None => (false, store_camera_state camera_index cs st)
  | Some tex =>
      let st := emit (cogl_pipeline_set_layer_texture (pipeline cs) (Some tex)) st in
      let cs := set_request request_width' request_height' cs in
      let st :=
        match offscreen cs with
        | Some o => set_cogl (cogl_object_unref o (cogl st)) st
        | None => st
        end in
      let '(o, ctx) := cogl_offscreen_new_to_texture tex (cogl st) in
      let cs := set_handles o (pipeline cs) (texture cs) cs in
      let st := set_cogl ctx st in
      match o with
      | None =>
          let st := emit (g_warning "Unable to create an Offscreen buffer") st in
          let st :=
            match pipeline cs with
            | Some p => set_cogl (cogl_object_unref p (cogl st)) st
            | None => st
            end in
          let cs := set_handles (offscreen cs) None (texture cs) cs in
          let cs := set_request 0 0 cs in
          (false, store_camera_state camera_index cs st)
      | Some _ => (true, store_camera_state camera_index cs st)
      end
  end.

(** [update_fbo]. *)
Definition update_fbo (st : State) (camera_index : nat)
    (request_width' request_height' : Z) : bool * State :=
  let st := get_per_camera_state st camera_index in
  let cs := camera_state_at st camera_index in
  if bool_decide (request_width cs = request_width') &&
     bool_decide (request_height cs = request_height') &&
     bool_decide (offscreen cs <> None)
  then (true, st)
  else allocate_fbo st camera_index cs request_width' request_height'.

(** *** The redirection engine *)

(** The actor's accessors; on a [NULL] actor the getters return the value
    their argument check returns and the setter does nothing. *)
Definition _clutter_actor_get_opacity_override (a : option ClutterActor) : Z :=
  match a with Some a => opacity_override a | None => -1 end.

Definition _clutter_actor_set_opacity_override (v : Z) (st : State) : State :=
  match actor (priv st) with
  | Some a =>
      set_priv (set_actor_field
                  (Some (mkActor v (paint_box a) (paint_opacity a))) (priv st)) st
  | None => st
  end.

Definition clutter_actor_get_paint_opacity (a : option ClutterActor) : Z :=
  match a with Some a => paint_opacity a | None => 0 end.

(** The amount by which the viewport grows on one axis. *)
Definition expand (offset : gfloat) (texture_size : Z) (viewport_size : gfloat)
  : gfloat :=
  let e := 0%Q in
  let e := if flt offset 0%Q then (- offset)%Q else e in
  if fgt (offset + int_to_float texture_size)%Q viewport_size
  then MAX e ((offset + int_to_float texture_size) - viewport_size)%Q
  else e.

(** [clutter_offscreen_effect_pre_paint], up to the call of
    [update_fbo]: the size to request and the offset of the paint box in
    the camera's viewport, which is stored in the entry. *)
Definition request_target (st : State) (a : ClutterActor)
    (camera : ClutterCamera) : gfloat * gfloat * State :=
  let st := get_per_camera_state st (index camera) in
  let cs := camera_state_at st (index camera) in
  let stage_viewport_x := viewport_0 camera in
  let stage_viewport_y := viewport_1 camera in
  let stage_viewport_width := viewport_2 camera in
  let stage_viewport_height := viewport_3 camera in
  let '(fbo_request_width, fbo_request_height, cs) :=
    match paint_box a with
    | Some box =>
        ((x2 box - x1 box)%Q, (y2 box - y1 box)%Q,
         set_viewport_offset (x1 box - stage_viewport_x)%Q
           (y1 box - stage_viewport_y)%Q cs)
    | None =>
        (stage_viewport_width, stage_viewport_height,
         set_viewport_offset 0%Q 0%Q cs)
    end in
  (fbo_request_width, fbo_request_height,
   store_camera_state (index camera) cs st).

(** The viewport of the offscreen framebuffer, and the projection. *)
Definition expanded_viewport (cs : PerCameraState) (camera : ClutterCamera)
    (texture_width texture_height : Z) : Event :=
  let xexpand := expand (viewport_x_offset cs) texture_width (viewport_2 camera) in
  let yexpand := expand (viewport_y_offset cs) texture_height (viewport_3 camera) in
  cogl_set_viewport
    (- (viewport_x_offset cs + xexpand))%Q
    (- (viewport_y_offset cs + yexpand))%Q
    (viewport_2 camera + 2 * xexpand)%Q
    (viewport_3 camera + 2 * yexpand)%Q.

Definition expanded_projection (projection : CoglMatrix) (cs : PerCameraState)
    (camera : ClutterCamera) (texture_width texture_height : Z) : CoglMatrix :=
  let stage_viewport_width := viewport_2 camera in
  let stage_viewport_height := viewport_3 camera in
  let xexpand := expand (viewport_x_offset cs) texture_width stage_viewport_width in
  let yexpand := expand (viewport_y_offset cs) texture_height stage_viewport_height in
  if fgt xexpand 0%Q || fgt yexpand 0%Q then
    let new_width := (stage_viewport_width + 2 * xexpand)%Q in
    let new_height := (stage_viewport_height + 2 * yexpand)%Q in
    cogl_matrix_scale projection
      (stage_viewport_width / new_width)%Q
      (stage_viewport_height / new_height)%Q 1%Q
  else projection.

(** [clutter_offscreen_effect_pre_paint], after [update_fbo] succeeded:
    the drawing is redirected to the offscreen buffer. *)
Definition redirect (st : State) (camera : ClutterCamera) : State :=
  let cs := camera_state_at st (index camera) in
  let texture_width := cogl_texture_get_width (texture cs) (cogl st) in
  let texture_height := cogl_texture_get_height (texture cs) (cogl st) in
  let cs := set_last_matrix_drawn (fb_modelview st) cs in
  let st := store_camera_state (index camera) cs st in
  let st := emit (cogl_push_framebuffer (offscreen cs)) st in
  let st := emit (cogl_set_modelview_matrix (last_matrix_drawn cs)) st in
  let st := emit (expanded_viewport cs camera texture_width texture_height) st in
  let st := emit (cogl_set_projection_matrix
                    (expanded_projection (stage_projection (stage st)) cs
                       camera texture_width texture_height)) st in
  let st := emit cogl_clear st in
  let st := emit cogl_push_matrix st in
  let st := set_priv (set_old_opacity_override
                        (_clutter_actor_get_opacity_override
                           (actor (priv st))) (priv st)) st in
  _clutter_actor_set_opacity_override 255 st.

Definition clutter_offscreen_effect_pre_paint (st : State) : bool * State :=
  if negb (meta_enabled st) then (false, st)
  else match actor (priv st) with
  | None => (false, st)
  | Some a =>
    let camera := _clutter_stage_get_current_camera (stage st) in
    let '(fbo_request_width, fbo_request_height, st) :=
      request_target st a camera in
    (* first assert that the framebuffer is the right size *)
    let '(ok, st) := update_fbo st (index camera)
                       (float_to_int fbo_request_width)
                       (float_to_int fbo_request_height) in
    if negb ok then (false, st) else (true, redirect st camera)
  end.

Definition clutter_offscreen_effect_real_paint_target (st : State) : State :=
  let camera := _clutter_stage_get_current_camera (stage st) in
  let st := get_per_camera_state st (index camera) in
  let cs := camera_state_at st (index camera) in
  let paint_opacity := clutter_actor_get_paint_opacity (actor (priv st)) in
  let st := emit (cogl_pipeline_set_color4ub (pipeline cs) paint_opacity
                    paint_opacity paint_opacity paint_opacity) st in
  let st := emit (cogl_set_source (pipeline cs)) st in
  let texture_width := cogl_texture_get_width (texture cs) (cogl st) in
  let texture_height := cogl_texture_get_height (texture cs) (cogl st) in
  emit (cogl_rectangle_with_texture_coords 0%Q 0%Q
          (int_to_float texture_width) (int_to_float texture_height)) st.

(** [clutter_offscreen_effect_paint_target] calls the class's
    [paint_target]; this is the base class's. *)
Definition clutter_offscreen_effect_paint_target (st : State) : State :=
  clutter_offscreen_effect_real_paint_target st.

Definition clutter_offscreen_effect_paint_texture (st : State) : State :=
  let camera := _clutter_stage_get_current_camera (stage st) in
  let st := get_per_camera_state st (index camera) in
  let cs := camera_state_at st (index camera) in
  let saved_projection := fb_projection st in
  let stage_width := stage_width (stage st) in
  let stage_height := stage_height (stage st) in
  let st := emit (cogl_ortho 0%Q stage_width stage_height 0%Q (-1)%Q 100%Q) st in
  let st := emit cogl_push_matrix st in
  let scale_x := (stage_width / viewport_2 camera)%Q in
  let scale_y := (stage_height / viewport_3 camera)%Q in
  let stage_x := (viewport_x_offset cs * scale_x)%Q in
  let stage_y := (viewport_y_offset cs * scale_y)%Q in
  let modelview := cogl_matrix_init_identity in
  let modelview := cogl_matrix_translate modelview stage_x stage_y 0%Q in
  let modelview := cogl_matrix_scale modelview scale_x scale_y 1%Q in
  let st := emit (cogl_set_modelview_matrix modelview) st in
  let st := clutter_offscreen_effect_paint_target st in
  let st := emit cogl_pop_matrix st in
  emit (cogl_set_projection_matrix saved_projection) st.

Definition clutter_offscreen_effect_post_paint (st : State) : State :=
  let camera := _clutter_stage_get_current_camera (stage st) in
  let st := get_per_camera_state st (index camera) in
  let cs := camera_state_at st (index camera) in
  if bool_decide (offscreen cs = None) || bool_decide (pipeline cs = None)
     || bool_decide (actor (priv st) = None)
  then st
  else
    let st := _clutter_actor_set_opacity_override
                (old_opacity_override (priv st)) st in
    let st := emit cogl_pop_matrix st in
    let st := emit cogl_pop_framebuffer st in
    clutter_offscreen_effect_paint_texture st.

(** Modelled from the spec: the actor-dirty bit of the paint flags
    ([CLUTTER_EFFECT_PAINT_ACTOR_DIRTY], declared in a header that is not
    among the sources). *)
Definition CLUTTER_EFFECT_PAINT_ACTOR_DIRTY : Z := 1.

(** Modelled from the spec: the [paint] of the parent class
    [ClutterEffect], whose implementation is not among the sources.  A
    paint cycle runs [pre_paint], lets the actor paint itself, and runs
    [post_paint] when [pre_paint] succeeded; when [pre_paint] returns
    false the actor is painted directly, without the effect. *)
Definition clutter_effect_real_paint (st : State) (flags : Z) : State :=
  let '(pre_paint_succeeded, st) := clutter_offscreen_effect_pre_paint st in
  let st := emit clutter_actor_continue_paint st in
  if pre_paint_succeeded then clutter_offscreen_effect_post_paint st else st.

Definition clutter_offscreen_effect_paint (st : State) (flags : Z) : State :=
  let camera := _clutter_stage_get_current_camera (stage st) in
  let st := get_per_camera_state st (index camera) in
  let cs := camera_state_at st (index camera) in
  let matrix := fb_modelview st in
  if bool_decide (offscreen cs = None)
     || bool_decide (Z.land flags CLUTTER_EFFECT_PAINT_ACTOR_DIRTY <> 0)
     || negb (cogl_matrix_equal matrix (last_matrix_drawn cs))
     || bool_decide (valid_for_age cs <> camera_age st cs)
  then
    (* chain up to the parent paint method, which calls the pre and post
       paint functions to update the image *)
    let st := clutter_effect_real_paint st flags in
    let cs' := camera_state_at st (index camera) in
    store_camera_state (index camera)
      (set_valid_for_age (camera_age st cs') cs') st
  else clutter_offscreen_effect_paint_texture st.

(** [n] consecutive frames in an unchanged world: the same flags, and
    nothing between two calls of [paint]. *)
Definition paint_frames (n : nat) (flags : Z) (st : State) : State :=
  Nat.iter n (fun st => clutter_offscreen_effect_paint st flags) st.

(** How often the actor has painted itself, and how often the drawing
    has been redirected to an offscreen buffer. *)
Definition is_actor_paint (e : Event) : bool :=
  match e with clutter_actor_continue_paint => true | _ => false end.

Definition is_redirection (e : Event) : bool :=
  match e with cogl_push_framebuffer _ => true | _ => false end.

Fixpoint count_events (f : Event -> bool) (l : list Event) : nat :=
  match l with
  | [] => 0
  | e :: l => ((if f e then 1 else 0) + count_events f l)%nat
  end.

(** [clutter_offscreen_effect_finalize]: every entry gives up its three
    handles, and the array is freed. *)
Definition finalize_entry (ctx : CoglContext) (cs : PerCameraState) : CoglContext :=
  let ctx := match offscreen cs with
             | Some o => cogl_object_unref o ctx | None => ctx end in
  let ctx := match pipeline cs with
             | Some p => cogl_object_unref p ctx | None => ctx end in
  match texture cs with
  | Some t => cogl_object_unref t ctx | None => ctx
  end.

Definition clutter_offscreen_effect_finalize (st : State) : State :=
  let ctx := foldl finalize_entry (cogl st)
               (take (n_cameras (priv st)) (camera_state (priv st))) in
  set_cogl ctx
    (set_priv (mkPriv (actor (priv st)) [] 0 (cameras_age (priv st))
                 (old_opacity_override (priv st))) st).

(** [clutter_offscreen_effect_set_actor]: the offscreen buffers of the
    previous actor are dropped and the back pointer is set. *)
Definition clear_offscreen (acc : list PerCameraState * CoglContext)
    (cs : PerCameraState) : list PerCameraState * CoglContext :=
  match offscreen cs with
  | Some o => (fst acc ++ [set_handles None (pipeline cs) (texture cs) cs],
               cogl_object_unref o (snd acc))
  | None => (fst acc ++ [cs], snd acc)
  end.

Definition clutter_offscreen_effect_set_actor (st : State)
    (a : option ClutterActor) : State :=
  let '(arr, ctx) :=
    foldl clear_offscreen ([], cogl st)
      (take (n_cameras (priv st)) (camera_state (priv st))) in
  set_cogl ctx
    (set_priv (mkPriv a (arr ++ drop (n_cameras (priv st)) (camera_state (priv st)))
                 (n_cameras (priv st)) (cameras_age (priv st))
                 (old_opacity_override (priv st))) st).

(** [clutter_offscreen_effect_init], on the zeroed instance GObject
    hands over. *)
Definition clutter_offscreen_effect_init : ClutterOffscreenEffectPrivate :=
  mkPriv None [] 0 (-1) 0.

(** *** The accessors for sub-classes *)

(** [clutter_offscreen_effect_get_texture]. *)
Definition clutter_offscreen_effect_get_texture (st : State)
  : option CoglHandle * State :=
  let camera := _clutter_stage_get_current_camera (stage st) in
  let st := get_per_camera_state st (index camera) in
  (texture (camera_state_at st (index camera)), st).

(** [clutter_offscreen_effect_get_target]. *)
Definition clutter_offscreen_effect_get_target (st : State)
  : option CoglHandle * State :=
  let camera := _clutter_stage_get_current_camera (stage st) in
  let st := get_per_camera_state st (index camera) in
  (pipeline (camera_state_at st (index camera)), st).

(** [clutter_offscreen_effect_get_target_size], called with two return
    locations: the pair written to them when the result is [TRUE], and
    [None] when the result is [FALSE] and nothing is written. *)
Definition clutter_offscreen_effect_get_target_size (st : State)
  : option (gfloat * gfloat) * State :=
  let camera := _clutter_stage_get_current_camera (stage st) in
  let st := get_per_camera_state st (index camera) in
  let cs := camera_state_at st (index camera) in
  match texture cs with
  | None => (None, st)
  | Some _ =>
      (Some (int_to_float (cogl_texture_get_width (texture cs) (cogl st)),
             int_to_float (cogl_texture_get_height (texture cs) (cogl st))),
       st)
  end.

End WithMatrix.
End Offscreen.

(** ** The blur effect: clutter-blur-effect.c *)

Module Blur.
Import Cogl.

(** *** The kernel

    The weights are computed with [powf] and [sqrtf]; here a [float] of the
    kernel is a real number, so that the arithmetic is exact. *)

Definition G_E : R := exp 1.
Definition G_PI : R := PI.
Definition powf (x y : R) : R := Rpower x y.
Definition sqrtf (x : R) : R := sqrt x.

(** [radius = floorf (ceilf (6 * sigma) / 2.0f)]. *)
Definition kernel_radius (sigma : gfloat) : Z :=
  Qfloor (inject_Z (Qceiling (6 * sigma)) / 2).

(** The values [-radius], ..., [radius] of the loop variable [i]. *)
Definition kernel_indices (radius : Z) : list Z :=
  map (fun k => Z.of_nat k - radius) (seq 0 (Z.to_nat (2 * radius + 1))).

(** [powf (G_E, -(i * i) / (2.0f * sigma * sigma))
     / sqrtf (2.0f * G_PI * sigma * sigma)]. *)
Definition gaussian (sigma : R) (i : Z) : R :=
  (powf G_E (IZR (- (i * i)) / (2 * sigma * sigma))
   / sqrtf (2 * G_PI * sigma * sigma))%R.

(** The array [factors] that [clutter_blur_effect_set_sigma_real] hands to
    the pipelines: one weight for radius 0, and otherwise the Gaussian
    samples, summed up from [0.0f] and each divided by the sum. *)
Definition kernel_factors (sigma : R) (radius : Z) : list R :=
  if radius =? 0 then [1%R]
  else
    let factors := map (gaussian sigma) (kernel_indices radius) in
    let sum := fold_left Rplus factors 0%R in
    map (fun f => (f / sum)%R) factors.

(** *** Pipelines *)

(** What the effect sets on a pipeline.  [base] is the pipeline a copy was
    made of. *)
Record Pipeline := mkPipeline {
  base : option CoglHandle;
  snippet_declarations : string;
  snippet_replace : string;
  layer_texture : option CoglHandle;
  blend : option string;
  uniform_float : gmap Z (list R)
}.

(** The Cogl context, its pipelines, the number it gives to each uniform
    name, and the class's [pipeline_cache], which maps a radius to its base
    pipeline. *)
Record World := mkWorld {
  ctx : CoglContext;
  pipelines : gmap positive Pipeline;
  uniform_location : string -> Z;
  pipeline_cache : gmap Z CoglHandle
}.

Definition set_ctx (c : CoglContext) (w : World) : World :=
  mkWorld c (pipelines w) (uniform_location w) (pipeline_cache w).

Definition empty_pipeline : Pipeline :=
  mkPipeline None EmptyString EmptyString None None ∅.

Definition pipeline_at (w : World) (p : CoglHandle) : Pipeline :=
  default empty_pipeline (pipelines w !! p).

Definition update_pipeline (p : option CoglHandle) (f : Pipeline -> Pipeline)
    (w : World) : World :=
  match p with
  | Some h => mkWorld (ctx w) (<[h := f (pipeline_at w h)]> (pipelines w))
                (uniform_location w) (pipeline_cache w)
  | None => w
  end.

Definition cogl_pipeline_copy (source : CoglHandle) (w : World)
  : CoglHandle * World :=
  let '(h, c) := new_object (ctx w) in
  let src := pipeline_at w source in
  (h, mkWorld c
        (<[h := mkPipeline (Some source) (snippet_declarations src)
                  (snippet_replace src) (layer_texture src) (blend src)
                  (uniform_float src)]> (pipelines w))
        (uniform_location w) (pipeline_cache w)).

Definition cogl_pipeline_set_layer_texture (p : option CoglHandle)
    (t : option CoglHandle) (w : World) : World :=
  update_pipeline p
    (fun d => mkPipeline (base d) (snippet_declarations d) (snippet_replace d)
                t (blend d) (uniform_float d)) w.

Definition cogl_pipeline_set_blend (p : option CoglHandle) (b : string)
    (w : World) : World :=
  update_pipeline p
    (fun d => mkPipeline (base d) (snippet_declarations d) (snippet_replace d)
                (layer_texture d) (Some b) (uniform_float d)) w.

Definition cogl_pipeline_set_uniform_float (p : option CoglHandle)
    (location : Z) (value : list R) (w : World) : World :=
  update_pipeline p
    (fun d => mkPipeline (base d) (snippet_declarations d) (snippet_replace d)
                (layer_texture d) (blend d)
                (<[location := value]> (uniform_float d))) w.

(** [cogl_pipeline_get_uniform_location]: the number of the name, the
    same for every pipeline of the context. *)
Definition cogl_pipeline_get_uniform_location (name : string) (w : World) : Z :=
  uniform_location w name.

(** *** The source of the convolution *)

Definition nl : string := String (Ascii.ascii_of_nat 10) EmptyString.

(** One iteration of the loop of [get_blur_pipeline]; [%f] prints the
    integral value [i - radius] with six zero decimals. *)
Definition sample_line (radius : Z) (i : Z) : string :=
  ("cogl_texel " ++ (if (i =? 0)%Z then "=" else "+=")
   ++ " texture2D (cogl_sampler, cogl_tex_coord.st"
   ++ (if negb (i =? radius)%Z
       then " + pixel_step * " ++ pretty (i - radius)%Z ++ ".000000"
       else EmptyString)
   ++ ") * factors[" ++ pretty i ++ "];" ++ nl)%string.

Definition blur_declarations (radius : Z) : string :=
  ("uniform vec2 pixel_step;" ++ nl
   ++ "uniform float factors[" ++ pretty (radius * 2 + 1)%Z ++ "];" ++ nl)%string.

Definition blur_source (radius : Z) : string :=
  foldr String.append EmptyString
    (map (fun k => sample_line radius (Z.of_nat k))
       (seq 0 (Z.to_nat (radius * 2 + 1)))).

(** [get_blur_pipeline].  The snippet is an object of its own, released
    once it is attached to the pipeline. *)
Definition get_blur_pipeline (w : World) (radius : Z) : CoglHandle * World :=
  match pipeline_cache w !! radius with
  | Some pipeline => (pipeline, w)
  | None =>
      let '(snippet, c) := new_object (ctx w) in
      let '(pipeline, c) := cogl_pipeline_new c in
      let c := cogl_object_unref snippet c in
      (pipeline,
       mkWorld c
         (<[pipeline := mkPipeline None (blur_declarations radius)
                          (blur_source radius) None None ∅]> (pipelines w))
         (uniform_location w)
         (<[radius := pipeline]> (pipeline_cache w)))
  end.

(** *** The instance *)

(** The fields [ClutterBlurEffect] adds to its parent instance.  [actor]
    is the back pointer; the actor itself is kept under the parent's. *)
Record ClutterBlurEffect := mkBlur {
  actor : option unit;
  radius : Z;
  sigma : gfloat;
  tex_width : Z;
  tex_height : Z;
  vertical_texture_dirty : bool;
  horizontal_texture : option CoglHandle;
  vertical_texture : option CoglHandle;
  vertical_fbo : option CoglHandle;
  horizontal_pipeline : option CoglHandle;
  horizontal_pixel_step_uniform : Z;
  horizontal_factors_uniform : Z;
  vertical_pipeline : option CoglHandle;
  vertical_pixel_step_uniform : Z;
  vertical_factors_uniform : Z
}.

(** The instance as GObject hands it to [clutter_blur_effect_init]. *)
Definition zeroed : ClutterBlurEffect :=
  mkBlur None 0 0%Q 0 0 false None None None None 0 0 None 0 0.

Definition set_blur_actor (a : option unit) (self : ClutterBlurEffect)
  : ClutterBlurEffect :=
  mkBlur a (radius self) (sigma self) (tex_width self) (tex_height self)
    (vertical_texture_dirty self) (horizontal_texture self)
    (vertical_texture self) (vertical_fbo self) (horizontal_pipeline self)
    (horizontal_pixel_step_uniform self) (horizontal_factors_uniform self)
    (vertical_pipeline self) (vertical_pixel_step_uniform self)
    (vertical_factors_uniform self).

Definition set_horizontal (p : option CoglHandle) (step factors : Z)
    (self : ClutterBlurEffect) : ClutterBlurEffect :=
  mkBlur (actor self) (radius self) (sigma self) (tex_width self)
    (tex_height self) (vertical_texture_dirty self) (horizontal_texture self)
    (vertical_texture self) (vertical_fbo self) p step factors
    (vertical_pipeline self) (vertical_pixel_step_uniform self)
    (vertical_factors_uniform self).

Definition set_vertical (p : option CoglHandle) (step factors : Z)
    (self : ClutterBlurEffect) : ClutterBlurEffect :=
  mkBlur (actor self) (radius self) (sigma self) (tex_width self)
    (tex_height self) (vertical_texture_dirty self) (horizontal_texture self)
    (vertical_texture self) (vertical_fbo self) (horizontal_pipeline self)
    (horizontal_pixel_step_uniform self) (horizontal_factors_uniform self)
    p step factors.

Definition set_kernel (s : gfloat) (r : Z) (self : ClutterBlurEffect)
  : ClutterBlurEffect :=
  mkBlur (actor self) r s (tex_width self) (tex_height self) true
    (horizontal_texture self) (vertical_texture self) (vertical_fbo self)
    (horizontal_pipeline self) (horizontal_pixel_step_uniform self)
    (horizontal_factors_uniform self) (vertical_pipeline self)
    (vertical_pixel_step_uniform self) (vertical_factors_uniform self).

Definition update_horizontal_pipeline_texture (self : ClutterBlurEffect)
    (w : World) : World :=
  let w := cogl_pipeline_set_layer_texture (horizontal_pipeline self)
             (horizontal_texture self) w in
  cogl_pipeline_set_uniform_float (horizontal_pipeline self)
    (horizontal_pixel_step_uniform self)
    [(1 / IZR (tex_width self))%R; 0%R] w.

Definition update_vertical_pipeline_texture (self : ClutterBlurEffect)
    (w : World) : World :=
  let w := cogl_pipeline_set_layer_texture (vertical_pipeline self)
             (vertical_texture self) w in
  cogl_pipeline_set_uniform_float (vertical_pipeline self)
    (vertical_pixel_step_uniform self)
    [0%R; (1 / IZR (tex_height self))%R] w.

Definition unref_pipeline (p : option CoglHandle) (w : World) : World :=
  match p with
  | Some h => set_ctx (cogl_object_unref h (ctx w)) w
  | None => w
  end.

(** [clutter_blur_effect_set_sigma_real], the creation of the two
    pipelines of the instance from the base pipeline of the radius. *)
Definition create_pipelines (w : World) (self : ClutterBlurEffect) (radius' : Z)
  : World * ClutterBlurEffect :=
  let '(base_pipeline, w) := get_blur_pipeline w radius' in
  let '(hp, w) := cogl_pipeline_copy base_pipeline w in
  let self := set_horizontal (Some hp)
                (cogl_pipeline_get_uniform_location "pixel_step" w)
                (cogl_pipeline_get_uniform_location "factors" w) self in
  let w := update_horizontal_pipeline_texture self w in
  let '(vp, w) := cogl_pipeline_copy base_pipeline w in
  let self := set_vertical (Some vp)
                (cogl_pipeline_get_uniform_location "pixel_step" w)
                (cogl_pipeline_get_uniform_location "factors" w) self in
  let w := update_vertical_pipeline_texture self w in
  let w := cogl_pipeline_set_blend (horizontal_pipeline self)
             "RGBA = ADD (SRC_COLOR, 0)" w in
  (w, self).

Definition clutter_blur_effect_set_sigma_real (w : World)
    (self : ClutterBlurEffect) (sigma' : gfloat) : World * ClutterBlurEffect :=
  if Qeq_bool (sigma self) sigma' then (w, self)
  else
    let radius' := kernel_radius sigma' in
    let '(w, self) :=
      if bool_decide (horizontal_pipeline self <> None) &&
         bool_decide (radius' <> radius self)
      then
        let w := unref_pipeline (horizontal_pipeline self) w in
        let self := set_horizontal None (horizontal_pixel_step_uniform self)
                      (horizontal_factors_uniform self) self in
        let w := unref_pipeline (vertical_pipeline self) w in
        let self := set_vertical None (vertical_pixel_step_uniform self)
                      (vertical_factors_uniform self) self in
        (w, self)
      else (w, self) in
    let '(w, self) :=
      match horizontal_pipeline self with
      | None => create_pipelines w self radius'
      | Some _ => (w, self)
      end in
    let factors := kernel_factors (Q2R sigma') radius' in
    let w := cogl_pipeline_set_uniform_float (horizontal_pipeline self)
               (horizontal_factors_uniform self) factors w in
    let w := cogl_pipeline_set_uniform_float (vertical_pipeline self)
               (vertical_factors_uniform self) factors w in
    (w, set_kernel sigma' radius' self).

(** [clutter_blur_effect_init]. *)
Definition clutter_blur_effect_init (w : World) : World * ClutterBlurEffect :=
  clutter_blur_effect_set_sigma_real w zeroed (84089642 # 100000000)%Q.

(** *** The sigma property *)

(** What [clutter_blur_effect_set_sigma] and the property accessors ask of
    GObject and of the effect besides setting the kernel. *)
Inductive Signal :=
| g_object_notify_by_pspec (property : string)
| clutter_effect_queue_repaint
| G_OBJECT_WARN_INVALID_PROPERTY_ID (prop_id : Z).

(** [clutter_blur_effect_set_sigma]; the signals in the order of the
    calls. *)
Definition clutter_blur_effect_set_sigma (w : World) (self : ClutterBlurEffect)
    (sigma' : gfloat) : World * ClutterBlurEffect * list Signal :=
  let '(w, self) := clutter_blur_effect_set_sigma_real w self sigma' in
  (w, self, [g_object_notify_by_pspec "sigma"; clutter_effect_queue_repaint]).

(** [clutter_blur_effect_get_sigma]. *)
Definition clutter_blur_effect_get_sigma (self : ClutterBlurEffect) : gfloat :=
  sigma self.

Definition PROP_SIGMA : Z := 1.

(** [clutter_blur_effect_set_property], for a [GValue] that holds a
    float. *)
Definition clutter_blur_effect_set_property (w : World)
    (self : ClutterBlurEffect) (prop_id : Z) (value : gfloat)
  : World * ClutterBlurEffect * list Signal :=
  if prop_id =? PROP_SIGMA then clutter_blur_effect_set_sigma w self value
  else (w, self, [G_OBJECT_WARN_INVALID_PROPERTY_ID prop_id]).

(** [clutter_blur_effect_get_property]: the float stored in the [GValue],
    if any. *)
Definition clutter_blur_effect_get_property (self : ClutterBlurEffect)
    (prop_id : Z) : option gfloat * list Signal :=
  if prop_id =? PROP_SIGMA then (Some (clutter_blur_effect_get_sigma self), [])
  else (None, [G_OBJECT_WARN_INVALID_PROPERTY_ID prop_id]).

(** *** The textures of the two passes *)

(** [cogl_object_unref] and [cogl_object_ref] on a pointer that may be
    [NULL]: Cogl checks the argument and does nothing for [NULL]. *)
Definition unref_object (o : option CoglHandle) (w : World) : World :=
  match o with
  | Some h => set_ctx (cogl_object_unref h (ctx w)) w
  | None => w
  end.

Definition ref_object (o : option CoglHandle) (w : World) : World :=
  match o with
  | Some h => set_ctx (cogl_object_ref h (ctx w)) w
  | None => w
  end.

Definition set_horizontal_texture (t : option CoglHandle) (width height : Z)
    (self : ClutterBlurEffect) : ClutterBlurEffect :=
  mkBlur (actor self) (radius self) (sigma self) width height
    (vertical_texture_dirty self) t (vertical_texture self) (vertical_fbo self)
    (horizontal_pipeline self) (horizontal_pixel_step_uniform self)
    (horizontal_factors_uniform self) (vertical_pipeline self)
    (vertical_pixel_step_uniform self) (vertical_factors_uniform self).

Definition set_vertical_target (t fbo : option CoglHandle)
    (self : ClutterBlurEffect) : ClutterBlurEffect :=
  mkBlur (actor self) (radius self) (sigma self) (tex_width self)
    (tex_height self) (vertical_texture_dirty self) (horizontal_texture self)
    t fbo (horizontal_pipeline self) (horizontal_pixel_step_uniform self)
    (horizontal_factors_uniform self) (vertical_pipeline self)
    (vertical_pixel_step_uniform self) (vertical_factors_uniform self).

Definition set_vertical_texture_dirty (b : bool) (self : ClutterBlurEffect)
  : ClutterBlurEffect :=
  mkBlur (actor self) (radius self) (sigma self) (tex_width self)
    (tex_height self) b (horizontal_texture self) (vertical_texture self)
    (vertical_fbo self) (horizontal_pipeline self)
    (horizontal_pixel_step_uniform self) (horizontal_factors_uniform self)
    (vertical_pipeline self) (vertical_pixel_step_uniform self)
    (vertical_factors_uniform self).

(** [cogl_offscreen_new_to_texture] on a pointer that may be [NULL]: no
    framebuffer for no texture. *)
Definition offscreen_new_to (t : option CoglHandle) (c : CoglContext)
  : option CoglHandle * CoglContext :=
  match t with
  | Some t => cogl_offscreen_new_to_texture t c
  | None => (None, c)
  end.

(** The allocation of the texture and the framebuffer of the second
    pass in [clutter_blur_effect_post_paint]. *)
Definition allocate_vertical (w : World) (self : ClutterBlurEffect)
  : World * ClutterBlurEffect :=
  let w :=
    match vertical_texture self with
    | Some t => unref_object (vertical_fbo self) (unref_object (Some t) w)
    | None => w
    end in
  let '(t, c) :=
    cogl_texture_new_with_size (tex_width self) (tex_height self) (ctx w) in
  let '(fbo, c) := offscreen_new_to t c in
  let w := set_ctx c w in
  let self := set_vertical_target t fbo self in
  (update_vertical_pipeline_texture self w, self).

(** [clutter_blur_effect_post_paint], up to the call of the parent's
    [post_paint], which is the caller's next step.
    [horizontal_texture'] is the texture that
    [clutter_offscreen_effect_get_texture] returned, and the context of
    [w] is the one that texture lives in. *)
Definition clutter_blur_effect_post_paint (w : World) (self : ClutterBlurEffect)
    (horizontal_texture' : option CoglHandle) : World * ClutterBlurEffect :=
  let '(w, self) :=
    if bool_decide (horizontal_texture' <> horizontal_texture self) then
      let w := unref_object (horizontal_texture self) w in
      let w := ref_object horizontal_texture' w in
      let self :=
        set_horizontal_texture horizontal_texture'
          (cogl_texture_get_width horizontal_texture' (ctx w))
          (cogl_texture_get_height horizontal_texture' (ctx w)) self in
      let w := update_horizontal_pipeline_texture self w in
      if bool_decide (vertical_texture self = None)
         || bool_decide (tex_width self <>
                         cogl_texture_get_width (vertical_texture self) (ctx w))
         || bool_decide (tex_height self <>
                         cogl_texture_get_height (vertical_texture self) (ctx w))
      then allocate_vertical w self
      else (w, self)
    else (w, self) in
  (w, set_vertical_texture_dirty true self).

(** The drawing calls of [clutter_blur_effect_paint_target].  The
    framebuffer is an offscreen buffer of the effect or the one
    [cogl_get_draw_framebuffer] returns. *)
Inductive Framebuffer :=
| offscreen_framebuffer (fbo : option CoglHandle)
| cogl_get_draw_framebuffer.

Inductive Draw :=
| cogl_framebuffer_draw_rectangle (fb : Framebuffer)
    (pipeline : option CoglHandle) (x_1 y_1 x_2 y_2 : gfloat)
| cogl_pipeline_set_color4ub (pipeline : option CoglHandle) (r g b a : Z).

(** [clutter_blur_effect_paint_target]; [paint_opacity] is what
    [clutter_actor_get_paint_opacity (self->actor)] returns.  The calls are
    listed in the order in which they are made. *)
Definition clutter_blur_effect_paint_target (paint_opacity : Z)
    (self : ClutterBlurEffect) : ClutterBlurEffect * list Draw :=
  let '(self, first_pass) :=
    if vertical_texture_dirty self then
      (set_vertical_texture_dirty false self,
       [cogl_framebuffer_draw_rectangle
          (offscreen_framebuffer (vertical_fbo self))
          (horizontal_pipeline self) (-1)%Q 1%Q 1%Q (-1)%Q])
    else (self, []) in
  (self,
   first_pass ++
   [cogl_pipeline_set_color4ub (vertical_pipeline self)
      paint_opacity paint_opacity paint_opacity paint_opacity;
    cogl_framebuffer_draw_rectangle cogl_get_draw_framebuffer
      (vertical_pipeline self) 0%Q 0%Q
      (int_to_float (tex_width self)) (int_to_float (tex_height self))]).

(** [clutter_blur_effect_dispose], up to the call of the parent's
    [dispose]. *)
Definition clutter_blur_effect_dispose (w : World) (self : ClutterBlurEffect)
  : World * ClutterBlurEffect :=
  let w := unref_object (horizontal_pipeline self) w in
  let w := unref_object (vertical_pipeline self) w in
  let w := unref_object (horizontal_texture self) w in
  let w := unref_object (vertical_texture self) w in
  let w := unref_object (vertical_fbo self) w in
  (w,
   mkBlur (actor self) (radius self) (sigma self) (tex_width self)
     (tex_height self) (vertical_texture_dirty self) None None None
     None (horizontal_pixel_step_uniform self) (horizontal_factors_uniform self)
     None (vertical_pixel_step_uniform self) (vertical_factors_uniform self)).

(** *** [pre_paint] *)

Section WithMatrix.

Context {CoglMatrix : Type} `{CoglMatrixAPI CoglMatrix}.

(** [clutter_blur_effect_pre_paint].  [glsl] is the answer of
    [clutter_feature_available (CLUTTER_FEATURE_SHADERS_GLSL)] at this
    call; the parent instance carries the [enabled] flag and the actor of
    the [ClutterActorMeta]. *)
Definition clutter_blur_effect_pre_paint (glsl : bool) (self : ClutterBlurEffect)
    (parent : Offscreen.State (CoglMatrix := CoglMatrix))
  : bool * ClutterBlurEffect * Offscreen.State :=
  if negb (Offscreen.meta_enabled parent) then (false, self, parent)
  else
    let self :=
      set_blur_actor
        (match Offscreen.actor (Offscreen.priv parent) with
         | Some _ => Some tt | None => None end) self in
    match actor self with
    | None => (false, self, parent)
    | Some _ =>
        if negb glsl then
          let parent :=
            Offscreen.emit
              (Offscreen.g_warning
                 "Unable to use the ShaderEffect: the graphics hardware or the current GL driver does not implement support for the GLSL shading language.")
              parent in
          (false, self, Offscreen.set_meta_enabled false parent)
        else
          let '(ok, parent) := Offscreen.clutter_offscreen_effect_pre_paint parent in
          (ok, self, parent)
    end.

(** A run of [pre_paint] calls on one instance, one per answer of the
    feature check, with the result of each. *)
Fixpoint pre_paints (answers : list bool) (self : ClutterBlurEffect)
    (parent : Offscreen.State (CoglMatrix := CoglMatrix)) : list bool :=
  match answers with
  | [] => []
  | glsl :: answers =>
      let '(ok, self, parent) := clutter_blur_effect_pre_paint glsl self parent in
      ok :: pre_paints answers self parent
  end.

End WithMatrix.

End Blur.

(** ** The shader effect: clutter-shader-effect.c *)

Module Shader.
Import Cogl.

Inductive ClutterShaderType := CLUTTER_VERTEX_SHADER | CLUTTER_FRAGMENT_SHADER.

Inductive CoglSnippetHook := COGL_SNIPPET_HOOK_VERTEX | COGL_SNIPPET_HOOK_FRAGMENT.

(** A snippet: its hook, its declarations and the code that replaces the
    hook. *)
Record CoglSnippet := mkSnippet {
  hook : CoglSnippetHook;
  declarations : option string;
  replace : option string
}.

(** The Cogl context, the snippets, and the snippets attached to each
    pipeline, in the order in which they were added. *)
Record World := mkWorld {
  ctx : CoglContext;
  snippets : gmap positive CoglSnippet;
  pipeline_snippets : gmap positive (list CoglHandle)
}.

(** [ClutterShaderEffectPrivate]. *)
Record ClutterShaderEffectPrivate := mkPriv {
  actor : option unit;
  shader_type : ClutterShaderType;
  pipeline : option CoglHandle;
  snippet : option CoglHandle;
  shader : option CoglHandle;
  program : option CoglHandle
}.

Definition cogl_snippet_new (h : CoglSnippetHook) (decl post : option string)
    (w : World) : CoglHandle * World :=
  let '(s, c) := new_object (ctx w) in
  (s, mkWorld c (<[s := mkSnippet h decl None]> (snippets w))
        (pipeline_snippets w)).

Definition snippet_at (w : World) (s : CoglHandle) : CoglSnippet :=
  default (mkSnippet COGL_SNIPPET_HOOK_VERTEX None None) (snippets w !! s).

Definition cogl_snippet_set_declarations (s : CoglHandle) (d : string)
    (w : World) : World :=
  mkWorld (ctx w)
    (<[s := mkSnippet (hook (snippet_at w s)) (Some d)
              (replace (snippet_at w s))]> (snippets w))
    (pipeline_snippets w).

Definition cogl_snippet_set_replace (s : CoglHandle) (r : string)
    (w : World) : World :=
  mkWorld (ctx w)
    (<[s := mkSnippet (hook (snippet_at w s)) (declarations (snippet_at w s))
              (Some r)]> (snippets w))
    (pipeline_snippets w).

Definition cogl_pipeline_add_snippet (p : option CoglHandle) (s : CoglHandle)
    (w : World) : World :=
  match p with
  | Some h =>
      mkWorld (ctx w) (snippets w)
        (<[h := default [] (pipeline_snippets w !! h) ++ [s]]>
           (pipeline_snippets w))
  | None => w
  end.

Definition nl : string := String (Ascii.ascii_of_nat 10) EmptyString.

(** [clutter_shader_effect_create_snippet]. *)
Definition clutter_shader_effect_create_snippet (w : World)
    (priv : ClutterShaderEffectPrivate) (source : string) : CoglHandle * World :=
  let '(snippet, w) :=
    match shader_type priv with
    | CLUTTER_FRAGMENT_SHADER =>
        cogl_snippet_new COGL_SNIPPET_HOOK_FRAGMENT None None w
    | CLUTTER_VERTEX_SHADER =>
        cogl_snippet_new COGL_SNIPPET_HOOK_VERTEX None None w
    end in
  let wrapped_source :=
    ("#define main clutter_shader_effect_main" ++ nl
     ++ source ++ nl ++ "#undef main" ++ nl)%string in
  let w := cogl_snippet_set_declarations snippet wrapped_source w in
  let w := cogl_snippet_set_replace snippet
             ("clutter_shader_effect_main ();" ++ nl)%string w in
  (snippet, w).

(** [clutter_shader_effect_ensure_pipeline]. *)
Definition clutter_shader_effect_ensure_pipeline (w : World)
    (priv : ClutterShaderEffectPrivate) : World * ClutterShaderEffectPrivate :=
  match pipeline priv with
  | None =>
      let '(p, c) := cogl_pipeline_new (ctx w) in
      (mkWorld c (snippets w) (pipeline_snippets w),
       mkPriv (actor priv) (shader_type priv) (Some p) (snippet priv)
         (shader priv) (program priv))
  | Some _ => (w, priv)
  end.

(** [clutter_shader_effect_set_shader_source].  [source] is [None] for a
    [NULL] pointer; the argument checks of [g_return_val_if_fail] are
    compiled in. *)
Definition clutter_shader_effect_set_shader_source (w : World)
    (priv : ClutterShaderEffectPrivate) (source : option string)
  : bool * World * ClutterShaderEffectPrivate :=
  match source with
  | None => (false, w, priv)
  | Some src =>
      if String.eqb src EmptyString then (false, w, priv)
      else
        match snippet priv with
        | Some _ => (true, w, priv)
        | None =>
            let '(w, priv) := clutter_shader_effect_ensure_pipeline w priv in
            let '(s, w) := clutter_shader_effect_create_snippet w priv src in
            let priv := mkPriv (actor priv) (shader_type priv) (pipeline priv)
                          (Some s) (shader priv) (program priv) in
            let w := cogl_pipeline_add_snippet (pipeline priv) s w in
            (true, w, priv)
        end
  end.

(** [clutter_shader_effect_init] on the zeroed instance; the shader type
    is a construction property. *)
Definition clutter_shader_effect_new (t : ClutterShaderType)
  : ClutterShaderEffectPrivate :=
  mkPriv None t None None None None.

Definition empty_world : World := mkWorld (mkCoglContext 1 ∅ ∅ true true) ∅ ∅.

(** *** The other fields of the instance and of the class *)

Definition set_ctx (c : CoglContext) (w : World) : World :=
  mkWorld c (snippets w) (pipeline_snippets w).

Definition set_actor_pointer (a : option unit) (priv : ClutterShaderEffectPrivate)
  : ClutterShaderEffectPrivate :=
  mkPriv a (shader_type priv) (pipeline priv) (snippet priv) (shader priv)
    (program priv).

Definition set_pipeline (p : option CoglHandle)
    (priv : ClutterShaderEffectPrivate) : ClutterShaderEffectPrivate :=
  mkPriv (actor priv) (shader_type priv) p (snippet priv) (shader priv)
    (program priv).

Definition set_snippet (s : option CoglHandle)
    (priv : ClutterShaderEffectPrivate) : ClutterShaderEffectPrivate :=
  mkPriv (actor priv) (shader_type priv) (pipeline priv) s (shader priv)
    (program priv).

Definition set_shader (s : option CoglHandle)
    (priv : ClutterShaderEffectPrivate) : ClutterShaderEffectPrivate :=
  mkPriv (actor priv) (shader_type priv) (pipeline priv) (snippet priv) s
    (program priv).

Definition set_program (p : option CoglHandle)
    (priv : ClutterShaderEffectPrivate) : ClutterShaderEffectPrivate :=
  mkPriv (actor priv) (shader_type priv) (pipeline priv) (snippet priv)
    (shader priv) p.

(** [ClutterShaderEffectClassPrivate]. *)
Record ClutterShaderEffectClassPrivate := mkClassPriv {
  base_pipeline : option CoglHandle;
  base_snippet : option CoglHandle
}.

(** What the effect asks of GLib and of itself besides changing its
    objects; a warning is its format and the arguments of the format. *)
Inductive Signal :=
| g_warning (format : string) (args : list string)
| clutter_effect_queue_repaint.

(** *** Layers and uniforms

    What the effect sets on a pipeline besides snippets: layer 0 and the
    uniform values, under the number Cogl gives to each uniform name. *)
Inductive Layer :=
| layer_null_texture (texture_type : string).

Inductive Uniform :=
| uniform_float (n_components count : Z) (value : list gfloat)
| uniform_int (n_components count : Z) (value : list Z)
| uniform_matrix (dimensions count : Z) (transpose : bool)
    (value : list gfloat).

Record PipelineState := mkPipelineState {
  layer0 : gmap positive Layer;
  uniforms : gmap positive (gmap Z Uniform);
  uniform_location : string -> Z
}.

Definition cogl_pipeline_get_uniform_location (name : string)
    (ps : PipelineState) : Z :=
  uniform_location ps name.

Definition uniforms_at (ps : PipelineState) (p : CoglHandle) : gmap Z Uniform :=
  default ∅ (uniforms ps !! p).

(** [cogl_pipeline_set_uniform_float], [cogl_pipeline_set_uniform_int] and
    [cogl_pipeline_set_uniform_matrix], each with the value it stores. *)
Definition cogl_pipeline_set_uniform (p : option CoglHandle) (location : Z)
    (u : Uniform) (ps : PipelineState) : PipelineState :=
  match p with
  | Some h =>
      mkPipelineState (layer0 ps)
        (<[h := <[location := u]> (uniforms_at ps h)]> (uniforms ps))
        (uniform_location ps)
  | None => ps
  end.

Definition cogl_pipeline_set_layer_null_texture (p : option CoglHandle)
    (texture_type : string) (ps : PipelineState) : PipelineState :=
  match p with
  | Some h =>
      mkPipelineState (<[h := layer_null_texture texture_type]> (layer0 ps))
        (uniforms ps) (uniform_location ps)
  | None => ps
  end.

(** The entry of [source] copied to [h], in a map from pipelines. *)
Definition copy_entry {A : Type} (source h : CoglHandle) (m : gmap positive A)
  : gmap positive A :=
  match m !! source with
  | Some x => <[h := x]> m
  | None => delete h m
  end.

(** [cogl_pipeline_copy]: a new pipeline with the snippets, the layer and
    the uniform values of [source]. *)
Definition cogl_pipeline_copy (source : CoglHandle) (w : World)
    (ps : PipelineState) : CoglHandle * World * PipelineState :=
  let '(h, c) := new_object (ctx w) in
  (h,
   mkWorld c (snippets w) (copy_entry source h (pipeline_snippets w)),
   mkPipelineState (copy_entry source h (layer0 ps))
     (copy_entry source h (uniforms ps)) (uniform_location ps)).

(** [cogl_object_ref] and [cogl_object_unref] on a pointer that may be
    [NULL]: Cogl checks the argument and does nothing for [NULL]. *)
Definition ref_object (o : option CoglHandle) (w : World) : World :=
  match o with
  | Some h => set_ctx (cogl_object_ref h (ctx w)) w
  | None => w
  end.

Definition unref_object (o : option CoglHandle) (w : World) : World :=
  match o with
  | Some h => set_ctx (cogl_object_unref h (ctx w)) w
  | None => w
  end.

(** [cogl_pipeline_add_snippet] on a snippet pointer that may be [NULL]:
    Cogl checks the argument and does nothing for [NULL]. *)
Definition add_snippet (p s : option CoglHandle) (w : World) : World :=
  match s with
  | Some s => cogl_pipeline_add_snippet p s w
  | None => w
  end.

(** *** The static source *)

(** [clutter_shader_effect_try_static_source].
    [get_static_shader_source] is the virtual function of the class:
    [None] when the class does not implement it, and else the source it
    returns.  When the instance has no pipeline, the base pipeline it is
    given a copy of has been set just before, if it was not set already. *)
Definition clutter_shader_effect_try_static_source
    (get_static_shader_source : option string)
    (w : World) (ps : PipelineState)
    (class_priv : ClutterShaderEffectClassPrivate)
    (priv : ClutterShaderEffectPrivate)
  : World * PipelineState * ClutterShaderEffectClassPrivate
    * ClutterShaderEffectPrivate :=
  match get_static_shader_source with
  | None => (w, ps, class_priv, priv)
  | Some source =>
      let '(w, ps, class_priv) :=
        match base_pipeline class_priv with
        | None =>
            let '(s, w) := clutter_shader_effect_create_snippet w priv source in
            let '(p, c) := cogl_pipeline_new (ctx w) in
            let w := set_ctx c w in
            let w := cogl_pipeline_add_snippet (Some p) s w in
            let ps := cogl_pipeline_set_layer_null_texture (Some p)
                        "COGL_TEXTURE_TYPE_2D" ps in
            (w, ps, mkClassPriv (Some p) (Some s))
        | Some _ => (w, ps, class_priv)
        end in
      let '(w, ps, priv) :=
        match pipeline priv, base_pipeline class_priv with
        | Some _, _ =>
            (add_snippet (pipeline priv) (base_snippet class_priv) w, ps, priv)
        | None, Some b =>
            let '(h, w, ps) := cogl_pipeline_copy b w ps in
            (w, ps, set_pipeline (Some h) priv)
        | None, None => (w, ps, priv)
        end in
      let w := ref_object (base_snippet class_priv) w in
      (w, ps, class_priv, set_snippet (base_snippet class_priv) priv)
  end.

(** *** Shaders and programs

    The objects of the Cogl 1 API behind
    [clutter_shader_effect_get_shader] and
    [clutter_shader_effect_get_program]: a shader has a type and the
    source it was given, a program the shaders attached to it.  Whether a
    source compiles, and the log of the compiler, is the driver's. *)
Inductive CoglShaderType := COGL_SHADER_TYPE_VERTEX | COGL_SHADER_TYPE_FRAGMENT.

Record CoglProgram := mkProgram {
  attached : list CoglHandle;
  is_linked : bool
}.

Record Programs := mkPrograms {
  shaders : gmap positive (CoglShaderType * option string);
  programs : gmap positive CoglProgram
}.

Record Compiler := mkCompiler {
  cogl_shader_is_compiled : CoglShaderType -> option string -> bool;
  cogl_shader_get_info_log : CoglShaderType -> option string -> string
}.

(** [g_strconcat] of a first string that may be [NULL] and a second one:
    [NULL] ends the list of arguments. *)
Definition g_strconcat (first : option string) (second : string)
  : option string :=
  match first with
  | Some s => Some (s ++ second)%string
  | None => None
  end.

(** [clutter_shader_effect_get_shader]. *)
Definition clutter_shader_effect_get_shader (glsl : Compiler) (w : World)
    (g : Programs) (priv : ClutterShaderEffectPrivate)
  : option CoglHandle * World * Programs * ClutterShaderEffectPrivate
    * list Signal :=
  match shader priv with
  | Some s => (Some s, w, g, priv, [])
  | None =>
      match snippet priv with
      | None => (None, w, g, priv, [])
      | Some sn =>
          let type :=
            match shader_type priv with
            | CLUTTER_FRAGMENT_SHADER => COGL_SHADER_TYPE_FRAGMENT
            | CLUTTER_VERTEX_SHADER => COGL_SHADER_TYPE_VERTEX
            end in
          let '(sh, c) := new_object (ctx w) in
          let w := set_ctx c w in
          let priv := set_shader (Some sh) priv in
          let source :=
            g_strconcat (declarations (snippet_at w sn))
              (nl ++ "void" ++ nl ++ "main ()" ++ nl ++ "{" ++ nl
               ++ "  clutter_shader_effect_main ();" ++ nl ++ "}" ++ nl) in
          let g := mkPrograms (<[sh := (type, source)]> (shaders g))
                     (programs g) in
          if cogl_shader_is_compiled glsl type source then
            (shader priv, w, g, priv, [])
          else
            let w := unref_object (shader priv) w in
            let priv := set_shader None priv in
            (shader priv, w, g, priv,
             [g_warning "G_STRLOC: Unable to compile the GLSL shader: %s"
                [cogl_shader_get_info_log glsl type source]])
      end
  end.

(** [clutter_shader_effect_get_program]. *)
Definition clutter_shader_effect_get_program (glsl : Compiler) (w : World)
    (g : Programs) (priv : ClutterShaderEffectPrivate)
  : option CoglHandle * World * Programs * ClutterShaderEffectPrivate
    * list Signal :=
  match program priv with
  | Some p => (Some p, w, g, priv, [])
  | None =>
      let '(shader', w, g, priv, signals) :=
        clutter_shader_effect_get_shader glsl w g priv in
      match shader' with
      | None => (None, w, g, priv, signals)
      | Some sh =>
          let '(p, c) := new_object (ctx w) in
          let w := set_ctx c w in
          let priv := set_program (Some p) priv in
          let g := mkPrograms (shaders g)
                     (<[p := mkProgram [sh] true]> (programs g)) in
          (program priv, w, g, priv, signals)
      end
  end.

(** [clutter_shader_effect_finalize], up to the call of the parent's
    [finalize]. *)
Definition clutter_shader_effect_finalize (w : World)
    (priv : ClutterShaderEffectPrivate) : World * ClutterShaderEffectPrivate :=
  let w := unref_object (pipeline priv) w in
  let priv := set_pipeline None priv in
  let w := unref_object (snippet priv) w in
  let priv := set_snippet None priv in
  let w := unref_object (shader priv) w in
  let priv := set_shader None priv in
  let w := unref_object (program priv) w in
  let priv := set_program None priv in
  (w, priv).

(** *** Uniforms *)

(** A [GValue]: its type and what it holds.  A value of
    [CLUTTER_TYPE_SHADER_FLOAT], [CLUTTER_TYPE_SHADER_INT] or
    [CLUTTER_TYPE_SHADER_MATRIX] holds a size and an array. *)
Inductive GValue :=
| CLUTTER_TYPE_SHADER_FLOAT (size : Z) (floats : list gfloat)
| CLUTTER_TYPE_SHADER_INT (size : Z) (ints : list Z)
| CLUTTER_TYPE_SHADER_MATRIX (size : Z) (matrix : list gfloat)
| G_TYPE_FLOAT (v : gfloat)
| G_TYPE_DOUBLE (v : gfloat)
| G_TYPE_INT (v : Z)
| G_TYPE_other (type_name : string).

(** [clutter_shader_effect_add_uniform].  [in_paint] is
    [CLUTTER_ACTOR_IN_PAINT (priv->actor)].  A [double] and a [float] are
    both rational numbers here, so the cast of the [double] does not
    show. *)
Definition clutter_shader_effect_add_uniform (in_paint : bool) (w : World)
    (ps : PipelineState) (priv : ClutterShaderEffectPrivate)
    (name : string) (value : GValue)
  : World * PipelineState * ClutterShaderEffectPrivate * list Signal :=
  let '(w, priv) := clutter_shader_effect_ensure_pipeline w priv in
  let location := cogl_pipeline_get_uniform_location name ps in
  let '(ps, warning) :=
    match value with
    | CLUTTER_TYPE_SHADER_FLOAT size floats =>
        (cogl_pipeline_set_uniform (pipeline priv) location
           (uniform_float size 1 floats) ps, [])
    | CLUTTER_TYPE_SHADER_INT size ints =>
        (cogl_pipeline_set_uniform (pipeline priv) location
           (uniform_int size 1 ints) ps, [])
    | CLUTTER_TYPE_SHADER_MATRIX size matrix =>
        (cogl_pipeline_set_uniform (pipeline priv) location
           (uniform_matrix size 1 false matrix) ps, [])
    | G_TYPE_FLOAT float_val =>
        (cogl_pipeline_set_uniform (pipeline priv) location
           (uniform_float 1 1 [float_val]) ps, [])
    | G_TYPE_DOUBLE double_val =>
        (cogl_pipeline_set_uniform (pipeline priv) location
           (uniform_float 1 1 [double_val]) ps, [])
    | G_TYPE_INT int_val =>
        (cogl_pipeline_set_uniform (pipeline priv) location
           (uniform_int 1 1 [int_val]) ps, [])
    | G_TYPE_other type_name =>
        (ps, [g_warning "Invalid uniform of type '%s' for name '%s'"
                [type_name; name]])
    end in
  let repaint :=
    match actor priv with
    | Some _ => if negb in_paint then [clutter_effect_queue_repaint] else []
    | None => []
    end in
  (w, ps, priv, warning ++ repaint).

(** [clutter_shader_effect_set_uniform_value]; [name] and [value] are
    [None] for a [NULL] pointer. *)
Definition clutter_shader_effect_set_uniform_value (in_paint : bool)
    (w : World) (ps : PipelineState) (priv : ClutterShaderEffectPrivate)
    (name : option string) (value : option GValue)
  : World * PipelineState * ClutterShaderEffectPrivate * list Signal :=
  match name, value with
  | Some name, Some value =>
      clutter_shader_effect_add_uniform in_paint w ps priv name value
  | _, _ => (w, ps, priv, [])
  end.

(** *** [set_actor] *)

Section WithMatrix.

Context {CoglMatrix : Type} `{CoglMatrixAPI CoglMatrix}.

(** [clutter_shader_effect_set_actor].  [glsl] is the answer of
    [clutter_feature_available (CLUTTER_FEATURE_SHADERS_GLSL)]; the parent
    instance carries the [enabled] flag and the actor of the
    [ClutterActorMeta]. *)
Definition clutter_shader_effect_set_actor (glsl : bool)
    (priv : ClutterShaderEffectPrivate)
    (parent : Offscreen.State (CoglMatrix := CoglMatrix))
    (a : option Offscreen.ClutterActor)
  : ClutterShaderEffectPrivate * Offscreen.State :=
  if negb glsl then
    let parent :=
      Offscreen.emit
        (Offscreen.g_warning
           "Unable to use the ShaderEffect: the graphics hardware or the current GL driver does not implement support for the GLSL shading language.")
        parent in
    (priv, Offscreen.set_meta_enabled false parent)
  else
    let parent := Offscreen.clutter_offscreen_effect_set_actor parent a in
    (set_actor_pointer
       (match Offscreen.actor (Offscreen.priv parent) with
        | Some _ => Some tt
        | None => None
        end) priv,
     parent).

End WithMatrix.

End Shader.

(** ** A concrete world

    Matrices of rationals, four rows of four entries, with Cogl's
    conventions: [cogl_matrix_translate] and [cogl_matrix_scale] multiply on
    the right, [cogl_matrix_equal] compares entry by entry.  They
    instantiate the parameters when a property is run on an example. *)

Module Scenario.
Import Cogl Offscreen.

Definition QMatrix := list (list Q).

Definition dot (r c : list Q) : Q :=
  foldr Qplus 0%Q (zip_with Qmult r c).

Definition column (m : QMatrix) (j : nat) : list Q :=
  map (fun r => nth j r 0%Q) m.

Definition mmul (a b : QMatrix) : QMatrix :=
  map (fun r => map (fun j => Qred (dot r (column b j))) (seq 0 4)) a.

Definition identity : QMatrix :=
  [[1; 0; 0; 0]; [0; 1; 0; 0]; [0; 0; 1; 0]; [0; 0; 0; 1]]%Q.

Definition translation (x y z : Q) : QMatrix :=
  [[1; 0; 0; x]; [0; 1; 0; y]; [0; 0; 1; z]; [0; 0; 0; 1]]%Q.

Definition scaling (x y z : Q) : QMatrix :=
  [[x; 0; 0; 0]; [0; y; 0; 0]; [0; 0; z; 0]; [0; 0; 0; 1]]%Q.

Fixpoint row_equal (a b : list Q) : bool :=
  match a, b with
  | [], [] => true
  | x :: a, y :: b => Qeq_bool x y && row_equal a b
  | _, _ => false
  end.

Fixpoint matrix_equal (a b : QMatrix) : bool :=
  match a, b with
  | [], [] => true
  | r :: a, s :: b => row_equal r s && matrix_equal a b
  | _, _ => false
  end.

#[export] Instance QMatrixAPI : CoglMatrixAPI QMatrix := {|
  cogl_matrix_equal := matrix_equal;
  cogl_matrix_init_identity := identity;
  cogl_matrix_translate m x y z := mmul m (translation x y z);
  cogl_matrix_scale m x y z := mmul m (scaling x y z)
|}.

(** A driver in which every allocation succeeds, with no object yet. *)
Definition empty_context : CoglContext := mkCoglContext 1 ∅ ∅ true true.

(** A stage of 800x600 with one camera whose viewport is the whole stage. *)
Definition camera0 : ClutterCamera := mkCamera 0 0%Q 0%Q 800%Q 600%Q 0.

Definition stage0 : ClutterStage (CoglMatrix := QMatrix) :=
  mkStage [camera0] 0 0 identity 800%Q 600%Q.

(** A 100x100 actor at (50, 50), with no opacity override. *)
Definition actor0 : ClutterActor :=
  mkActor (-1) (Some (mkBox 50%Q 50%Q 150%Q 150%Q)) 255.

(** Whatever was in the memory the entries are allocated in. *)
Definition garbage : PerCameraState (CoglMatrix := QMatrix) :=
  mkPerCameraState 5 7 (Some 40%positive) (Some 41%positive) (Some 42%positive)
    3%Q 4%Q 13 17 (scaling 2 2 2).

(** A new effect attached to the actor. *)
Definition state0 (ctx : CoglContext) (a : ClutterActor) : State :=
  clutter_offscreen_effect_set_actor
    (mkState true clutter_offscreen_effect_init stage0 ctx identity identity
       garbage [])
    (Some a).

(** The same stage after a second camera has been added. *)
Definition camera1 : ClutterCamera := mkCamera 1 400%Q 0%Q 400%Q 600%Q 0.

Definition stage1 : ClutterStage (CoglMatrix := QMatrix) :=
  mkStage [camera0; camera1] 1 0 identity 800%Q 600%Q.

(** The effect after one successful [pre_paint] on [stage0]. *)
Definition painted : State :=
  snd (clutter_offscreen_effect_pre_paint (state0 empty_context actor0)).

(** A driver that cannot allocate textures, and one that cannot allocate
    offscreen framebuffers. *)
Definition no_texture_context : CoglContext := mkCoglContext 1 ∅ ∅ false true.

(** The actor 20 pixels over the left edge of the stage, and a
    half-transparent one. *)
Definition actor_left : ClutterActor :=
  mkActor (-1) (Some (mkBox (-20)%Q 50%Q 80%Q 150%Q)) 255.

Definition actor_half : ClutterActor :=
  mkActor 128 (Some (mkBox 50%Q 50%Q 150%Q 150%Q)) 255.

(** A context with no object and an empty pipeline cache, where
    [pixel_step] is uniform 0 and [factors] is uniform 1; and two blur
    effects made in it one after the other. *)
Definition blur_world : Blur.World :=
  Blur.mkWorld empty_context ∅
    (fun name => if String.eqb name "pixel_step" then 0 else 1) ∅.

Definition blur_a : Blur.World * Blur.ClutterBlurEffect :=
  Blur.clutter_blur_effect_init blur_world.

Definition blur_b : Blur.World * Blur.ClutterBlurEffect :=
  Blur.clutter_blur_effect_init (fst blur_a).

(** The stage of [stage0] after its camera has changed: the camera's age
    is 1, the set of cameras is the same. *)
Definition camera0_aged : ClutterCamera := mkCamera 0 0%Q 0%Q 800%Q 600%Q 1.

Definition stage0_aged : ClutterStage (CoglMatrix := QMatrix) :=
  mkStage [camera0_aged] 0 0 identity 800%Q 600%Q.

End Scenario.

(** * Properties *)

Module OffscreenFacts.
Import Cogl Offscreen.

Section WithMatrix.

Context {CoglMatrix : Type} `{CoglMatrixAPI CoglMatrix}.

Local Abbreviation State := (@State CoglMatrix).
Local Abbreviation PerCameraState := (@PerCameraState CoglMatrix).
Local Abbreviation Event := (@Event CoglMatrix).

Implicit Types (st : State) (cs : PerCameraState) (ctx : CoglContext)
  (l : list PerCameraState) (e : Event).

#[local] Arguments get_per_camera_state : simpl never.
#[local] Arguments update_fbo : simpl never.
#[local] Arguments allocate_fbo : simpl never.
#[local] Arguments request_target : simpl never.
#[local] Arguments redirect : simpl never.
#[local] Arguments clutter_offscreen_effect_pre_paint : simpl never.
#[local] Arguments clutter_offscreen_effect_post_paint : simpl never.
#[local] Arguments clutter_offscreen_effect_paint_texture : simpl never.
#[local] Arguments clutter_offscreen_effect_paint_target : simpl never.

(** *** Looking an entry up *)

(** Nothing to do: the camera set is the one the array was built for and
    the entry is as old as its camera. *)
Definition up_to_date st (i : nat) : Prop :=
  stage_cameras_age (stage st) = cameras_age (priv st) /\
  forall cs, camera_state (priv st) !! i = Some cs ->
             camera_age st cs = valid_for_age cs.

Lemma get_per_camera_state_up_to_date st i :
  up_to_date st i -> get_per_camera_state st i = st.
Proof.
  intros [Hgen Hage]. unfold get_per_camera_state, check_cameras_age.
  rewrite bool_decide_eq_false_2 by (intros Hne; apply Hne; exact Hgen).
  unfold check_camera_age.
  destruct (camera_state (priv st) !! i) as [cs|]; [|reflexivity].
  specialize (Hage cs eq_refl).
  rewrite bool_decide_eq_false_2 by (intros Hne; apply Hne; exact Hage).
  reflexivity.
Qed.

(** *** What a lookup leaves alone *)

(** The allocator's settings, the texture sizes and the next free handle
    are not touched by releasing references. *)
Definition same_objects ctx ctx' : Prop :=
  next_handle ctx' = next_handle ctx /\
  texture_size ctx' = texture_size ctx /\
  texture_new_ok ctx' = texture_new_ok ctx /\
  offscreen_new_ok ctx' = offscreen_new_ok ctx.

Lemma same_objects_refl ctx : same_objects ctx ctx.
Proof. repeat split. Qed.

Lemma same_objects_trans ctx1 ctx2 ctx3 :
  same_objects ctx1 ctx2 -> same_objects ctx2 ctx3 -> same_objects ctx1 ctx3.
Proof.
  intros (a1 & a2 & a3 & a4) (b1 & b2 & b3 & b4).
  repeat split; congruence.
Qed.

Lemma same_objects_unref h ctx : same_objects ctx (cogl_object_unref h ctx).
Proof. repeat split. Qed.

Lemma invalidate_same_objects cs ctx :
  same_objects ctx (snd (invalidate_per_camera_state cs ctx)).
Proof.
  unfold invalidate_per_camera_state.
  destruct (pipeline cs), (offscreen cs); simpl; repeat split.
Qed.

Lemma invalidate_all_same_objects l ctx :
  same_objects ctx (invalidate_all l ctx).
Proof.
  revert ctx. induction l as [|cs l IH]; intros ctx; simpl.
  - apply same_objects_refl.
  - eapply same_objects_trans; [apply invalidate_same_objects | apply IH].
Qed.

(** An invalidated entry has neither pipeline nor offscreen buffer; its
    texture and the rest of it are as before. *)
Lemma invalidate_entry cs ctx :
  fst (invalidate_per_camera_state cs ctx) = set_handles None None (texture cs) cs.
Proof.
  unfold invalidate_per_camera_state.
  destruct cs as [c v o p t xo yo rw rh m]; destruct p, o; reflexivity.
Qed.

(** The parts of the state outside the cache. *)
Definition same_world st st' : Prop :=
  meta_enabled st' = meta_enabled st /\
  actor (priv st') = actor (priv st) /\
  old_opacity_override (priv st') = old_opacity_override (priv st) /\
  stage st' = stage st /\
  fb_modelview st' = fb_modelview st /\
  fb_projection st' = fb_projection st /\
  slice_garbage st' = slice_garbage st /\
  texture_new_ok (cogl st') = texture_new_ok (cogl st) /\
  offscreen_new_ok (cogl st') = offscreen_new_ok (cogl st).

Lemma same_world_refl st : same_world st st.
Proof. repeat split. Qed.

Lemma same_world_trans st1 st2 st3 :
  same_world st1 st2 -> same_world st2 st3 -> same_world st1 st3.
Proof.
  intros (a1 & a2 & a3 & a4 & a5 & a6 & a7 & a8 & a9)
         (b1 & b2 & b3 & b4 & b5 & b6 & b7 & b8 & b9).
  repeat split; congruence.
Qed.

Lemma check_cameras_age_same_world st : same_world st (check_cameras_age st).
Proof.
  unfold check_cameras_age. case_bool_decide; [|apply same_world_refl].
  unfold rebuild_camera_states. repeat split; simpl;
    apply invalidate_all_same_objects.
Qed.

Lemma check_camera_age_same_world st i : same_world st (check_camera_age st i).
Proof.
  unfold check_camera_age.
  destruct (camera_state (priv st) !! i) as [cs|]; [|apply same_world_refl].
  case_bool_decide; [|apply same_world_refl].
  pose proof (invalidate_same_objects cs (cogl st)) as Hs.
  destruct (invalidate_per_camera_state cs (cogl st)) as [cs' ctx'].
  simpl in Hs. repeat split; simpl; apply Hs.
Qed.

Lemma get_per_camera_state_same_world st i :
  same_world st (get_per_camera_state st i).
Proof.
  unfold get_per_camera_state. eapply same_world_trans.
  - apply check_cameras_age_same_world.
  - apply check_camera_age_same_world.
Qed.

Lemma get_per_camera_state_log st i : log (get_per_camera_state st i) = log st.
Proof.
  unfold get_per_camera_state, check_camera_age, check_cameras_age.
  case_bool_decide; simpl.
  - destruct (_ !! i) as [cs|]; [|reflexivity].
    case_bool_decide; [|reflexivity].
    destruct (invalidate_per_camera_state _ _). reflexivity.
  - destruct (_ !! i) as [cs|]; [|reflexivity].
    case_bool_decide; [|reflexivity].
    destruct (invalidate_per_camera_state _ _). reflexivity.
Qed.

(** After a lookup the array is the one of the current camera set, and
    the entry, when there is one, is as old as its camera. *)
Lemma check_cameras_age_generation st :
  cameras_age (priv (check_cameras_age st)) = stage_cameras_age (stage st).
Proof.
  unfold check_cameras_age. case_bool_decide as Hg; simpl; [reflexivity|].
  destruct (decide (stage_cameras_age (stage st) = cameras_age (priv st)));
    [congruence | contradiction].
Qed.

Lemma check_camera_age_generation st i :
  cameras_age (priv (check_camera_age st i)) = cameras_age (priv st).
Proof.
  unfold check_camera_age.
  destruct (camera_state (priv st) !! i) as [cs|]; [|reflexivity].
  case_bool_decide; [|reflexivity].
  destruct (invalidate_per_camera_state _ _). reflexivity.
Qed.

Lemma check_camera_age_up_to_date st i :
  stage_cameras_age (stage st) = cameras_age (priv st) ->
  up_to_date (check_camera_age st i) i.
Proof.
  intros Hgen. split.
  - rewrite check_camera_age_generation.
    destruct (check_camera_age_same_world st i) as (_ & _ & _ & -> & _).
    exact Hgen.
  - unfold check_camera_age.
    destruct (camera_state (priv st) !! i) as [cs|] eqn:E.
    + case_bool_decide as Ha.
      * pose proof (invalidate_entry cs (cogl st)) as He.
        destruct (invalidate_per_camera_state cs (cogl st)) as [cs' ctx'].
        simpl in He. subst cs'. simpl. intros cs2.
        rewrite list_lookup_insert_eq by (eapply lookup_lt_Some; exact E).
        intros [= <-]. reflexivity.
      * intros cs2. rewrite E. intros [= <-].
        destruct (decide (camera_age st cs = valid_for_age cs)); [done|contradiction].
    + intros cs2. rewrite E. discriminate.
Qed.

Lemma get_per_camera_state_is_up_to_date st i :
  up_to_date (get_per_camera_state st i) i.
Proof.
  unfold get_per_camera_state. apply check_camera_age_up_to_date.
  rewrite check_cameras_age_generation.
  destruct (check_cameras_age_same_world st) as (_ & _ & _ & -> & _).
  reflexivity.
Qed.

Lemma get_per_camera_state_idempotent st i :
  get_per_camera_state (get_per_camera_state st i) i = get_per_camera_state st i.
Proof.
  apply get_per_camera_state_up_to_date, get_per_camera_state_is_up_to_date.
Qed.

(** C6. [update_fbo] first looks the entry up ([get_per_camera_state]);
    when that entry has an offscreen buffer and was requested at the
    size now asked for, [update_fbo] returns [TRUE] and does nothing
    more: the state is the one the lookup returned, so the entry, its
    three handles, the reference counts and the set of allocated
    objects are untouched.  When the lookup itself has nothing to
    invalidate, the whole call changes nothing. *)
Theorem update_fbo_same_request_noop st i (w h : Z) :
  let st1 := get_per_camera_state st i in
  let cs := camera_state_at st1 i in
  offscreen cs <> None ->
  request_width cs = w ->
  request_height cs = h ->
  update_fbo st i w h = (true, st1) /\
  camera_state_at (snd (update_fbo st i w h)) i = cs /\
  cogl (snd (update_fbo st i w h)) = cogl st1 /\
  (up_to_date st i -> update_fbo st i w h = (true, st)).
Proof.
  intros st1 cs Ho Hw Hh.
  assert (E : update_fbo st i w h = (true, st1)).
  { unfold update_fbo. fold st1. fold cs.
    rewrite !bool_decide_eq_true_2 by assumption. reflexivity. }
  rewrite E. repeat split; try reflexivity.
  intros Hup. unfold st1. now rewrite get_per_camera_state_up_to_date.
Qed.

(** *** Allocation of the target *)

Lemma camera_state_at_store st i cs :
  (i < length (camera_state (priv st)))%nat ->
  camera_state_at (store_camera_state i cs st) i = cs.
Proof.
  intros Hi. unfold camera_state_at, store_camera_state. simpl.
  rewrite list_lookup_insert_eq by exact Hi. reflexivity.
Qed.



(** Writing the offset of the paint box into the entry does not make the
    entry stale. *)
Lemma store_offsets_up_to_date st i x y :
  up_to_date st i ->
  up_to_date (store_camera_state i
                (set_viewport_offset x y (camera_state_at st i)) st) i.
Proof.
  intros [Hgen Hage]. split; [exact Hgen|]. simpl. intros cs2 Hl.
  unfold camera_state_at in Hl.
  destruct (camera_state (priv st) !! i) as [cs|] eqn:E.
  - rewrite list_lookup_insert_eq in Hl by (eapply lookup_lt_Some; exact E).
    injection Hl as <-. simpl. exact (Hage cs eq_refl).
  - rewrite list_insert_ge in Hl by (apply lookup_ge_None; exact E).
    congruence.
Qed.

(** The state in which [clutter_offscreen_effect_pre_paint] calls
    [update_fbo]. *)
Lemma request_target_state st a camera :
  snd (request_target st a camera) =
  let st1 := get_per_camera_state st (index camera) in
  let cs := camera_state_at st1 (index camera) in
  store_camera_state (index camera)
    (match paint_box a with
     | Some box => set_viewport_offset (x1 box - viewport_0 camera)%Q
                     (y1 box - viewport_1 camera)%Q cs
     | None => set_viewport_offset 0%Q 0%Q cs
     end) st1.
Proof. unfold request_target. destruct (paint_box a); reflexivity. Qed.

Lemma request_target_up_to_date st a camera :
  up_to_date (snd (request_target st a camera)) (index camera).
Proof.
  rewrite request_target_state. cbv zeta.
  destruct (paint_box a); apply store_offsets_up_to_date,
    get_per_camera_state_is_up_to_date.
Qed.

(** *** The log *)

(** An event that is neither a paint of the actor nor a redirection. *)
Definition quiet (e : Event) : Prop :=
  is_actor_paint e = false /\ is_redirection e = false.

(** [grows l l']: the log [l'] is [l] with quiet events added. *)
Inductive grows (l : list Event) : list Event -> Prop :=
| grows_refl : grows l l
| grows_cons e (l' : list Event) : quiet e -> grows l l' -> grows l (e :: l').

Lemma grows_trans (l1 l2 l3 : list Event) :
  grows l1 l2 -> grows l2 l3 -> grows l1 l3.
Proof.
  intros H12 H23. induction H23 as [|e l' He _ IH]; [exact H12|].
  apply grows_cons; assumption.
Qed.

Lemma grows_count (f : Event -> bool) (l l' : list Event) :
  (forall e, quiet e -> f e = false) ->
  grows l l' -> count_events f l' = count_events f l.
Proof.
  intros Hf Hg. induction Hg as [|e l' He _ IH]; [reflexivity|].
  simpl. rewrite (Hf e He), IH. reflexivity.
Qed.

Lemma grows_actor_paints (l l' : list Event) :
  grows l l' -> count_events is_actor_paint l' = count_events is_actor_paint l.
Proof. apply grows_count. intros e [He _]. exact He. Qed.

Lemma grows_redirections (l l' : list Event) :
  grows l l' -> count_events is_redirection l' = count_events is_redirection l.
Proof. apply grows_count. intros e [_ He]. exact He. Qed.

Ltac quiet_log :=
  repeat first [ apply grows_refl
               | apply grows_cons; [split; reflexivity|] ].

(** [allocate_fbo] writes the entry's handles and request size, and
    nothing else of the entry; outside the cache it changes the Cogl
    context and the log. *)
Definition with_cogl_log ctx (lg : list Event) st : State :=
  mkState (meta_enabled st) (priv st) (stage st) ctx (fb_modelview st)
    (fb_projection st) (slice_garbage st) lg.

Lemma allocate_fbo_shape st i cs w h :
  exists o p t rw rh ctx lg,
    snd (allocate_fbo st i cs w h) =
      store_camera_state i (set_request rw rh (set_handles o p t cs))
        (with_cogl_log ctx lg st) /\
    texture_new_ok ctx = texture_new_ok (cogl st) /\
    offscreen_new_ok ctx = offscreen_new_ok (cogl st) /\
    (fst (allocate_fbo st i cs w h) = true ->
       o <> None /\ p <> None /\ t <> None) /\
    grows (log st) lg.
Proof.
  unfold allocate_fbo.
  unfold clutter_offscreen_effect_create_texture,
    clutter_offscreen_effect_real_create_texture, cogl_texture_new_with_size,
    cogl_offscreen_new_to_texture.
  destruct st as [en pr sg cx mv pj gb lg].
  destruct cs as [c v o p t xo yo rw rh m].
  destruct p as [p|], t as [t|], o as [o|]; simpl;
    destruct (texture_new_ok cx) eqn:Ek; simpl;
    try destruct (offscreen_new_ok cx) eqn:Eo; simpl;
    do 7 eexists; (split; [reflexivity|]); simpl;
    (split; [first [reflexivity | assumption]|]);
    (split; [first [reflexivity | assumption]|]);
    (split; [intros; first [discriminate | repeat split; discriminate]|]);
    quiet_log.
Qed.

Lemma store_up_to_date st i cs cs' :
  camera_state_at st i = cs ->
  camera cs' = camera cs -> valid_for_age cs' = valid_for_age cs ->
  up_to_date st i -> up_to_date (store_camera_state i cs' st) i.
Proof.
  intros Hcs Hc Hv [Hgen Hage]. split; [exact Hgen|]. simpl. intros cs2 Hl.
  unfold camera_state_at in Hcs.
  destruct (camera_state (priv st) !! i) as [cs0|] eqn:E.
  - rewrite list_lookup_insert_eq in Hl by (eapply lookup_lt_Some; exact E).
    injection Hl as <-. simpl in Hcs. subst cs0.
    unfold camera_age in *. simpl. rewrite Hc, Hv. exact (Hage cs eq_refl).
  - rewrite list_insert_ge in Hl by (apply lookup_ge_None; exact E).
    congruence.
Qed.

Lemma update_fbo_up_to_date st i w h :
  up_to_date st i -> up_to_date (snd (update_fbo st i w h)) i.
Proof.
  intros Hup. unfold update_fbo.
  rewrite (get_per_camera_state_up_to_date st i Hup). cbv zeta.
  destruct (_ && _); [exact Hup|].
  destruct (allocate_fbo_shape st i (camera_state_at st i) w h)
    as (o & p & t & rw & rh & ctx & lg & -> & _).
  apply (store_up_to_date (with_cogl_log ctx lg st) i (camera_state_at st i));
    try reflexivity.
  exact Hup.
Qed.

Lemma update_fbo_same_world st i w h :
  same_world st (snd (update_fbo st i w h)).
Proof.
  unfold update_fbo. cbv zeta.
  destruct (_ && _); [apply get_per_camera_state_same_world|].
  eapply same_world_trans; [apply get_per_camera_state_same_world|].
  destruct (allocate_fbo_shape (get_per_camera_state st i) i
              (camera_state_at (get_per_camera_state st i) i) w h)
    as (o & p & t & rw & rh & ctx & lg & -> & Hk & Ho & _).
  repeat split; assumption.
Qed.

Lemma request_target_same_world st a camera :
  same_world st (snd (request_target st a camera)).
Proof.
  rewrite request_target_state. cbv zeta.
  eapply same_world_trans; [apply get_per_camera_state_same_world|].
  repeat split.
Qed.

Definition has_entry st (i : nat) : Prop :=
  (i < length (camera_state (priv st)))%nat.

Lemma allocate_fbo_succeeds st i cs w h :
  texture_new_ok (cogl st) = true -> offscreen_new_ok (cogl st) = true ->
  fst (allocate_fbo st i cs w h) = true.
Proof.
  unfold allocate_fbo.
  unfold clutter_offscreen_effect_create_texture,
    clutter_offscreen_effect_real_create_texture, cogl_texture_new_with_size,
    cogl_offscreen_new_to_texture.
  destruct st as [en pr sg cx mv pj gb lg].
  destruct cs as [c v o p t xo yo rw rh m]. simpl. intros Hk Ho.
  destruct p as [p|], t as [t|], o as [o|]; simpl; rewrite Hk; simpl;
    rewrite Ho; reflexivity.
Qed.

Lemma update_fbo_succeeds st i w h :
  texture_new_ok (cogl st) = true -> offscreen_new_ok (cogl st) = true ->
  fst (update_fbo st i w h) = true.
Proof.
  intros Hk Ho. unfold update_fbo. cbv zeta.
  destruct (_ && _); [reflexivity|].
  destruct (get_per_camera_state_same_world st i)
    as (_ & _ & _ & _ & _ & _ & _ & Hk' & Ho').
  apply allocate_fbo_succeeds; congruence.
Qed.

Lemma update_fbo_grows st i w h :
  grows (log st) (log (snd (update_fbo st i w h))).
Proof.
  unfold update_fbo. cbv zeta.
  destruct (_ && _); cbn [snd];
    [rewrite get_per_camera_state_log; apply grows_refl|].
  destruct (allocate_fbo_shape (get_per_camera_state st i) i
              (camera_state_at (get_per_camera_state st i) i) w h)
    as (o & p & t & rw & rh & ctx & lg & -> & _ & _ & _ & Hg).
  rewrite get_per_camera_state_log in Hg. exact Hg.
Qed.

(** On an entry that is up to date, a successful [update_fbo] leaves an
    offscreen buffer in the entry. *)
Lemma update_fbo_entry st i w h :
  up_to_date st i -> has_entry st i ->
  fst (update_fbo st i w h) = true ->
  has_entry (snd (update_fbo st i w h)) i /\
  offscreen (camera_state_at (snd (update_fbo st i w h)) i) <> None.
Proof.
  intros Hup Hi. unfold update_fbo.
  rewrite (get_per_camera_state_up_to_date st i Hup). cbv zeta.
  destruct (bool_decide (request_width _ = w) &&
            bool_decide (request_height _ = h) &&
            bool_decide (offscreen (camera_state_at st i) <> None)) eqn:E.
  - intros _. split; [exact Hi|].
    apply andb_prop in E as [_ E]. apply bool_decide_eq_true in E. exact E.
  - destruct (allocate_fbo_shape st i (camera_state_at st i) w h)
      as (o & p & t & rw & rh & ctx & lg & -> & _ & _ & Hok & _).
    intros Hfst. destruct (Hok Hfst) as [Ho _]. split.
    + unfold has_entry in *. simpl. rewrite length_insert. exact Hi.
    + rewrite camera_state_at_store by exact Hi. exact Ho.
Qed.

(** When the entry had no offscreen buffer, the texture is new. *)
Lemma update_fbo_texture st i w h :
  up_to_date st i -> has_entry st i ->
  offscreen (camera_state_at st i) = None ->
  fst (update_fbo st i w h) = true ->
  texture (camera_state_at (snd (update_fbo st i w h)) i) <> None.
Proof.
  intros Hup Hi Hnone. unfold update_fbo.
  rewrite (get_per_camera_state_up_to_date st i Hup). cbv zeta.
  rewrite (bool_decide_eq_false_2 (offscreen (camera_state_at st i) <> None))
    by (intros Hne; apply Hne; exact Hnone).
  rewrite andb_false_r.
  destruct (allocate_fbo_shape st i (camera_state_at st i) w h)
    as (o & p & t & rw & rh & ctx & lg & -> & _ & _ & Hok & _).
  intros Hfst. destruct (Hok Hfst) as (_ & _ & Ht).
  rewrite camera_state_at_store by exact Hi. exact Ht.
Qed.

Lemma request_target_offscreen st a camera :
  offscreen (camera_state_at (snd (request_target st a camera)) (index camera)) =
  offscreen (camera_state_at (get_per_camera_state st (index camera))
               (index camera)).
Proof.
  rewrite request_target_state. cbv zeta.
  set (st0 := get_per_camera_state st (index camera)).
  unfold camera_state_at, store_camera_state. simpl.
  destruct (camera_state (priv st0) !! index camera) as [cs|] eqn:E.
  - rewrite list_lookup_insert_eq by (eapply lookup_lt_Some; exact E).
    destruct (paint_box a); reflexivity.
  - rewrite list_insert_ge by (apply lookup_ge_None; exact E). rewrite E.
    reflexivity.
Qed.

Lemma request_target_entry st a camera :
  has_entry (get_per_camera_state st (index camera)) (index camera) ->
  has_entry (snd (request_target st a camera)) (index camera).
Proof.
  rewrite request_target_state. cbv zeta. unfold has_entry. simpl.
  rewrite length_insert. auto.
Qed.

Lemma request_target_log st a camera :
  log (snd (request_target st a camera)) = log st.
Proof.
  rewrite request_target_state. cbv zeta. simpl.
  apply get_per_camera_state_log.
Qed.

(** A successful [pre_paint], in two steps: the target is there, and the
    drawing is redirected to it. *)
Lemma pre_paint_success st st1 :
  clutter_offscreen_effect_pre_paint st = (true, st1) ->
  exists a st_u,
    meta_enabled st = true /\ actor (priv st) = Some a /\
    let camera := _clutter_stage_get_current_camera (stage st) in
    up_to_date st_u (index camera) /\ same_world st st_u /\
    st1 = redirect st_u camera /\
    grows (log st) (log st_u) /\
    (has_entry (get_per_camera_state st (index camera)) (index camera) ->
     has_entry st_u (index camera) /\
     offscreen (camera_state_at st_u (index camera)) <> None /\
     (offscreen (camera_state_at (get_per_camera_state st (index camera))
                   (index camera)) = None ->
      texture (camera_state_at st_u (index camera)) <> None)).
Proof.
  unfold clutter_offscreen_effect_pre_paint.
  destruct (meta_enabled st) eqn:He; cbn [negb]; [|discriminate].
  destruct (actor (priv st)) as [a|] eqn:Ha; [|discriminate].
  set (camera := _clutter_stage_get_current_camera (stage st)).
  pose proof (request_target_up_to_date st a camera) as Hup.
  pose proof (request_target_same_world st a camera) as Hw.
  pose proof (request_target_entry st a camera) as Hent.
  pose proof (request_target_log st a camera) as Hlog.
  pose proof (request_target_offscreen st a camera) as Hoff.
  destruct (request_target st a camera) as [[fw fh] st0].
  cbn [fst snd] in Hup, Hw, Hent, Hlog, Hoff.
  pose proof (update_fbo_up_to_date st0 (index camera) (float_to_int fw)
                (float_to_int fh) Hup) as Hup'.
  pose proof (update_fbo_same_world st0 (index camera) (float_to_int fw)
                (float_to_int fh)) as Hw'.
  pose proof (update_fbo_grows st0 (index camera) (float_to_int fw)
                (float_to_int fh)) as Hg'.
  pose proof (update_fbo_entry st0 (index camera) (float_to_int fw)
                (float_to_int fh) Hup) as Hent'.
  pose proof (update_fbo_texture st0 (index camera) (float_to_int fw)
                (float_to_int fh) Hup) as Htex'.
  destruct (update_fbo st0 _ _ _) as [ok st_u].
  cbn [fst snd] in Hup', Hw', Hg', Hent', Htex'.
  destruct ok; cbn [negb]; [|discriminate].
  intros [= <-]. exists a, st_u.
  split; [reflexivity|]. split; [reflexivity|]. cbv zeta.
  split; [exact Hup'|]. split; [eapply same_world_trans; eassumption|].
  split; [reflexivity|]. split; [rewrite <- Hlog; exact Hg'|].
  intros Hi. specialize (Hent Hi).
  destruct (Hent' Hent eq_refl) as [Hi' Ho']. repeat split; try assumption.
  intros Hnone. apply Htex'; [exact Hent | congruence | reflexivity].
Qed.


(** *** Compositing leaves the world alone *)

Lemma emit_same_world e st : same_world st (emit e st).
Proof. repeat split. Qed.

Lemma paint_target_same_world st :
  same_world st (clutter_offscreen_effect_paint_target st).
Proof.
  unfold clutter_offscreen_effect_paint_target,
    clutter_offscreen_effect_real_paint_target. cbv zeta.
  eapply same_world_trans; [apply get_per_camera_state_same_world|].
  repeat split.
Qed.

Lemma paint_texture_same_world st :
  same_world st (clutter_offscreen_effect_paint_texture st).
Proof.
  unfold clutter_offscreen_effect_paint_texture. cbv zeta.
  eapply same_world_trans; [apply get_per_camera_state_same_world|].
  eapply same_world_trans; [|apply emit_same_world].
  eapply same_world_trans; [|apply emit_same_world].
  eapply same_world_trans; [|apply paint_target_same_world].
  repeat split.
Qed.

(** *** Redirection *)

Lemma redirect_up_to_date st camera :
  up_to_date st (index camera) -> up_to_date (redirect st camera) (index camera).
Proof.
  intros Hup. unfold redirect. cbv zeta.
  pose proof (store_up_to_date st (index camera)
                (camera_state_at st (index camera))
                (set_last_matrix_drawn (fb_modelview st)
                   (camera_state_at st (index camera)))
                eq_refl eq_refl eq_refl Hup) as [Hg Ha].
  unfold _clutter_actor_set_opacity_override. simpl.
  destruct (actor (priv st)); split; simpl; assumption.
Qed.

Lemma redirect_handles st camera :
  let cs := camera_state_at st (index camera) in
  let cs' := camera_state_at (redirect st camera) (index camera) in
  offscreen cs' = offscreen cs /\ pipeline cs' = pipeline cs /\
  texture cs' = texture cs.
Proof.
  unfold redirect, camera_state_at, _clutter_actor_set_opacity_override.
  cbv zeta. simpl.
  destruct (actor (priv st)); simpl;
    (destruct (camera_state (priv st) !! index camera) as [cs|] eqn:E;
     [ rewrite list_lookup_insert_eq by (eapply lookup_lt_Some; exact E)
     | rewrite list_insert_ge by (apply lookup_ge_None; exact E); rewrite E ]);
    simpl; auto.
Qed.

Lemma redirect_stage st camera : stage (redirect st camera) = stage st.
Proof.
  unfold redirect, _clutter_actor_set_opacity_override. cbv zeta. cbn.
  destruct (actor (priv st)); reflexivity.
Qed.

Lemma redirect_opacity st camera a :
  actor (priv st) = Some a ->
  actor (priv (redirect st camera)) =
    Some (mkActor 255 (paint_box a) (paint_opacity a)) /\
  old_opacity_override (priv (redirect st camera)) = opacity_override a.
Proof.
  intros Ha. unfold redirect, _clutter_actor_set_opacity_override.
  cbv zeta. simpl. rewrite Ha. simpl. auto.
Qed.

(** [post_paint] on an entry that is up to date and has its buffer and
    pipeline: the saved override is written back and the texture is
    composited. *)
Lemma post_paint_restores st a :
  let camera := _clutter_stage_get_current_camera (stage st) in
  up_to_date st (index camera) ->
  offscreen (camera_state_at st (index camera)) <> None ->
  pipeline (camera_state_at st (index camera)) <> None ->
  actor (priv st) = Some a ->
  clutter_offscreen_effect_post_paint st =
    clutter_offscreen_effect_paint_texture
      (emit cogl_pop_framebuffer
         (emit cogl_pop_matrix
            (_clutter_actor_set_opacity_override
               (old_opacity_override (priv st)) st))).
Proof.
  intros camera Hup Ho Hp Ha.
  unfold clutter_offscreen_effect_post_paint. fold camera.
  rewrite (get_per_camera_state_up_to_date st (index camera) Hup).
  rewrite (bool_decide_eq_false_2 _ Ho), (bool_decide_eq_false_2 _ Hp).
  rewrite Ha. rewrite bool_decide_eq_false_2 by discriminate.
  reflexivity.
Qed.

Lemma post_paint_actor st a :
  let camera := _clutter_stage_get_current_camera (stage st) in
  up_to_date st (index camera) ->
  offscreen (camera_state_at st (index camera)) <> None ->
  pipeline (camera_state_at st (index camera)) <> None ->
  actor (priv st) = Some a ->
  actor (priv (clutter_offscreen_effect_post_paint st)) =
    Some (mkActor (old_opacity_override (priv st)) (paint_box a) (paint_opacity a)).
Proof.
  intros camera Hup Ho Hp Ha.
  rewrite (post_paint_restores st a Hup Ho Hp Ha).
  destruct (paint_texture_same_world
              (emit cogl_pop_framebuffer
                 (emit cogl_pop_matrix
                    (_clutter_actor_set_opacity_override
                       (old_opacity_override (priv st)) st))))
    as (_ & -> & _).
  unfold _clutter_actor_set_opacity_override. rewrite Ha. reflexivity.
Qed.

(** C9. Let [pre_paint] succeed, and let the current camera's entry
    then have an offscreen buffer and a pipeline.  [pre_paint] has saved
    the actor's opacity override and set it to [0xff]; after the actor
    has painted, [post_paint] writes the saved value back, so that the
    actor is, override included, as it was before the cycle. *)
Theorem opacity_override_restored st st1 :
  let camera := _clutter_stage_get_current_camera (stage st) in
  clutter_offscreen_effect_pre_paint st = (true, st1) ->
  offscreen (camera_state_at st1 (index camera)) <> None ->
  pipeline (camera_state_at st1 (index camera)) <> None ->
  let st2 := clutter_offscreen_effect_post_paint
               (emit clutter_actor_continue_paint st1) in
  old_opacity_override (priv st1) =
    _clutter_actor_get_opacity_override (actor (priv st)) /\
  _clutter_actor_get_opacity_override (actor (priv st1)) = 255 /\
  _clutter_actor_get_opacity_override (actor (priv st2)) =
    _clutter_actor_get_opacity_override (actor (priv st)) /\
  actor (priv st2) = actor (priv st).
Proof.
  intros camera Hpre Ho Hp st2.
  destruct (pre_paint_success st st1 Hpre)
    as (a & st_u & He & Ha & Hup & Hw & Est1 & _).
  fold camera in Hup, Est1.
  assert (Hau : actor (priv st_u) = Some a).
  { destruct Hw as (_ & -> & _). exact Ha. }
  assert (Hsu : stage st_u = stage st) by apply Hw.
  destruct (redirect_opacity st_u camera a Hau) as [Hact Hold].
  pose proof (redirect_up_to_date st_u camera Hup) as Hup1.
  pose proof (redirect_stage st_u camera) as Hs1.
  rewrite <- Est1 in Hact, Hold, Hup1, Hs1. rewrite Hsu in Hs1.
  assert (Hpost : actor (priv st2) = Some a).
  { unfold st2.
    rewrite (post_paint_actor (emit clutter_actor_continue_paint st1)
               (mkActor 255 (paint_box a) (paint_opacity a))).
    - cbn [emit priv old_opacity_override paint_box paint_opacity].
      rewrite Hold. destruct a; reflexivity.
    - cbn [emit stage]. rewrite Hs1. exact Hup1.
    - cbn [emit stage]. rewrite Hs1. exact Ho.
    - cbn [emit stage]. rewrite Hs1. exact Hp.
    - exact Hact. }
  rewrite Hpost, Hact, Ha, Hold. cbn. auto.
Qed.

(** *** The expanded viewport *)

Lemma flt_true a b : flt a b = true <-> (a < b)%Q.
Proof.
  unfold flt. rewrite negb_true_iff, <- not_true_iff_false, Qle_bool_iff.
  split; [apply Qnot_le_lt | apply Qlt_not_le].
Qed.

Lemma fgt_true a b : fgt a b = true <-> (b < a)%Q.
Proof.
  unfold fgt. rewrite negb_true_iff, <- not_true_iff_false, Qle_bool_iff.
  split; [apply Qnot_le_lt | apply Qlt_not_le].
Qed.

Lemma fgt_false a b : fgt a b = false <-> (a <= b)%Q.
Proof.
  unfold fgt. rewrite negb_false_iff, Qle_bool_iff. reflexivity.
Qed.

Lemma flt_false a b : flt a b = false <-> (b <= a)%Q.
Proof.
  unfold flt. rewrite negb_false_iff, Qle_bool_iff. reflexivity.
Qed.



(** What [redirect] sends to Cogl. *)
Lemma redirect_log st camera :
  let cs := camera_state_at st (index camera) in
  let tw := cogl_texture_get_width (texture cs) (cogl st) in
  let th := cogl_texture_get_height (texture cs) (cogl st) in
  log (redirect st camera) =
    [ cogl_push_matrix; cogl_clear;
      cogl_set_projection_matrix
        (expanded_projection (stage_projection (stage st)) cs camera tw th);
      expanded_viewport cs camera tw th;
      cogl_set_modelview_matrix (fb_modelview st);
      cogl_push_framebuffer (offscreen cs) ] ++ log st.
Proof.
  unfold redirect, _clutter_actor_set_opacity_override. cbv zeta. cbn.
  destruct (actor (priv st)); reflexivity.
Qed.

Lemma redirect_cogl st camera : cogl (redirect st camera) = cogl st.
Proof.
  unfold redirect, _clutter_actor_set_opacity_override. cbv zeta. cbn.
  destruct (actor (priv st)); reflexivity.
Qed.

Lemma redirect_offsets st camera :
  let cs := camera_state_at st (index camera) in
  let cs' := camera_state_at (redirect st camera) (index camera) in
  viewport_x_offset cs' = viewport_x_offset cs /\
  viewport_y_offset cs' = viewport_y_offset cs.
Proof.
  unfold redirect, camera_state_at, _clutter_actor_set_opacity_override.
  cbv zeta. simpl.
  destruct (actor (priv st)); simpl;
    (destruct (camera_state (priv st) !! index camera) as [cs|] eqn:E;
     [ rewrite list_lookup_insert_eq by (eapply lookup_lt_Some; exact E)
     | rewrite list_insert_ge by (apply lookup_ge_None; exact E); rewrite E ]);
    simpl; auto.
Qed.


(** *** Reuse of the cached image *)

(** [same_cache st st']: the cache, the Cogl context and the world
    outside the actor are the same; the log has grown quietly. *)
Definition same_cache st st' : Prop :=
  camera_state (priv st') = camera_state (priv st) /\
  cameras_age (priv st') = cameras_age (priv st) /\
  stage st' = stage st /\
  cogl st' = cogl st /\
  meta_enabled st' = meta_enabled st /\
  fb_modelview st' = fb_modelview st /\
  slice_garbage st' = slice_garbage st /\
  (actor (priv st') = None <-> actor (priv st) = None) /\
  grows (log st) (log st').

Lemma same_cache_refl st : same_cache st st.
Proof. repeat split; auto. apply grows_refl. Qed.

Lemma same_cache_trans st1 st2 st3 :
  same_cache st1 st2 -> same_cache st2 st3 -> same_cache st1 st3.
Proof.
  intros (a1 & a2 & a3 & a4 & a5 & a6 & a7 & a8 & a9)
         (b1 & b2 & b3 & b4 & b5 & b6 & b7 & b8 & b9).
  repeat split; try congruence; try tauto.
  eapply grows_trans; eassumption.
Qed.

Lemma same_cache_emit e st : quiet e -> same_cache st (emit e st).
Proof.
  intros He. repeat split; auto. simpl. apply grows_cons; [exact He|apply grows_refl].
Qed.

Lemma same_cache_set_opacity v st :
  same_cache st (_clutter_actor_set_opacity_override v st).
Proof.
  unfold _clutter_actor_set_opacity_override.
  destruct (actor (priv st)) as [a|] eqn:Ha; [|apply same_cache_refl].
  repeat split; simpl; try congruence. apply grows_refl.
Qed.

Lemma same_cache_up_to_date st st' i :
  same_cache st st' -> up_to_date st i -> up_to_date st' i.
Proof.
  intros (Hc & Hg & Hs & _) [Hgen Hage]. split.
  - congruence.
  - intros cs. rewrite Hc. intros Hl. unfold camera_age. rewrite Hs.
    exact (Hage cs Hl).
Qed.

Lemma same_cache_entry st st' i :
  same_cache st st' -> camera_state_at st' i = camera_state_at st i.
Proof.
  intros (Hc & _ & _ & _ & _ & _ & Hg & _).
  unfold camera_state_at, null_entry. rewrite Hc, Hg. reflexivity.
Qed.

Lemma same_cache_has_entry st st' i :
  same_cache st st' -> has_entry st i -> has_entry st' i.
Proof. intros (Hc & _). unfold has_entry. rewrite Hc. auto. Qed.

(** The compositing step on an entry that is up to date. *)
Lemma paint_target_run st :
  let camera := _clutter_stage_get_current_camera (stage st) in
  let cs := camera_state_at st (index camera) in
  let opacity := clutter_actor_get_paint_opacity (actor (priv st)) in
  up_to_date st (index camera) ->
  clutter_offscreen_effect_paint_target st =
    emit (cogl_rectangle_with_texture_coords 0%Q 0%Q
            (int_to_float (cogl_texture_get_width (texture cs) (cogl st)))
            (int_to_float (cogl_texture_get_height (texture cs) (cogl st))))
      (emit (cogl_set_source (pipeline cs))
         (emit (cogl_pipeline_set_color4ub (pipeline cs)
                  opacity opacity opacity opacity) st)).
Proof.
  intros camera cs opacity Hup.
  unfold clutter_offscreen_effect_paint_target,
    clutter_offscreen_effect_real_paint_target. fold camera.
  rewrite (get_per_camera_state_up_to_date st (index camera) Hup).
  reflexivity.
Qed.

Lemma paint_texture_run st :
  let camera := _clutter_stage_get_current_camera (stage st) in
  let cs := camera_state_at st (index camera) in
  let scale_x := (stage_width (stage st) / viewport_2 camera)%Q in
  let scale_y := (stage_height (stage st) / viewport_3 camera)%Q in
  up_to_date st (index camera) ->
  clutter_offscreen_effect_paint_texture st =
    emit (cogl_set_projection_matrix (fb_projection st))
      (emit cogl_pop_matrix
         (clutter_offscreen_effect_paint_target
            (emit (cogl_set_modelview_matrix
                     (cogl_matrix_scale
                        (cogl_matrix_translate cogl_matrix_init_identity
                           (viewport_x_offset cs * scale_x)%Q
                           (viewport_y_offset cs * scale_y)%Q 0%Q)
                        scale_x scale_y 1%Q))
               (emit cogl_push_matrix
                  (emit (cogl_ortho 0%Q (stage_width (stage st))
                           (stage_height (stage st)) 0%Q (-1)%Q 100%Q) st))))).
Proof.
  intros camera cs scale_x scale_y Hup.
  unfold clutter_offscreen_effect_paint_texture. fold camera.
  rewrite (get_per_camera_state_up_to_date st (index camera) Hup).
  reflexivity.
Qed.

Lemma paint_texture_same_cache st :
  up_to_date st (index (_clutter_stage_get_current_camera (stage st))) ->
  same_cache st (clutter_offscreen_effect_paint_texture st).
Proof.
  intros Hup. rewrite (paint_texture_run st Hup).
  rewrite paint_target_run by exact Hup.
  repeat split; auto. cbn [emit log]. quiet_log.
Qed.

Lemma post_paint_same_cache st :
  up_to_date st (index (_clutter_stage_get_current_camera (stage st))) ->
  same_cache st (clutter_offscreen_effect_post_paint st).
Proof.
  intros Hup. unfold clutter_offscreen_effect_post_paint.
  rewrite (get_per_camera_state_up_to_date st _ Hup). cbv zeta.
  destruct (_ || _); [apply same_cache_refl|].
  assert (Hx : same_cache st
                 (emit cogl_pop_framebuffer
                    (emit cogl_pop_matrix
                       (_clutter_actor_set_opacity_override
                          (old_opacity_override (priv st)) st)))).
  { eapply same_cache_trans; [|apply same_cache_emit; split; reflexivity].
    eapply same_cache_trans; [|apply same_cache_emit; split; reflexivity].
    apply same_cache_set_opacity. }
  eapply same_cache_trans; [exact Hx|].
  apply paint_texture_same_cache.
  eapply same_cache_up_to_date; [exact Hx|].
  destruct Hx as (_ & _ & -> & _). exact Hup.
Qed.


(** The entry can be reused: it is up to date, it has an offscreen
    buffer, and the matrix it was drawn with is the current one. *)
Definition cached st : Prop :=
  let camera := _clutter_stage_get_current_camera (stage st) in
  let cs := camera_state_at st (index camera) in
  up_to_date st (index camera) /\ offscreen cs <> None /\
  cogl_matrix_equal (fb_modelview st) (last_matrix_drawn cs) = true.

(** The test of [clutter_offscreen_effect_paint], on the entry the
    lookup returned. *)
Lemma paint_reuse st (flags : Z) :
  let camera := _clutter_stage_get_current_camera (stage st) in
  let st0 := get_per_camera_state st (index camera) in
  let cs := camera_state_at st0 (index camera) in
  offscreen cs <> None ->
  Z.land flags CLUTTER_EFFECT_PAINT_ACTOR_DIRTY = 0 ->
  cogl_matrix_equal (fb_modelview st) (last_matrix_drawn cs) = true ->
  valid_for_age cs = camera_age st0 cs ->
  clutter_offscreen_effect_paint st flags =
    clutter_offscreen_effect_paint_texture st0.
Proof.
  intros camera st0 cs Ho Hf Hm Ha.
  unfold clutter_offscreen_effect_paint. fold camera. fold st0. fold cs.
  assert (Hmv : fb_modelview st0 = fb_modelview st)
    by apply (get_per_camera_state_same_world st (index camera)).
  rewrite Hmv, Hm, Hf, (bool_decide_eq_false_2 _ Ho).
  rewrite bool_decide_eq_false_2 by (intros Hne; apply Hne; reflexivity).
  rewrite bool_decide_eq_false_2 by (intros Hne; apply Hne; exact Ha).
  reflexivity.
Qed.

Lemma cached_valid_for_age st :
  cached st ->
  let cs := camera_state_at st (index (_clutter_stage_get_current_camera (stage st))) in
  valid_for_age cs = camera_age st cs.
Proof.
  intros ([_ Hage] & Ho & _) cs. unfold cs, camera_state_at in *.
  destruct (camera_state (priv st) !! _) as [cs0|] eqn:E.
  - simpl. symmetry. apply Hage. reflexivity.
  - simpl in Ho. contradiction.
Qed.

Lemma cached_paint st (flags : Z) :
  cached st ->
  Z.land flags CLUTTER_EFFECT_PAINT_ACTOR_DIRTY = 0 ->
  clutter_offscreen_effect_paint st flags =
    clutter_offscreen_effect_paint_texture st /\
  same_cache st (clutter_offscreen_effect_paint st flags) /\
  cached (clutter_offscreen_effect_paint st flags).
Proof.
  intros Hc Hf. pose proof Hc as (Hup & Ho & Hm).
  pose proof (cached_valid_for_age st Hc) as Hv. cbv zeta in Hv.
  assert (E : clutter_offscreen_effect_paint st flags =
              clutter_offscreen_effect_paint_texture st).
  { rewrite paint_reuse;
      rewrite ?(get_per_camera_state_up_to_date st _ Hup); auto. }
  pose proof (paint_texture_same_cache st Hup) as Hs.
  rewrite E. split; [reflexivity|]. split; [exact Hs|].
  unfold cached. cbv zeta.
  assert (Hst : stage (clutter_offscreen_effect_paint_texture st) = stage st)
    by apply Hs.
  rewrite Hst, (same_cache_entry _ _ _ Hs).
  split; [eapply same_cache_up_to_date; eassumption|].
  split; [exact Ho|].
  destruct Hs as (_ & _ & _ & _ & _ & -> & _). exact Hm.
Qed.

Lemma cached_paint_frames st (flags : Z) (n : nat) :
  cached st ->
  Z.land flags CLUTTER_EFFECT_PAINT_ACTOR_DIRTY = 0 ->
  same_cache st (paint_frames n flags st) /\ cached (paint_frames n flags st).
Proof.
  intros Hc Hf. induction n as [|n [IHs IHc]]; simpl.
  - split; [apply same_cache_refl | exact Hc].
  - destruct (cached_paint _ flags IHc Hf) as (_ & Hs & Hc').
    split; [eapply same_cache_trans; eassumption | exact Hc'].
Qed.

(** *** The first frame *)

Lemma store_valid_for_age_id st i :
  up_to_date st i ->
  store_camera_state i
    (set_valid_for_age (camera_age st (camera_state_at st i))
       (camera_state_at st i)) st = st.
Proof.
  intros [_ Hage]. unfold store_camera_state, camera_state_at.
  destruct st as [en pr sg cx mv pj gb lg].
  destruct pr as [ac arr n ca oo]. simpl in *.
  destruct (arr !! i) as [cs|] eqn:E; simpl.
  - rewrite (Hage cs eq_refl).
    replace (set_valid_for_age (valid_for_age cs) cs) with cs
      by (destruct cs; reflexivity).
    rewrite list_insert_id by exact E. reflexivity.
  - rewrite list_insert_ge by (apply lookup_ge_None; exact E). reflexivity.
Qed.

Lemma redirect_entry st camera :
  has_entry st (index camera) ->
  camera_state_at (redirect st camera) (index camera) =
    set_last_matrix_drawn (fb_modelview st) (camera_state_at st (index camera)) /\
  has_entry (redirect st camera) (index camera).
Proof.
  intros Hi. unfold redirect, _clutter_actor_set_opacity_override, has_entry,
    camera_state_at in *. cbv zeta. simpl.
  destruct (actor (priv st)); simpl;
    rewrite list_lookup_insert_eq by exact Hi; rewrite length_insert; auto.
Qed.

Lemma redirect_frame st camera :
  meta_enabled (redirect st camera) = meta_enabled st /\
  fb_modelview (redirect st camera) = fb_modelview st /\
  texture_new_ok (cogl (redirect st camera)) = texture_new_ok (cogl st) /\
  offscreen_new_ok (cogl (redirect st camera)) = offscreen_new_ok (cogl st) /\
  (actor (priv (redirect st camera)) = None <-> actor (priv st) = None).
Proof.
  unfold redirect, _clutter_actor_set_opacity_override. cbv zeta. cbn.
  destruct (actor (priv st)) eqn:E; cbn; repeat split; auto;
    intros; discriminate.
Qed.

Lemma pre_paint_succeeds st :
  meta_enabled st = true -> actor (priv st) <> None ->
  texture_new_ok (cogl st) = true -> offscreen_new_ok (cogl st) = true ->
  fst (clutter_offscreen_effect_pre_paint st) = true.
Proof.
  intros He Ha Hk Ho. unfold clutter_offscreen_effect_pre_paint.
  rewrite He. cbn [negb].
  destruct (actor (priv st)) as [a|]; [|contradiction].
  pose proof (request_target_same_world st a
                (_clutter_stage_get_current_camera (stage st)))
    as (_ & _ & _ & _ & _ & _ & _ & Hk' & Ho').
  destruct (request_target st a _) as [[fw fh] st0]. cbn [snd] in Hk', Ho'.
  pose proof (update_fbo_succeeds st0
                (index (_clutter_stage_get_current_camera (stage st)))
                (float_to_int fw) (float_to_int fh)) as Hu.
  destruct (update_fbo st0 _ _ _) as [ok st_u]. cbn [fst] in Hu.
  rewrite Hu by congruence. reflexivity.
Qed.

(** What holds of the world for a paint cycle to succeed. *)
Definition paintable st : Prop :=
  meta_enabled st = true /\ actor (priv st) <> None /\
  texture_new_ok (cogl st) = true /\ offscreen_new_ok (cogl st) = true /\
  cogl_matrix_equal (fb_modelview st) (fb_modelview st) = true.

(** A full paint cycle on an entry that is up to date: the actor paints
    once, into the offscreen buffer, and the image can then be reused. *)
Lemma real_paint_cached st (flags : Z) :
  let camera := _clutter_stage_get_current_camera (stage st) in
  let st' := clutter_effect_real_paint st flags in
  up_to_date st (index camera) -> has_entry st (index camera) ->
  paintable st ->
  cached st' /\ stage st' = stage st /\
  count_events is_actor_paint (log st') =
    S (count_events is_actor_paint (log st)) /\
  count_events is_redirection (log st') =
    S (count_events is_redirection (log st)) /\
  (offscreen (camera_state_at st (index camera)) = None ->
   texture (camera_state_at st' (index camera)) <> None).
Proof.
  intros camera st' Hup Hi (He & Ha & Hk & Ho & Hm).
  unfold st', clutter_effect_real_paint.
  pose proof (pre_paint_succeeds st He Ha Hk Ho) as Hok.
  destruct (clutter_offscreen_effect_pre_paint st) as [ok st1] eqn:Hpre.
  cbn [fst] in Hok. subst ok.
  destruct (pre_paint_success st st1 Hpre)
    as (a & st_u & _ & _ & Hup_u & Hw & Est1 & Hgrow & Hent).
  fold camera in Hup_u, Est1, Hent.
  rewrite (get_per_camera_state_up_to_date st (index camera) Hup) in Hent.
  destruct (Hent Hi) as (Hi_u & Ho_u & Ht_u).
  destruct (redirect_entry st_u camera Hi_u) as [Hentry Hi1].
  pose proof (redirect_up_to_date st_u camera Hup_u) as Hup1.
  pose proof (redirect_stage st_u camera) as Hs1.
  pose proof (redirect_log st_u camera) as Hlog1.
  destruct (redirect_frame st_u camera) as (_ & Hmv1 & _).
  rewrite <- Est1 in Hentry, Hi1, Hup1, Hs1, Hlog1, Hmv1.
  assert (Hsu : stage st_u = stage st) by apply Hw.
  assert (Hmu : fb_modelview st_u = fb_modelview st) by apply Hw.
  rewrite Hsu in Hs1.
  set (st2 := emit clutter_actor_continue_paint st1).
  assert (Hup2 : up_to_date st2
                   (index (_clutter_stage_get_current_camera (stage st2)))).
  { unfold st2. cbn [emit stage]. rewrite Hs1. exact Hup1. }
  pose proof (post_paint_same_cache st2 Hup2) as Hs.
  assert (Hst' : stage (clutter_offscreen_effect_post_paint st2) = stage st).
  { destruct Hs as (_ & _ & -> & _). exact Hs1. }
  assert (Hent' : camera_state_at (clutter_offscreen_effect_post_paint st2)
                    (index camera) =
                  set_last_matrix_drawn (fb_modelview st_u)
                    (camera_state_at st_u (index camera))).
  { rewrite (same_cache_entry _ _ _ Hs). exact Hentry. }
  split; [|split; [exact Hst'|split; [|split]]].
  - unfold cached. cbv zeta. rewrite Hst'. fold camera. rewrite Hent'.
    split; [|split].
    + eapply same_cache_up_to_date; [exact Hs|].
      unfold st2. exact Hup1.
    + exact Ho_u.
    + destruct Hs as (_ & _ & _ & _ & _ & -> & _). unfold st2.
      cbn [emit fb_modelview last_matrix_drawn set_last_matrix_drawn].
      rewrite Hmv1, Hmu. exact Hm.
  - destruct Hs as (_ & _ & _ & _ & _ & _ & _ & _ & Hg).
    rewrite (grows_actor_paints _ _ Hg). unfold st2. cbn [emit log].
    rewrite Hlog1. cbn. rewrite (grows_actor_paints _ _ Hgrow). reflexivity.
  - destruct Hs as (_ & _ & _ & _ & _ & _ & _ & _ & Hg).
    rewrite (grows_redirections _ _ Hg). unfold st2. cbn [emit log].
    rewrite Hlog1. cbn. rewrite (grows_redirections _ _ Hgrow). reflexivity.
  - intros Hnone. rewrite Hent'. cbn. apply Ht_u. exact Hnone.
Qed.

Lemma paintable_same_world st st' :
  same_world st st' -> paintable st -> paintable st'.
Proof.
  intros (a1 & a2 & a3 & a4 & a5 & a6 & a7 & a8 & a9) (He & Ha & Hk & Ho & Hm).
  unfold paintable. rewrite a1, a2, a5, a8, a9. auto.
Qed.

(** Without a cached image [paint] runs a full cycle. *)
Lemma paint_repaints st (flags : Z) :
  let camera := _clutter_stage_get_current_camera (stage st) in
  let st0 := get_per_camera_state st (index camera) in
  offscreen (camera_state_at st0 (index camera)) = None ->
  paintable st -> has_entry st0 (index camera) ->
  clutter_offscreen_effect_paint st flags = clutter_effect_real_paint st0 flags.
Proof.
  intros camera st0 Hnone Hp Hi.
  assert (Hs0 : stage st0 = stage st)
    by apply (get_per_camera_state_same_world st (index camera)).
  assert (Hup0 : up_to_date st0
                   (index (_clutter_stage_get_current_camera (stage st0)))).
  { rewrite Hs0. apply get_per_camera_state_is_up_to_date. }
  assert (Hi0 : has_entry st0
                  (index (_clutter_stage_get_current_camera (stage st0)))).
  { rewrite Hs0. exact Hi. }
  pose proof (paintable_same_world st st0
                (get_per_camera_state_same_world st (index camera)) Hp) as Hp0.
  destruct (real_paint_cached st0 flags Hup0 Hi0 Hp0) as ((Hup' & _) & Hst' & _).
  rewrite Hst', Hs0 in Hup'. fold camera in Hup'.
  unfold clutter_offscreen_effect_paint. fold camera. fold st0.
  rewrite (bool_decide_eq_true_2 _ Hnone). cbn [orb].
  apply store_valid_for_age_id. exact Hup'.
Qed.

(** What the compositing step sends to Cogl. *)
Lemma paint_texture_log st :
  let camera := _clutter_stage_get_current_camera (stage st) in
  let cs := camera_state_at st (index camera) in
  let scale_x := (stage_width (stage st) / viewport_2 camera)%Q in
  let scale_y := (stage_height (stage st) / viewport_3 camera)%Q in
  let opacity := clutter_actor_get_paint_opacity (actor (priv st)) in
  up_to_date st (index camera) ->
  priv (clutter_offscreen_effect_paint_texture st) = priv st /\
  cogl (clutter_offscreen_effect_paint_texture st) = cogl st /\
  log (clutter_offscreen_effect_paint_texture st) =
    [ cogl_set_projection_matrix (fb_projection st);
      cogl_pop_matrix;
      cogl_rectangle_with_texture_coords 0%Q 0%Q
        (int_to_float (cogl_texture_get_width (texture cs) (cogl st)))
        (int_to_float (cogl_texture_get_height (texture cs) (cogl st)));
      cogl_set_source (pipeline cs);
      cogl_pipeline_set_color4ub (pipeline cs) opacity opacity opacity opacity;
      cogl_set_modelview_matrix
        (cogl_matrix_scale
           (cogl_matrix_translate cogl_matrix_init_identity
              (viewport_x_offset cs * scale_x)%Q
              (viewport_y_offset cs * scale_y)%Q 0%Q)
           scale_x scale_y 1%Q);
      cogl_push_matrix;
      cogl_ortho 0%Q (stage_width (stage st)) (stage_height (stage st))
        0%Q (-1)%Q 100%Q ] ++ log st.
Proof.
  intros camera cs scale_x scale_y opacity Hup.
  rewrite (paint_texture_run st Hup).
  rewrite paint_target_run by exact Hup.
  repeat split.
Qed.

(** C1.  Let the dirty flag be unset.  (1) If the entry [paint] looks up
    for the current camera has an offscreen buffer, was drawn with the
    current model-view matrix and is as old as its camera, then [paint]
    is the compositing step alone: neither [pre_paint] nor the actor's
    paint nor [post_paint] runs, the log only gains the eight calls that
    draw the cached texture, and the cache and the Cogl objects are those
    the lookup returned.  (2) In a world in which a paint cycle can
    succeed, starting with no cached image, any number [S n] of
    consecutive calls of [paint] paints the actor exactly once, redirects
    the drawing exactly once, and leaves in the entry the texture the
    first call left there. *)
Theorem cache_reuse st (flags : Z) :
  let camera := _clutter_stage_get_current_camera (stage st) in
  let st0 := get_per_camera_state st (index camera) in
  let cs := camera_state_at st0 (index camera) in
  let scale_x := (stage_width (stage st) / viewport_2 camera)%Q in
  let scale_y := (stage_height (stage st) / viewport_3 camera)%Q in
  let opacity := clutter_actor_get_paint_opacity (actor (priv st)) in
  Z.land flags CLUTTER_EFFECT_PAINT_ACTOR_DIRTY = 0 ->
  (offscreen cs <> None ->
   cogl_matrix_equal (fb_modelview st) (last_matrix_drawn cs) = true ->
   valid_for_age cs = camera_age st0 cs ->
   let st' := clutter_offscreen_effect_paint st flags in
   st' = clutter_offscreen_effect_paint_texture st0 /\
   priv st' = priv st0 /\ cogl st' = cogl st0 /\
   log st' =
     [ cogl_set_projection_matrix (fb_projection st);
       cogl_pop_matrix;
       cogl_rectangle_with_texture_coords 0%Q 0%Q
         (int_to_float (cogl_texture_get_width (texture cs) (cogl st0)))
         (int_to_float (cogl_texture_get_height (texture cs) (cogl st0)));
       cogl_set_source (pipeline cs);
       cogl_pipeline_set_color4ub (pipeline cs) opacity opacity opacity opacity;
       cogl_set_modelview_matrix
         (cogl_matrix_scale
            (cogl_matrix_translate cogl_matrix_init_identity
               (viewport_x_offset cs * scale_x)%Q
               (viewport_y_offset cs * scale_y)%Q 0%Q)
            scale_x scale_y 1%Q);
       cogl_push_matrix;
       cogl_ortho 0%Q (stage_width (stage st)) (stage_height (stage st))
         0%Q (-1)%Q 100%Q ] ++ log st) /\
  (paintable st -> has_entry st0 (index camera) -> offscreen cs = None ->
   forall n : nat,
     let stn := paint_frames (S n) flags st in
     count_events is_actor_paint (log stn) =
       S (count_events is_actor_paint (log st)) /\
     count_events is_redirection (log stn) =
       S (count_events is_redirection (log st)) /\
     texture (camera_state_at stn (index camera)) =
       texture (camera_state_at (paint_frames 1 flags st) (index camera)) /\
     texture (camera_state_at stn (index camera)) <> None).
Proof.
  intros camera st0 cs scale_x scale_y opacity Hf.
  pose proof (get_per_camera_state_same_world st (index camera))
    as (_ & Hact0 & _ & Hs0 & _ & Hpj0 & _).
  fold st0 in Hact0, Hs0, Hpj0.
  assert (Hup0 : up_to_date st0
                   (index (_clutter_stage_get_current_camera (stage st0)))).
  { rewrite Hs0. apply get_per_camera_state_is_up_to_date. }
  split.
  - intros Ho Hm Ha st'.
    assert (E : st' = clutter_offscreen_effect_paint_texture st0).
    { unfold st'. apply paint_reuse; assumption. }
    destruct (paint_texture_log st0 Hup0) as (Hpriv & Hcogl & Hlog).
    rewrite Hs0, Hact0, Hpj0 in Hlog. fold camera in Hlog. fold cs in Hlog.
    unfold st0 at 4 in Hlog. rewrite get_per_camera_state_log in Hlog.
    rewrite E. repeat split; assumption.
  - intros Hp Hi Hnone n stn.
    assert (Hp0 : paintable st0).
    { eapply paintable_same_world; [|exact Hp].
      apply get_per_camera_state_same_world. }
    assert (Hi0 : has_entry st0
                    (index (_clutter_stage_get_current_camera (stage st0)))).
    { rewrite Hs0. exact Hi. }
    destruct (real_paint_cached st0 flags Hup0 Hi0 Hp0)
      as (Hc1 & Hst1 & Hn1 & Hr1 & Ht1).
    rewrite Hs0 in Ht1. fold camera in Ht1. specialize (Ht1 Hnone).
    assert (Er : clutter_offscreen_effect_paint st flags =
                 clutter_effect_real_paint st0 flags)
      by (apply paint_repaints; assumption).
    rewrite <- Er in Hc1, Hst1, Hn1, Hr1, Ht1.
    unfold st0 in Hn1, Hr1. rewrite get_per_camera_state_log in Hn1, Hr1.
    set (st1 := clutter_offscreen_effect_paint st flags) in *.
    assert (Hn : stn = paint_frames n flags st1).
    { unfold stn, paint_frames. rewrite Nat.iter_succ_r. reflexivity. }
    destruct (cached_paint_frames st1 flags n Hc1 Hf) as [Hs _].
    rewrite <- Hn in Hs.
    pose proof (same_cache_entry st1 stn (index camera) Hs) as He.
    destruct Hs as (_ & _ & _ & _ & _ & _ & _ & _ & Hg).
    rewrite (grows_actor_paints _ _ Hg), (grows_redirections _ _ Hg), He.
    change (paint_frames 1 flags st) with st1.
    repeat split; assumption.
Qed.

End WithMatrix.

(** *** The properties on the concrete world *)

Import Scenario.



(** C5, on an example.  The effect has painted once on a stage with one
    camera, so the camera's entry owns a pipeline (handle 1), a texture
    (handle 2) and an offscreen buffer (handle 3), with one reference
    each.  A camera is added and the stage's generation changes.  The next
    lookup rebuilds the array: pipeline and offscreen buffer are released,
    but the texture keeps its reference although no entry points to it any
    more.  The finalizer, run instead of the lookup, releases all three. *)
Lemma rebuild_leaks_texture :
  let st := set_stage stage1 painted in
  let st' := get_per_camera_state st 0 in
  camera_state (priv st) =
    [mkPerCameraState 0 0 (Some 3%positive) (Some 1%positive) (Some 2%positive)
       50%Q 50%Q 100 100 identity] /\
  (refs (cogl st) 1%positive = 1 /\ refs (cogl st) 2%positive = 1 /\ refs (cogl st) 3%positive = 1) /\
  (refs (cogl st') 1%positive = 0 /\ refs (cogl st') 2%positive = 1 /\ refs (cogl st') 3%positive = 0) /\
  Forall (fun cs => texture cs = None) (camera_state (priv st')) /\
  length (camera_state (priv st')) = 2%nat /\
  (let stf := clutter_offscreen_effect_finalize st in
   refs (cogl stf) 1%positive = 0 /\ refs (cogl stf) 2%positive = 0 /\ refs (cogl stf) 3%positive = 0).
Proof.
  vm_compute. repeat split; repeat constructor.
Qed.

Lemma update_fbo_same_request_noop_witness :
  update_fbo painted 0 100 100 = (true, painted).
Proof.
  assert (H1 : offscreen (camera_state_at (get_per_camera_state painted 0) 0) <> None)
    by (vm_compute; discriminate).
  destruct (update_fbo_same_request_noop painted 0 100 100 H1 eq_refl eq_refl)
    as (_ & _ & _ & Hsame).
  apply Hsame. split.
  - reflexivity.
  - intros cs Hcs. vm_compute in Hcs. injection Hcs as <-. reflexivity.
Defined.


Lemma opacity_override_restored_witness :
  let st := state0 empty_context actor_half in
  let st1 := snd (clutter_offscreen_effect_pre_paint st) in
  let st2 := clutter_offscreen_effect_post_paint
               (emit clutter_actor_continue_paint st1) in
  old_opacity_override (priv st1) = 128 /\
  _clutter_actor_get_opacity_override (actor (priv st1)) = 255 /\
  _clutter_actor_get_opacity_override (actor (priv st2)) = 128 /\
  actor (priv st2) = Some actor_half.
Proof.
  assert (H1 : clutter_offscreen_effect_pre_paint (state0 empty_context actor_half) =
               (true, snd (clutter_offscreen_effect_pre_paint
                             (state0 empty_context actor_half))))
    by (vm_compute; reflexivity).
  pose proof (opacity_override_restored _ _ H1) as W.
  assert (H2 : offscreen
                 (camera_state_at
                    (snd (clutter_offscreen_effect_pre_paint
                            (state0 empty_context actor_half))) 0) <> None)
    by (vm_compute; discriminate).
  assert (H3 : pipeline
                 (camera_state_at
                    (snd (clutter_offscreen_effect_pre_paint
                            (state0 empty_context actor_half))) 0) <> None)
    by (vm_compute; discriminate).
  specialize (W H2 H3). vm_compute in W. vm_compute. exact W.
Defined.


Lemma cache_reuse_witness :
  let st := state0 empty_context actor0 in
  (let st3 := paint_frames 3 0 st in
   count_events is_actor_paint (log st3) = 1%nat /\
   count_events is_redirection (log st3) = 1%nat /\
   texture (camera_state_at st3 0) = texture (camera_state_at (paint_frames 1 0 st) 0) /\
   texture (camera_state_at st3 0) <> None) /\
  (let st1 := paint_frames 1 0 st in
   clutter_offscreen_effect_paint st1 0 =
     clutter_offscreen_effect_paint_texture (get_per_camera_state st1 0)).
Proof.
  intros st. split.
  - assert (H1 : paintable st) by (vm_compute; repeat split; discriminate).
    assert (H2 : has_entry (get_per_camera_state st 0) 0) by (vm_compute; lia).
    assert (H3 : offscreen (camera_state_at (get_per_camera_state st 0) 0) = None)
      by (vm_compute; reflexivity).
    pose proof (proj2 (cache_reuse st 0 eq_refl) H1 H2 H3 2%nat) as W.
    vm_compute in W. vm_compute. exact W.
  - assert (H1 : offscreen
                   (camera_state_at
                      (get_per_camera_state (paint_frames 1 0 st) 0) 0) <> None)
      by (vm_compute; discriminate).
    assert (H2 : cogl_matrix_equal (fb_modelview (paint_frames 1 0 st))
                   (last_matrix_drawn
                      (camera_state_at
                         (get_per_camera_state (paint_frames 1 0 st) 0) 0)) = true)
      by (vm_compute; reflexivity).
    assert (H3 : valid_for_age
                   (camera_state_at
                      (get_per_camera_state (paint_frames 1 0 st) 0) 0) =
                 camera_age (get_per_camera_state (paint_frames 1 0 st) 0)
                   (camera_state_at
                      (get_per_camera_state (paint_frames 1 0 st) 0) 0))
      by (vm_compute; reflexivity).
    pose proof (proj1 (proj1 (cache_reuse (paint_frames 1 0 st) 0 eq_refl) H1 H2 H3))
      as W.
    vm_compute in W. vm_compute. exact W.
Defined.

End OffscreenFacts.

(** ** The per-camera cache: lifetime of the handles, lookups and
    accessors *)

Module CacheFacts.
Import Cogl Offscreen OffscreenFacts.

(** *** Reference counts *)

Lemma refs_unref (h h' : CoglHandle) (ctx : CoglContext) :
  refs (cogl_object_unref h ctx) h' =
    refs ctx h' - (if decide (h' = h) then 1 else 0).
Proof.
  unfold refs, cogl_object_unref. simpl. destruct (decide (h' = h)) as [->|Hne].
  - rewrite lookup_insert_eq. reflexivity.
  - rewrite lookup_insert_ne by congruence. lia.
Qed.

(** Releasing the handles of a list, one after the other. *)
Definition release (l : list CoglHandle) (ctx : CoglContext) : CoglContext :=
  foldl (fun ctx h => cogl_object_unref h ctx) ctx l.

Lemma release_app (l1 l2 : list CoglHandle) (ctx : CoglContext) :
  release (l1 ++ l2) ctx = release l2 (release l1 ctx).
Proof. unfold release. apply foldl_app. Qed.

Lemma refs_release (l : list CoglHandle) (ctx : CoglContext) (h : CoglHandle) :
  refs (release l ctx) h = refs ctx h - Z.of_nat (count_occ Pos.eq_dec l h).
Proof.
  revert ctx. induction l as [|x l IH]; intros ctx.
  - simpl. lia.
  - change (release (x :: l) ctx) with (release l (cogl_object_unref x ctx)).
    rewrite IH, refs_unref. simpl count_occ.
    destruct (decide (h = x)) as [->|Hne].
    + destruct (Pos.eq_dec x x); [|congruence]. lia.
    + destruct (Pos.eq_dec x h); [congruence|]. lia.
Qed.

Lemma refs_new_object (c : CoglContext) (h : CoglHandle) :
  refs (snd (new_object c)) h =
    if decide (h = next_handle c) then 1 else refs c h.
Proof.
  unfold refs, new_object. cbn [snd refcount].
  destruct (decide (h = next_handle c)) as [->|Hne].
  - rewrite lookup_insert_eq. reflexivity.
  - rewrite lookup_insert_ne by congruence. reflexivity.
Qed.

Lemma next_new_object (c : CoglContext) :
  next_handle (snd (new_object c)) = Pos.succ (next_handle c).
Proof. reflexivity. Qed.

Lemma next_unref (x : CoglHandle) (c : CoglContext) :
  next_handle (cogl_object_unref x c) = next_handle c.
Proof. reflexivity. Qed.

Lemma next_release (l : list CoglHandle) (c : CoglContext) :
  next_handle (release l c) = next_handle c.
Proof.
  revert c. induction l as [|x l IH]; intros c; [reflexivity|].
  change (release (x :: l) c) with (release l (cogl_object_unref x c)).
  rewrite IH. reflexivity.
Qed.

Lemma release_same_objects (l : list CoglHandle) (ctx : CoglContext) :
  same_objects ctx (release l ctx).
Proof.
  revert ctx. induction l as [|x l IH]; intros ctx.
  - apply same_objects_refl.
  - eapply same_objects_trans; [apply (same_objects_unref x)|apply IH].
Qed.

Section WithMatrix.

Context {CoglMatrix : Type} `{CoglMatrixAPI CoglMatrix}.

Local Abbreviation State := (@State CoglMatrix).
Local Abbreviation PerCameraState := (@PerCameraState CoglMatrix).
Local Abbreviation Event := (@Event CoglMatrix).

Implicit Types (st : State) (cs : PerCameraState) (ctx : CoglContext)
  (l : list PerCameraState) (e : Event).

#[local] Arguments get_per_camera_state : simpl never.
#[local] Arguments update_fbo : simpl never.
#[local] Arguments allocate_fbo : simpl never.

(** The handles an entry holds, in the order in which the finalizer
    releases them. *)
Definition held cs : list CoglHandle :=
  option_list (offscreen cs) ++ option_list (pipeline cs) ++
  option_list (texture cs).

Lemma finalize_entry_release ctx cs :
  finalize_entry ctx cs = release (held cs) ctx.
Proof.
  unfold finalize_entry, held.
  destruct (offscreen cs), (pipeline cs), (texture cs); reflexivity.
Qed.

Lemma finalize_entries_release l ctx :
  foldl finalize_entry ctx l = release (concat (map held l)) ctx.
Proof.
  revert ctx. induction l as [|cs l IH]; intros ctx; [reflexivity|].
  simpl. rewrite release_app, IH, finalize_entry_release. reflexivity.
Qed.

(** X1.  The finalizer releases every handle of every entry once, frees the
    array, and can be run again without effect. *)
Theorem finalize_releases_every_handle st (h : CoglHandle) :
  let st' := clutter_offscreen_effect_finalize st in
  let owned :=
    concat (map held (take (n_cameras (priv st)) (camera_state (priv st)))) in
  refs (cogl st') h = refs (cogl st) h - Z.of_nat (count_occ Pos.eq_dec owned h) /\
  camera_state (priv st') = [] /\
  n_cameras (priv st') = 0%nat /\
  same_objects (cogl st) (cogl st') /\
  clutter_offscreen_effect_finalize st' = st'.
Proof.
  cbv zeta. unfold clutter_offscreen_effect_finalize. simpl.
  rewrite finalize_entries_release.
  split; [apply refs_release|]. split; [reflexivity|]. split; [reflexivity|].
  split; [apply release_same_objects|]. reflexivity.
Qed.

(** *** Lookups *)

Lemma rebuild_entries st (j : nat) cs :
  camera_state (priv (rebuild_camera_states st)) !! j = Some cs ->
  cs = fresh_entry st j /\ (j < length (cameras (stage st)))%nat.
Proof.
  unfold rebuild_camera_states, _clutter_stage_get_n_cameras. simpl.
  rewrite list_lookup_fmap. intros Hl.
  destruct (seq 0 (length (cameras (stage st))) !! j) as [k|] eqn:E;
    [|discriminate].
  apply lookup_seq in E as [-> Hj]. simpl in Hl. injection Hl as <-.
  split; [reflexivity | exact Hj].
Qed.

Lemma rebuild_length st :
  length (camera_state (priv (rebuild_camera_states st))) =
    length (cameras (stage st)).
Proof.
  unfold rebuild_camera_states, _clutter_stage_get_n_cameras. simpl.
  rewrite length_map, length_seq. reflexivity.
Qed.

(** The second half of a lookup touches entry [i] only, and of it the
    age, the pipeline and the offscreen buffer. *)
Lemma check_camera_age_entries st (i j : nat) cs' :
  camera_state (priv (check_camera_age st i)) !! j = Some cs' ->
  exists cs,
    camera_state (priv st) !! j = Some cs /\
    (j <> i -> cs' = cs) /\
    camera cs' = camera cs /\ texture cs' = texture cs /\
    (offscreen cs' = offscreen cs \/ offscreen cs' = None) /\
    (pipeline cs' = pipeline cs \/ pipeline cs' = None) /\
    viewport_x_offset cs' = viewport_x_offset cs /\
    viewport_y_offset cs' = viewport_y_offset cs /\
    request_width cs' = request_width cs /\
    request_height cs' = request_height cs /\
    last_matrix_drawn cs' = last_matrix_drawn cs.
Proof.
  unfold check_camera_age.
  destruct (camera_state (priv st) !! i) as [ci|] eqn:Ei.
  - case_bool_decide as Hage.
    + pose proof (invalidate_entry ci (cogl st)) as Hinv.
      destruct (invalidate_per_camera_state ci (cogl st)) as [c2 ctx2].
      simpl in Hinv. subst c2. simpl.
      destruct (decide (j = i)) as [->|Hne].
      * rewrite list_lookup_insert_eq by (eapply lookup_lt_Some; exact Ei).
        intros [= <-]. exists ci. split; [exact Ei|].
        split; [congruence|]. simpl. repeat split; auto.
      * rewrite list_lookup_insert_ne by congruence. intros Hl.
        exists cs'. split; [exact Hl|]. repeat split; auto.
    + intros Hl. exists cs'. split; [exact Hl|]. repeat split; auto.
  - intros Hl. exists cs'. split; [exact Hl|]. repeat split; auto.
Qed.

Lemma check_camera_age_length st (i : nat) :
  length (camera_state (priv (check_camera_age st i))) =
    length (camera_state (priv st)) /\
  n_cameras (priv (check_camera_age st i)) = n_cameras (priv st).
Proof.
  unfold check_camera_age.
  destruct (camera_state (priv st) !! i) as [ci|]; [|split; reflexivity].
  case_bool_decide; [|split; reflexivity].
  destruct (invalidate_per_camera_state ci (cogl st)) as [c2 ctx2]. simpl.
  rewrite length_insert. split; reflexivity.
Qed.

Lemma rebuilt_lookup st (i : nat) :
  stage_cameras_age (stage st) <> cameras_age (priv st) ->
  let st' := get_per_camera_state st i in
  cameras_age (priv st') = stage_cameras_age (stage st) /\
  n_cameras (priv st') = length (cameras (stage st)) /\
  length (camera_state (priv st')) = length (cameras (stage st)) /\
  (forall (j : nat) cs,
     camera_state (priv st') !! j = Some cs ->
     camera cs = j /\ offscreen cs = None /\ pipeline cs = None /\
     texture cs = None) /\
  (forall cs, camera_state (priv st') !! i = Some cs ->
     valid_for_age cs = age (_clutter_stage_get_camera (stage st) i)) /\
  log st' = log st.
Proof.
  intros Hne st'. unfold st', get_per_camera_state, check_cameras_age.
  rewrite bool_decide_eq_true_2 by exact Hne.
  split; [rewrite check_camera_age_generation; reflexivity|].
  destruct (check_camera_age_length (rebuild_camera_states st) i) as [Hlen Hn].
  split; [rewrite Hn; reflexivity|].
  split; [rewrite Hlen; apply rebuild_length|].
  split; [|split].
  - intros j cs' Hl.
    destruct (check_camera_age_entries _ _ _ _ Hl)
      as (cs & Hcs & _ & Hc & Ht & Ho & Hp & _).
    apply rebuild_entries in Hcs as [-> _]. simpl in *.
    split; [exact Hc|]. split; [destruct Ho; assumption|].
    split; [destruct Hp; assumption|]. exact Ht.
  - intros cs Hl.
    pose proof (get_per_camera_state_is_up_to_date st i) as [_ Hup].
    unfold get_per_camera_state, check_cameras_age in Hup.
    rewrite bool_decide_eq_true_2 in Hup by exact Hne.
    specialize (Hup cs Hl). rewrite <- Hup.
    destruct (check_camera_age_entries _ _ _ _ Hl)
      as (cs0 & Hcs & _ & Hc & _).
    apply rebuild_entries in Hcs as [-> _]. simpl in Hc.
    unfold camera_age. rewrite Hc.
    destruct (check_camera_age_same_world (rebuild_camera_states st) i)
      as (_ & _ & _ & -> & _).
    reflexivity.
  - pose proof (get_per_camera_state_log st i) as Hlog.
    unfold get_per_camera_state, check_cameras_age in Hlog.
    rewrite bool_decide_eq_true_2 in Hlog by exact Hne. exact Hlog.
Qed.

(** X2.  A lookup after the stage's set of cameras has changed: the array is
    rebuilt with one entry per camera of the stage, entry [j] for camera
    [j], and no entry holds a handle. *)
Theorem lookup_rebuilds_for_new_cameras st (i : nat) :
  stage_cameras_age (stage st) <> cameras_age (priv st) ->
  let st' := get_per_camera_state st i in
  cameras_age (priv st') = stage_cameras_age (stage st) /\
  n_cameras (priv st') = length (cameras (stage st)) /\
  length (camera_state (priv st')) = length (cameras (stage st)) /\
  (forall (j : nat) cs,
     camera_state (priv st') !! j = Some cs ->
     camera cs = j /\ offscreen cs = None /\ pipeline cs = None /\
     texture cs = None) /\
  (forall cs, camera_state (priv st') !! i = Some cs ->
     valid_for_age cs = age (_clutter_stage_get_camera (stage st) i)) /\
  log st' = log st.
Proof. apply rebuilt_lookup. Qed.

(** X3.  A lookup brings the entry up to date without logging anything or
    touching the world outside the cache, and a second lookup changes
    nothing. *)
Theorem lookup_idempotent st (i : nat) :
  let st' := get_per_camera_state st i in
  up_to_date st' i /\
  get_per_camera_state st' i = st' /\
  log st' = log st /\
  same_world st st' /\
  same_objects (cogl st) (cogl st').
Proof.
  cbv zeta.
  split; [apply get_per_camera_state_is_up_to_date|].
  split; [apply get_per_camera_state_idempotent|].
  split; [apply get_per_camera_state_log|].
  split; [apply get_per_camera_state_same_world|].
  unfold get_per_camera_state.
  apply (same_objects_trans _ (cogl (check_cameras_age st))).
  - unfold check_cameras_age. case_bool_decide; [|apply same_objects_refl].
    unfold rebuild_camera_states. simpl. apply invalidate_all_same_objects.
  - unfold check_camera_age.
    destruct (_ !! i) as [ci|]; [|apply same_objects_refl].
    case_bool_decide; [|apply same_objects_refl].
    pose proof (invalidate_same_objects ci (cogl (check_cameras_age st))) as Hs.
    destruct (invalidate_per_camera_state _ _) as [c2 ctx2]. exact Hs.
Qed.

(** *** The array and the stage's cameras *)

(** [mirrors st]: the array has [n_cameras] entries, and as many as the
    stage has cameras whenever it was built for the stage's current set
    of cameras. *)
Definition mirrors st : Prop :=
  n_cameras (priv st) = length (camera_state (priv st)) /\
  (stage_cameras_age (stage st) = cameras_age (priv st) ->
   length (camera_state (priv st)) = length (cameras (stage st))).

(** What [mirrors] depends on. *)
Definition same_shape st st' : Prop :=
  n_cameras (priv st') = n_cameras (priv st) /\
  length (camera_state (priv st')) = length (camera_state (priv st)) /\
  cameras_age (priv st') = cameras_age (priv st) /\
  stage st' = stage st.

Lemma same_shape_refl st : same_shape st st.
Proof. repeat split. Qed.

Lemma same_shape_trans st1 st2 st3 :
  same_shape st1 st2 -> same_shape st2 st3 -> same_shape st1 st3.
Proof.
  intros (a1 & a2 & a3 & a4) (b1 & b2 & b3 & b4). repeat split; congruence.
Qed.

Lemma same_shape_mirrors st st' : same_shape st st' -> mirrors st -> mirrors st'.
Proof.
  intros (a1 & a2 & a3 & a4) [m1 m2]. unfold mirrors.
  rewrite a1, a2, a3, a4. split; assumption.
Qed.

Lemma same_shape_emit e st : same_shape st (emit e st).
Proof. repeat split. Qed.

Lemma same_shape_store (i : nat) cs st : same_shape st (store_camera_state i cs st).
Proof. repeat split. simpl. apply length_insert. Qed.

Lemma same_shape_set_opacity (v : Z) st :
  same_shape st (_clutter_actor_set_opacity_override v st).
Proof.
  unfold _clutter_actor_set_opacity_override.
  destruct (actor (priv st)); repeat split.
Qed.

Lemma same_shape_check_camera_age st (i : nat) :
  same_shape st (check_camera_age st i).
Proof.
  destruct (check_camera_age_length st i) as [Hl Hn].
  split; [exact Hn|]. split; [exact Hl|].
  split; [apply check_camera_age_generation|].
  apply check_camera_age_same_world.
Qed.

Lemma mirrors_rebuild st : mirrors (rebuild_camera_states st).
Proof.
  split.
  - unfold rebuild_camera_states, _clutter_stage_get_n_cameras. simpl.
    rewrite length_map, length_seq. reflexivity.
  - intros _. rewrite rebuild_length. reflexivity.
Qed.

Lemma mirrors_lookup st (i : nat) :
  mirrors st -> mirrors (get_per_camera_state st i).
Proof.
  intros Hm. unfold get_per_camera_state.
  apply (same_shape_mirrors _ _ (same_shape_check_camera_age _ i)).
  unfold check_cameras_age. case_bool_decide; [apply mirrors_rebuild | exact Hm].
Qed.

Lemma lookup_has_entry st (i : nat) :
  mirrors st -> (i < length (cameras (stage st)))%nat ->
  has_entry (get_per_camera_state st i) i.
Proof.
  intros Hm Hi. destruct (mirrors_lookup st i Hm) as [_ Hlen].
  destruct (get_per_camera_state_is_up_to_date st i) as [Hgen _].
  unfold has_entry. rewrite (Hlen Hgen).
  destruct (get_per_camera_state_same_world st i) as (_ & _ & _ & -> & _).
  exact Hi.
Qed.

Lemma same_shape_allocate st (i : nat) cs (w h : Z) :
  same_shape st (snd (allocate_fbo st i cs w h)).
Proof.
  destruct (allocate_fbo_shape st i cs w h)
    as (o & p & t & rw & rh & ctx & lg & -> & _).
  eapply same_shape_trans; [|apply same_shape_store]. repeat split.
Qed.

Lemma mirrors_update_fbo st (i : nat) (w h : Z) :
  mirrors st -> mirrors (snd (update_fbo st i w h)).
Proof.
  intros Hm. unfold update_fbo. cbv zeta.
  destruct (_ && _); cbn [snd]; [apply mirrors_lookup; exact Hm|].
  eapply same_shape_mirrors; [apply same_shape_allocate|].
  apply mirrors_lookup. exact Hm.
Qed.

Lemma same_shape_redirect st camera : same_shape st (redirect st camera).
Proof.
  unfold redirect. cbv zeta.
  eapply same_shape_trans; [|apply same_shape_set_opacity].
  repeat split. simpl. apply length_insert.
Qed.

Lemma mirrors_request_target st a camera :
  mirrors st -> mirrors (snd (request_target st a camera)).
Proof.
  intros Hm. rewrite request_target_state. cbv zeta.
  eapply same_shape_mirrors; [apply same_shape_store|].
  apply mirrors_lookup. exact Hm.
Qed.

Lemma mirrors_pre_paint st :
  mirrors st -> mirrors (snd (clutter_offscreen_effect_pre_paint st)).
Proof.
  intros Hm. unfold clutter_offscreen_effect_pre_paint.
  destruct (negb (meta_enabled st)); [exact Hm|].
  destruct (actor (priv st)) as [a|]; [|exact Hm].
  pose proof (mirrors_request_target st a
                (_clutter_stage_get_current_camera (stage st)) Hm) as Hq.
  destruct (request_target st a _) as [[rw rh] st1]. cbn [snd] in Hq.
  pose proof (mirrors_update_fbo st1
                (index (_clutter_stage_get_current_camera (stage st)))
                (float_to_int rw) (float_to_int rh) Hq) as Hu.
  destruct (update_fbo st1 _ _ _) as [ok st2]. cbn [snd] in Hu.
  destruct ok; cbn [negb snd]; [|exact Hu].
  eapply same_shape_mirrors; [apply same_shape_redirect | exact Hu].
Qed.

Lemma mirrors_paint_target st :
  mirrors st -> mirrors (clutter_offscreen_effect_paint_target st).
Proof.
  intros Hm. unfold clutter_offscreen_effect_paint_target,
    clutter_offscreen_effect_real_paint_target. cbv zeta.
  apply (mirrors_lookup st
           (index (_clutter_stage_get_current_camera (stage st)))) in Hm.
  eapply same_shape_mirrors; [|exact Hm]. repeat split.
Qed.

Lemma mirrors_paint_texture st :
  mirrors st -> mirrors (clutter_offscreen_effect_paint_texture st).
Proof.
  intros Hm. unfold clutter_offscreen_effect_paint_texture. cbv zeta.
  apply (mirrors_lookup st
           (index (_clutter_stage_get_current_camera (stage st)))) in Hm.
  eapply same_shape_mirrors; [apply same_shape_emit|].
  eapply same_shape_mirrors; [apply same_shape_emit|].
  apply mirrors_paint_target.
  eapply same_shape_mirrors; [|exact Hm]. repeat split.
Qed.

Lemma mirrors_post_paint st :
  mirrors st -> mirrors (clutter_offscreen_effect_post_paint st).
Proof.
  intros Hm. unfold clutter_offscreen_effect_post_paint. cbv zeta.
  apply (mirrors_lookup st
           (index (_clutter_stage_get_current_camera (stage st)))) in Hm.
  destruct (_ || _); [exact Hm|].
  apply mirrors_paint_texture.
  eapply same_shape_mirrors; [apply same_shape_emit|].
  eapply same_shape_mirrors; [apply same_shape_emit|].
  eapply same_shape_mirrors; [apply same_shape_set_opacity | exact Hm].
Qed.

(** *** Allocating the target *)

(** The size [clutter_offscreen_effect_real_create_texture] asks for. *)
Lemma clamped_size (w : Z) :
  float_to_int (MAX (int_to_float w) 1%Q) = Z.max w 1.
Proof.
  unfold MAX, fgt, int_to_float, float_to_int, Qle_bool, inject_Z. simpl.
  destruct (w * 1 <=? 1 * 1) eqn:E; simpl.
  - apply Z.leb_le in E. rewrite Z.quot_1_r. lia.
  - apply Z.leb_gt in E. rewrite Z.quot_1_r. lia.
Qed.

(** Every handle the entry holds has been allocated. *)
Definition allocated ctx cs : Prop :=
  forall x, In x (held cs) -> (x < next_handle ctx)%positive.

Ltac lookup_step :=
  first [ rewrite lookup_insert_eq
        | rewrite lookup_insert_ne by (first [lia | congruence]) ].

Lemma allocate_fbo_success st (i : nat) cs (w h : Z) :
  has_entry st i -> allocated (cogl st) cs ->
  texture_new_ok (cogl st) = true -> offscreen_new_ok (cogl st) = true ->
  let r := allocate_fbo st i cs w h in
  let cs' := camera_state_at (snd r) i in
  let ctx' := cogl (snd r) in
  fst r = true /\
  (exists p t o,
     pipeline cs' = Some p /\ texture cs' = Some t /\ offscreen cs' = Some o /\
     (pipeline cs = Some p \/
      pipeline cs = None /\ p = next_handle (cogl st) /\ refs ctx' p = 1) /\
     (next_handle (cogl st) <= t)%positive /\ (t < o)%positive /\
     (o < next_handle ctx')%positive /\
     refs ctx' t = 1 /\ refs ctx' o = 1 /\
     texture_size ctx' !! t = Some (Z.max w 1, Z.max h 1)) /\
  request_width cs' = w /\ request_height cs' = h /\
  camera cs' = camera cs /\ valid_for_age cs' = valid_for_age cs /\
  viewport_x_offset cs' = viewport_x_offset cs /\
  viewport_y_offset cs' = viewport_y_offset cs /\
  last_matrix_drawn cs' = last_matrix_drawn cs /\
  (forall h0 : CoglHandle,
     (h0 < next_handle (cogl st))%positive ->
     refs ctx' h0 =
       refs (cogl st) h0
       - (if decide (texture cs = Some h0) then 1 else 0)
       - (if decide (offscreen cs = Some h0) then 1 else 0)).
Proof.
  intros Hi Hal. unfold allocate_fbo.
  unfold clutter_offscreen_effect_create_texture,
    clutter_offscreen_effect_real_create_texture, cogl_texture_new_with_size,
    cogl_offscreen_new_to_texture.
  rewrite !clamped_size.
  destruct st as [en pr sg cx mv pj gb lg].
  destruct cs as [c v o p t xo yo rw rh m]. simpl. intros Hk Ho.
  unfold allocated, held in Hal. simpl in Hal.
  destruct p as [p|], t as [t|], o as [o|]; simpl in Hal; simpl; rewrite Hk;
    simpl; rewrite Ho; simpl.
  all: rewrite !camera_state_at_store by exact Hi; simpl.
  all: split; [reflexivity|].
  all: try assert (Hp : (p < next_handle cx)%positive) by (apply Hal; tauto).
  all: try assert (Ht : (t < next_handle cx)%positive) by (apply Hal; tauto).
  all: try assert (Ho' : (o < next_handle cx)%positive) by (apply Hal; tauto).
  all: split;
    [ do 3 eexists; split; [reflexivity|]; split; [reflexivity|];
      split; [reflexivity|];
      split; [first [left; reflexivity
                    | right; split; [reflexivity|]; split; [reflexivity|];
                      unfold refs; simpl; repeat lookup_step; reflexivity]|];
      split; [lia|]; split; [lia|]; split; [lia|];
      split; [unfold refs; simpl; repeat lookup_step; reflexivity|];
      split; [unfold refs; simpl; repeat lookup_step; reflexivity|];
      repeat lookup_step; reflexivity
    | ].
  all: do 7 (split; [reflexivity|]).
  all: intros h0 Hh0; unfold refs; simpl; unfold refs; simpl.
  all: repeat match goal with
         | |- context [decide (Some ?a = Some ?b)] =>
             destruct (decide (Some a = Some b)) as [[= ->]|?]
         end.
  all: repeat lookup_step; simpl; lia.
Qed.


Lemma update_fbo_slow_path st (i : nat) (w h : Z) :
  let st1 := get_per_camera_state st i in
  let cs := camera_state_at st1 i in
  ~ (request_width cs = w /\ request_height cs = h /\ offscreen cs <> None) ->
  update_fbo st i w h = allocate_fbo st1 i cs w h.
Proof.
  intros st1 cs Hn. unfold update_fbo. fold st1. fold cs.
  destruct (bool_decide (request_width cs = w) &&
            bool_decide (request_height cs = h) &&
            bool_decide (offscreen cs <> None)) eqn:E; [|reflexivity].
  exfalso. apply Hn.
  apply andb_prop in E as [E E3]. apply andb_prop in E as [E1 E2].
  apply bool_decide_eq_true in E1, E2, E3. auto.
Qed.



(** X5.  When [update_fbo] allocates a new target, the texture and the
    offscreen buffer the entry held lose one reference each, and no other
    object that existed before the call gains or loses one: the pipeline
    is kept. *)
Theorem update_fbo_releases_previous_target st (i : nat) (w h : Z)
    (h0 : CoglHandle) :
  let st1 := get_per_camera_state st i in
  let cs := camera_state_at st1 i in
  let r := update_fbo st i w h in
  has_entry st1 i -> allocated (cogl st1) cs ->
  texture_new_ok (cogl st) = true -> offscreen_new_ok (cogl st) = true ->
  ~ (request_width cs = w /\ request_height cs = h /\ offscreen cs <> None) ->
  (h0 < next_handle (cogl st1))%positive ->
  refs (cogl (snd r)) h0 =
    refs (cogl st1) h0
    - (if decide (texture cs = Some h0) then 1 else 0)
    - (if decide (offscreen cs = Some h0) then 1 else 0).
Proof.
  intros st1 cs r Hi Hal Hk Ho Hn Hh.
  destruct (get_per_camera_state_same_world st i)
    as (_ & _ & _ & _ & _ & _ & _ & Hk' & Ho').
  fold st1 in Hk', Ho'. rewrite Hk in Hk'. rewrite Ho in Ho'.
  destruct (allocate_fbo_success st1 i cs w h Hi Hal Hk' Ho')
    as (_ & _ & _ & _ & _ & _ & _ & _ & _ & R).
  unfold r. rewrite (update_fbo_slow_path st i w h Hn).
  apply R. exact Hh.
Qed.

(** *** The accessors *)



Lemma camera_state_at_cases st (i : nat) (P : PerCameraState -> Prop) :
  P (null_entry st) ->
  (forall cs, camera_state (priv st) !! i = Some cs -> P cs) ->
  P (camera_state_at st i).
Proof.
  intros Hnull Hsome. unfold camera_state_at.
  destruct (camera_state (priv st) !! i) as [cs|] eqn:E; simpl; auto.
Qed.

(** X7.  After the stage's set of cameras has changed, the accessors hand out
    no pipeline, no texture and no size.  After the current camera alone
    has changed, there is no pipeline, but the texture of the entry and
    its size are still handed out. *)
Theorem accessors_after_invalidation st :
  let i := index (_clutter_stage_get_current_camera (stage st)) in
  (stage_cameras_age (stage st) <> cameras_age (priv st) ->
   fst (clutter_offscreen_effect_get_target st) = None /\
   fst (clutter_offscreen_effect_get_texture st) = None /\
   fst (clutter_offscreen_effect_get_target_size st) = None) /\
  (forall cs,
     stage_cameras_age (stage st) = cameras_age (priv st) ->
     camera_state (priv st) !! i = Some cs ->
     camera_age st cs <> valid_for_age cs ->
     fst (clutter_offscreen_effect_get_target st) = None /\
     fst (clutter_offscreen_effect_get_texture st) = texture cs /\
     (texture cs <> None ->
      fst (clutter_offscreen_effect_get_target_size st) =
        Some (int_to_float (cogl_texture_get_width (texture cs) (cogl st)),
              int_to_float (cogl_texture_get_height (texture cs) (cogl st))))).
Proof.
  intros i. unfold clutter_offscreen_effect_get_target,
    clutter_offscreen_effect_get_texture,
    clutter_offscreen_effect_get_target_size. cbv zeta. fold i. split.
  - intros Hne.
    destruct (rebuilt_lookup st i Hne)
      as (_ & _ & _ & Hall & _).
    assert (Hcs : pipeline (camera_state_at (get_per_camera_state st i) i) = None /\
                  texture (camera_state_at (get_per_camera_state st i) i) = None).
    { apply camera_state_at_cases; [split; reflexivity|].
      intros cs Hl. destruct (Hall i cs Hl) as (_ & _ & Hp & Ht).
      split; assumption. }
    destruct Hcs as [Hp Ht]. cbn [fst]. rewrite Ht. cbn [fst].
    repeat split; assumption.
  - intros cs Hgen Hl Hage.
    assert (Hst : get_per_camera_state st i =
                  store_camera_state i
                    (set_valid_for_age (camera_age st cs)
                       (set_handles None None (texture cs) cs))
                    (set_cogl (snd (invalidate_per_camera_state cs (cogl st))) st)).
    { unfold get_per_camera_state, check_cameras_age.
      rewrite bool_decide_eq_false_2 by (intros Hx; apply Hx; exact Hgen).
      unfold check_camera_age. rewrite Hl.
      rewrite bool_decide_eq_true_2 by exact Hage.
      pose proof (invalidate_entry cs (cogl st)) as Hinv.
      destruct (invalidate_per_camera_state cs (cogl st)) as [c2 ctx2].
      simpl in Hinv. subst c2. reflexivity. }
    rewrite Hst.
    rewrite camera_state_at_store
      by (simpl; eapply lookup_lt_Some; exact Hl).
    cbn [fst texture pipeline set_valid_for_age set_handles].
    split; [reflexivity|]. split; [reflexivity|].
    intros Ht. destruct (texture cs) as [t|] eqn:Et; [|congruence].
    cbn [fst]. destruct (invalidate_same_objects cs (cogl st)) as (_ & Hsz & _).
    unfold cogl_texture_get_width, cogl_texture_get_height. simpl.
    rewrite Hsz. reflexivity.
Qed.

(** *** Attaching the effect to an actor *)

(** An entry without its offscreen buffer. *)
Definition dropped cs : PerCameraState :=
  match offscreen cs with
  | Some _ => set_handles None (pipeline cs) (texture cs) cs
  | None => cs
  end.

Lemma clear_offscreen_step (acc : list PerCameraState) ctx cs :
  clear_offscreen (acc, ctx) cs =
    (acc ++ [dropped cs], release (option_list (offscreen cs)) ctx).
Proof.
  unfold clear_offscreen, dropped. destruct (offscreen cs); reflexivity.
Qed.

Lemma clear_offscreen_fold l (acc : list PerCameraState) ctx :
  foldl clear_offscreen (acc, ctx) l =
    (acc ++ map dropped l, release (omap offscreen l) ctx).
Proof.
  revert acc ctx. induction l as [|cs l IH]; intros acc ctx.
  - simpl. rewrite app_nil_r. reflexivity.
  - simpl foldl. rewrite clear_offscreen_step, IH, <- app_assoc.
    f_equal. simpl omap. destruct (offscreen cs); reflexivity.
Qed.

Lemma dropped_fields cs :
  offscreen (dropped cs) = None /\ pipeline (dropped cs) = pipeline cs /\
  texture (dropped cs) = texture cs.
Proof.
  unfold dropped. destruct (offscreen cs) eqn:E; simpl; auto.
Qed.

(** Lookups never give an entry an offscreen buffer. *)
Lemma lookup_no_offscreen st (i : nat) :
  Forall (fun cs => offscreen cs = None) (camera_state (priv st)) ->
  offscreen (camera_state_at (get_per_camera_state st i) i) = None.
Proof.
  intros Hall. apply camera_state_at_cases; [reflexivity|].
  intros cs' Hl. unfold get_per_camera_state in Hl.
  destruct (check_camera_age_entries _ _ _ _ Hl) as (cs & Hcs & _ & _ & _ & Ho & _).
  destruct Ho as [Ho|Ho]; [|exact Ho]. rewrite Ho.
  unfold check_cameras_age in Hcs. case_bool_decide.
  - apply rebuild_entries in Hcs as [-> _]. reflexivity.
  - rewrite List.Forall_forall in Hall. apply Hall.
    apply list_elem_of_In. eapply list_elem_of_lookup_2. exact Hcs.
Qed.

Lemma set_actor_shape st (a : option ClutterActor) :
  n_cameras (priv st) = length (camera_state (priv st)) ->
  n_cameras (priv (clutter_offscreen_effect_set_actor st a)) = n_cameras (priv st) /\
  camera_state (priv (clutter_offscreen_effect_set_actor st a)) =
    map dropped (camera_state (priv st)) /\
  cameras_age (priv (clutter_offscreen_effect_set_actor st a)) =
    cameras_age (priv st) /\
  stage (clutter_offscreen_effect_set_actor st a) = stage st.
Proof.
  intros Hn. unfold clutter_offscreen_effect_set_actor.
  rewrite clear_offscreen_fold. rewrite Hn, firstn_all, drop_all, app_nil_r.
  repeat split.
Qed.

(** X8.  [set_actor] sets the back pointer and releases the offscreen buffer
    of every entry, once; pipelines and textures stay.  Whatever entry is
    looked up afterwards has no offscreen buffer, so the next paint draws
    the actor again. *)
Theorem set_actor_drops_offscreen_buffers st (a : option ClutterActor) :
  n_cameras (priv st) = length (camera_state (priv st)) ->
  let st' := clutter_offscreen_effect_set_actor st a in
  actor (priv st') = a /\
  camera_state (priv st') = map dropped (camera_state (priv st)) /\
  (forall j : nat,
     offscreen (camera_state_at st' j) = None /\
     pipeline (camera_state_at st' j) = pipeline (camera_state_at st j) /\
     texture (camera_state_at st' j) = texture (camera_state_at st j)) /\
  (forall h : CoglHandle,
     refs (cogl st') h =
       refs (cogl st) h
       - Z.of_nat (count_occ Pos.eq_dec
                     (omap offscreen (camera_state (priv st))) h)) /\
  (forall i : nat,
     offscreen (camera_state_at (get_per_camera_state st' i) i) = None).
Proof.
  intros Hn st'.
  assert (Hst : st' =
    set_cogl (release (omap offscreen (camera_state (priv st))) (cogl st))
      (set_priv (mkPriv a (map dropped (camera_state (priv st)))
                   (n_cameras (priv st)) (cameras_age (priv st))
                   (old_opacity_override (priv st))) st)).
  { unfold st', clutter_offscreen_effect_set_actor.
    rewrite clear_offscreen_fold. rewrite Hn, firstn_all, drop_all, app_nil_r.
    reflexivity. }
  rewrite Hst. split; [reflexivity|]. split; [reflexivity|].
  split; [|split].
  - intros j. unfold camera_state_at. simpl. rewrite list_lookup_fmap.
    destruct (camera_state (priv st) !! j) as [cs|]; simpl.
    + apply dropped_fields.
    + repeat split.
  - intros h. simpl. apply refs_release.
  - intros i. apply lookup_no_offscreen. simpl.
    apply List.Forall_forall. intros cs Hin.
    apply in_map_iff in Hin as (c0 & <- & _). apply dropped_fields.
Qed.

(** X9.  From its initialisation on, the effect keeps its array as long as
    the stage's list of cameras whenever it was built for the stage's
    current set of cameras; so a lookup for a camera of the stage always
    finds an entry of the array. *)
Theorem array_mirrors_stage st :
  (priv st = clutter_offscreen_effect_init ->
   stage_cameras_age (stage st) <> -1 -> mirrors st) /\
  (mirrors st ->
   (forall a, mirrors (clutter_offscreen_effect_set_actor st a)) /\
   (forall i : nat,
      mirrors (get_per_camera_state st i) /\
      ((i < length (cameras (stage st)))%nat ->
       has_entry (get_per_camera_state st i) i)) /\
   (forall (i : nat) (w h : Z), mirrors (snd (update_fbo st i w h))) /\
   mirrors (snd (clutter_offscreen_effect_pre_paint st)) /\
   mirrors (clutter_offscreen_effect_post_paint st) /\
   mirrors (clutter_offscreen_effect_paint_texture st)).
Proof.
  split.
  - intros Hp Hage. unfold mirrors. rewrite Hp. simpl. split; [reflexivity|].
    intros E. congruence.
  - intros Hm. split; [|split; [|split; [|split; [|split]]]].
    + intros a. destruct Hm as [Hn Hlen].
      destruct (set_actor_shape st a Hn) as (E1 & E2 & E3 & E4).
      unfold mirrors. rewrite E1, E2, E3, E4, length_map. split; assumption.
    + intros i. split; [apply mirrors_lookup; exact Hm|].
      apply lookup_has_entry. exact Hm.
    + intros i w h. apply mirrors_update_fbo. exact Hm.
    + apply mirrors_pre_paint. exact Hm.
    + apply mirrors_post_paint. exact Hm.
    + apply mirrors_paint_texture. exact Hm.
Qed.

(** *** The viewport of the offscreen buffer *)

(** [expand] is the least growth of the viewport, the same on both
    sides, with which it contains the target. *)
Lemma expand_least (offset : gfloat) (size : Z) (vsize : gfloat) :
  (0 <= expand offset size vsize)%Q /\
  (- expand offset size vsize <= offset)%Q /\
  (offset + int_to_float size <= vsize + expand offset size vsize)%Q /\
  forall d : gfloat,
    (0 <= d)%Q -> (- d <= offset)%Q ->
    (offset + int_to_float size <= vsize + d)%Q ->
    (expand offset size vsize <= d)%Q.
Proof.
  unfold expand, MAX. cbv zeta.
  destruct (flt offset 0%Q) eqn:E1;
    [apply flt_true in E1 | apply flt_false in E1];
    (destruct (fgt (offset + int_to_float size)%Q vsize) eqn:E2;
     [apply fgt_true in E2 | apply fgt_false in E2]);
    try (destruct (fgt _ (offset + int_to_float size - vsize)%Q) eqn:E3;
         [apply fgt_true in E3 | apply fgt_false in E3]);
    repeat split; try lra; intros d H1 H2 H3; lra.
Qed.

(** X10.  After a successful [pre_paint] the viewport set on the offscreen
    buffer is the camera's viewport, moved to the target and grown on
    both sides of each axis by the least amount with which it contains
    the whole texture. *)
Theorem viewport_covers_target st st1 :
  let camera := _clutter_stage_get_current_camera (stage st) in
  let cs := camera_state_at st1 (index camera) in
  let tw := int_to_float (cogl_texture_get_width (texture cs) (cogl st1)) in
  let th := int_to_float (cogl_texture_get_height (texture cs) (cogl st1)) in
  let xoff := viewport_x_offset cs in
  let yoff := viewport_y_offset cs in
  let vw := viewport_2 camera in
  let vh := viewport_3 camera in
  clutter_offscreen_effect_pre_paint st = (true, st1) ->
  exists ex ey : gfloat,
    log st1 !! 3%nat =
      Some (cogl_set_viewport (- (xoff + ex))%Q (- (yoff + ey))%Q
              (vw + 2 * ex)%Q (vh + 2 * ey)%Q) /\
    ((0 <= ex)%Q /\ (- (xoff + ex) <= 0)%Q /\
     (tw <= - (xoff + ex) + (vw + 2 * ex))%Q /\
     forall d : gfloat, (0 <= d)%Q -> (- (xoff + d) <= 0)%Q ->
                (tw <= - (xoff + d) + (vw + 2 * d))%Q -> (ex <= d)%Q) /\
    ((0 <= ey)%Q /\ (- (yoff + ey) <= 0)%Q /\
     (th <= - (yoff + ey) + (vh + 2 * ey))%Q /\
     forall d : gfloat, (0 <= d)%Q -> (- (yoff + d) <= 0)%Q ->
                (th <= - (yoff + d) + (vh + 2 * d))%Q -> (ey <= d)%Q).
Proof.
  intros camera cs tw th xoff yoff vw vh Hpre.
  destruct (pre_paint_success st st1 Hpre)
    as (a & st_u & He & Ha & Hup & Hw & Est1 & _).
  fold camera in Hup, Est1.
  pose proof (redirect_log st_u camera) as Hlog.
  pose proof (redirect_cogl st_u camera) as Hcogl.
  destruct (redirect_offsets st_u camera) as [Hx Hy].
  destruct (redirect_handles st_u camera) as (_ & _ & Ht).
  rewrite <- Est1 in Hlog, Hcogl, Hx, Hy, Ht. cbv zeta in Hlog.
  rewrite <- Ht, <- Hcogl in Hlog. fold cs in Hlog, Hx, Hy.
  set (cs_u := camera_state_at st_u (index camera)) in *.
  exists (expand xoff (cogl_texture_get_width (texture cs) (cogl st1)) vw),
         (expand yoff (cogl_texture_get_height (texture cs) (cogl st1)) vh).
  split.
  - rewrite Hlog. unfold expanded_viewport. cbv zeta.
    rewrite <- Hx, <- Hy. reflexivity.
  - destruct (expand_least xoff
                (cogl_texture_get_width (texture cs) (cogl st1)) vw)
      as (X1 & X2 & X3 & X4).
    destruct (expand_least yoff
                (cogl_texture_get_height (texture cs) (cogl st1)) vh)
      as (Y1 & Y2 & Y3 & Y4).
    fold tw in X3, X4. fold th in Y3, Y4.
    split.
    + split; [exact X1|]. split; [lra|]. split; [lra|].
      intros d H1 H2 H3. apply X4; lra.
    + split; [exact Y1|]. split; [lra|]. split; [lra|].
      intros d H1 H2 H3. apply Y4; lra.
Qed.

End WithMatrix.
(** *** The properties on the concrete world *)

Import Scenario.

Lemma lookup_rebuilds_for_new_cameras_witness :
  let st' := get_per_camera_state (set_stage stage1 painted) 1 in
  cameras_age (priv st') = 1 /\
  length (camera_state (priv st')) = 2%nat /\
  forall (j : nat) cs,
    camera_state (priv st') !! j = Some cs ->
    camera cs = j /\ offscreen cs = None /\ pipeline cs = None /\
    texture cs = None.
Proof.
  assert (Hne : stage_cameras_age (stage (set_stage stage1 painted)) <>
                cameras_age (priv (set_stage stage1 painted)))
    by (vm_compute; discriminate).
  destruct (lookup_rebuilds_for_new_cameras (set_stage stage1 painted) 1 Hne)
    as (W1 & _ & W3 & W4 & _).
  split; [exact W1|]. split; [exact W3|]. exact W4.
Defined.

(** The entry of [painted] holds the handles 1, 2 and 3, and is asked for
    another size. *)
Lemma painted_has_entry : has_entry (get_per_camera_state painted 0) 0.
Proof. vm_compute. lia. Qed.

Lemma painted_allocated :
  allocated (cogl (get_per_camera_state painted 0))
    (camera_state_at (get_per_camera_state painted 0) 0).
Proof.
  assert (E : held (camera_state_at (get_per_camera_state painted 0) 0) =
              [3; 1; 2]%positive) by (vm_compute; reflexivity).
  assert (En : next_handle (cogl (get_per_camera_state painted 0)) = 4%positive)
    by (vm_compute; reflexivity).
  unfold allocated. rewrite E, En.
  intros x [<-|[<-|[<-|[]]]]; reflexivity.
Qed.

Lemma painted_other_size :
  ~ (request_width (camera_state_at (get_per_camera_state painted 0) 0) = 200 /\
     request_height (camera_state_at (get_per_camera_state painted 0) 0) = 0 /\
     offscreen (camera_state_at (get_per_camera_state painted 0) 0) <> None).
Proof. vm_compute. intros (Hw & _). discriminate. Qed.

Lemma painted_driver :
  texture_new_ok (cogl painted) = true /\ offscreen_new_ok (cogl painted) = true.
Proof. vm_compute. split; reflexivity. Qed.


Lemma update_fbo_releases_previous_target_witness :
  let ctx' := cogl (snd (update_fbo painted 0 200 0)) in
  refs ctx' 1%positive = 1 /\ refs ctx' 2%positive = 0 /\ refs ctx' 3%positive = 0.
Proof.
  assert (En : next_handle (cogl (get_per_camera_state painted 0)) = 4%positive)
    by (vm_compute; reflexivity).
  assert (Hlt : forall h0 : CoglHandle,
             (h0 < 4)%positive ->
             (h0 < next_handle (cogl (get_per_camera_state painted 0)))%positive)
    by (intros h0 Hh; rewrite En; exact Hh).
  pose proof (update_fbo_releases_previous_target painted 0 200 0 1%positive
                painted_has_entry painted_allocated (proj1 painted_driver)
                (proj2 painted_driver) painted_other_size
                (Hlt 1%positive eq_refl)) as W1.
  pose proof (update_fbo_releases_previous_target painted 0 200 0 2%positive
                painted_has_entry painted_allocated (proj1 painted_driver)
                (proj2 painted_driver) painted_other_size
                (Hlt 2%positive eq_refl)) as W2.
  pose proof (update_fbo_releases_previous_target painted 0 200 0 3%positive
                painted_has_entry painted_allocated (proj1 painted_driver)
                (proj2 painted_driver) painted_other_size
                (Hlt 3%positive eq_refl)) as W3.
  cbv zeta in *. rewrite W1, W2, W3. vm_compute. repeat split.
Defined.



Lemma accessors_after_invalidation_witness :
  (let st := set_stage stage1 painted in
   fst (clutter_offscreen_effect_get_target st) = None /\
   fst (clutter_offscreen_effect_get_texture st) = None /\
   fst (clutter_offscreen_effect_get_target_size st) = None) /\
  (let st := set_stage stage0_aged painted in
   fst (clutter_offscreen_effect_get_target st) = None /\
   fst (clutter_offscreen_effect_get_texture st) = Some 2%positive).
Proof.
  split.
  - assert (Hne : stage_cameras_age (stage (set_stage stage1 painted)) <>
                  cameras_age (priv (set_stage stage1 painted)))
      by (vm_compute; discriminate).
    exact (proj1 (accessors_after_invalidation (set_stage stage1 painted)) Hne).
  - pose proof (proj2 (accessors_after_invalidation (set_stage stage0_aged painted)))
      as W. cbv zeta in W.
    assert (Hg : stage_cameras_age (stage (set_stage stage0_aged painted)) =
                 cameras_age (priv (set_stage stage0_aged painted)))
      by (vm_compute; reflexivity).
    assert (Hl : camera_state (priv (set_stage stage0_aged painted))
                   !! index (_clutter_stage_get_current_camera
                               (stage (set_stage stage0_aged painted))) =
                 Some (camera_state_at painted 0)) by (vm_compute; reflexivity).
    assert (Hage : camera_age (set_stage stage0_aged painted)
                     (camera_state_at painted 0) <>
                   valid_for_age (camera_state_at painted 0))
      by (vm_compute; discriminate).
    assert (Et : texture (camera_state_at painted 0) = Some 2%positive)
      by (vm_compute; reflexivity).
    destruct (W (camera_state_at painted 0) Hg Hl Hage) as (W1 & W2 & _).
    cbv zeta. rewrite W1, W2, Et. split; reflexivity.
Defined.

Lemma set_actor_drops_offscreen_buffers_witness :
  let st' := clutter_offscreen_effect_set_actor painted (Some actor_half) in
  actor (priv st') = Some actor_half /\
  offscreen (camera_state_at st' 0) = None /\
  pipeline (camera_state_at st' 0) = Some 1%positive /\
  texture (camera_state_at st' 0) = Some 2%positive /\
  refs (cogl st') 3%positive = 0.
Proof.
  assert (Hn : n_cameras (priv painted) = length (camera_state (priv painted)))
    by (vm_compute; reflexivity).
  assert (Ep : pipeline (camera_state_at painted 0) = Some 1%positive)
    by (vm_compute; reflexivity).
  assert (Et : texture (camera_state_at painted 0) = Some 2%positive)
    by (vm_compute; reflexivity).
  assert (Er : refs (cogl painted) 3%positive
               - Z.of_nat (count_occ Pos.eq_dec
                             (omap offscreen (camera_state (priv painted)))
                             3%positive) = 0)
    by (vm_compute; reflexivity).
  destruct (set_actor_drops_offscreen_buffers painted (Some actor_half) Hn)
    as (W1 & _ & W3 & W4 & _).
  destruct (W3 0%nat) as (A1 & A2 & A3).
  cbv zeta. rewrite W1, A1, A2, A3, (W4 3%positive), Ep, Et, Er.
  repeat split.
Defined.

Lemma array_mirrors_stage_witness :
  let st := mkState true clutter_offscreen_effect_init stage0 empty_context
              identity identity garbage [] in
  mirrors st /\
  has_entry (get_per_camera_state st 0) 0 /\
  mirrors (snd (clutter_offscreen_effect_pre_paint
                  (clutter_offscreen_effect_set_actor st (Some actor0)))).
Proof.
  intros st.
  destruct (array_mirrors_stage st) as [W0 W].
  assert (Hage : stage_cameras_age (stage st) <> -1)
    by (vm_compute; discriminate).
  assert (Hm : mirrors st) by (apply W0; [reflexivity | exact Hage]).
  assert (Hc : (0 < length (cameras (stage st)))%nat) by (vm_compute; lia).
  destruct (W Hm) as (Wa & Wl & _).
  split; [exact Hm|]. split.
  - exact (proj2 (Wl 0%nat) Hc).
  - destruct (array_mirrors_stage
                (clutter_offscreen_effect_set_actor st (Some actor0))) as [_ W'].
    destruct (W' (Wa (Some actor0))) as (_ & _ & _ & Wp & _). exact Wp.
Defined.

Lemma viewport_covers_target_witness :
  let st := state0 empty_context actor_left in
  let st1 := snd (clutter_offscreen_effect_pre_paint st) in
  let cs := camera_state_at st1
              (index (_clutter_stage_get_current_camera (stage st))) in
  fst (clutter_offscreen_effect_pre_paint st) = true /\
  (viewport_x_offset cs == -20)%Q /\
  exists ex ey : gfloat,
    log st1 !! 3%nat =
      Some (cogl_set_viewport (- (viewport_x_offset cs + ex))%Q
              (- (viewport_y_offset cs + ey))%Q
              (viewport_2 (_clutter_stage_get_current_camera (stage st))
               + 2 * ex)%Q
              (viewport_3 (_clutter_stage_get_current_camera (stage st))
               + 2 * ey)%Q) /\
    (0 <= ex)%Q /\ (0 <= ey)%Q.
Proof.
  intros st st1 cs.
  assert (Hpre : clutter_offscreen_effect_pre_paint st = (true, st1))
    by (vm_compute; reflexivity).
  assert (Hx : (viewport_x_offset cs == -20)%Q) by (vm_compute; reflexivity).
  destruct (viewport_covers_target st st1 Hpre)
    as (ex & ey & W1 & (W2 & _) & (W3 & _)).
  split; [rewrite Hpre; reflexivity|]. split; [exact Hx|].
  exists ex, ey. split; [exact W1|]. split; assumption.
Defined.

End CacheFacts.

(** ** The paint cycle: the calls it makes and the stacks it uses *)

Module PaintCycleFacts.
Import Cogl Offscreen OffscreenFacts CacheFacts.

Section WithMatrix.

Context {CoglMatrix : Type} `{CoglMatrixAPI CoglMatrix}.

Local Abbreviation State := (@State CoglMatrix).
Local Abbreviation Event := (@Event CoglMatrix).

Implicit Types st : State.

(** The calls with which [update_fbo] sets a new pipeline up or warns. *)
Definition is_setup (e : Event) : bool :=
  match e with
  | g_warning _ | cogl_pipeline_set_layer_filters _
  | cogl_pipeline_set_layer_texture _ _ => true
  | _ => false
  end.

(** The framebuffer stack and the matrix stack along a sequence of calls,
    in the order in which they are made: [fbs] and [ms] are the numbers of
    entries pushed so far, and a pop from an empty stack has no result. *)
Fixpoint nesting (calls : list Event) (fbs ms : nat) : option (nat * nat) :=
  match calls with
  | [] => Some (fbs, ms)
  | cogl_push_framebuffer _ :: calls => nesting calls (S fbs) ms
  | cogl_pop_framebuffer :: calls =>
      match fbs with
      | O => None
      | S fbs => nesting calls fbs ms
      end
  | cogl_push_matrix :: calls => nesting calls fbs (S ms)
  | cogl_pop_matrix :: calls =>
      match ms with
      | O => None
      | S ms => nesting calls fbs ms
      end
  | _ :: calls => nesting calls fbs ms
  end.

Lemma nesting_setup (l : list Event) (fbs ms : nat) :
  forallb is_setup l = true -> nesting l fbs ms = Some (fbs, ms).
Proof.
  induction l as [|e l IH]; [reflexivity|].
  cbn [forallb]. intros [He Hl]%andb_prop.
  destruct e; try discriminate He; cbn [nesting]; apply IH; exact Hl.
Qed.

Lemma nesting_app (l1 l2 : list Event) (fbs ms fbs' ms' : nat) :
  nesting l1 fbs ms = Some (fbs', ms') ->
  nesting (l1 ++ l2) fbs ms = nesting l2 fbs' ms'.
Proof.
  revert fbs ms. induction l1 as [|e l1 IH]; intros fbs ms.
  - cbn [nesting app]. intros E. injection E as -> ->. reflexivity.
  - destruct e; cbn [nesting app]; try apply IH.
    + destruct ms; [discriminate|apply IH].
    + destruct fbs; [discriminate|apply IH].
Qed.

Lemma forallb_rev_setup (l : list Event) :
  forallb is_setup l = true -> forallb is_setup (rev l) = true.
Proof.
  rewrite !forallb_forall. intros Hl e He. apply Hl.
  apply in_rev. exact He.
Qed.

Lemma allocate_fbo_log st i cs w h :
  exists l, log (snd (allocate_fbo st i cs w h)) = l ++ log st /\
            forallb is_setup l = true.
Proof.
  unfold allocate_fbo.
  unfold clutter_offscreen_effect_create_texture,
    clutter_offscreen_effect_real_create_texture, cogl_texture_new_with_size,
    cogl_offscreen_new_to_texture.
  destruct st as [en pr sg cx mv pj gb lg].
  destruct cs as [c v o p t xo yo rw rh m].
  destruct p as [p|], t as [t|], o as [o|]; simpl;
    destruct (texture_new_ok cx) eqn:Ek; simpl;
    try destruct (offscreen_new_ok cx) eqn:Eo; simpl;
    match goal with
    | |- exists l, ?lg = l ++ ?lg /\ _ => exists []
    | |- exists l, ?a :: ?lg = l ++ ?lg /\ _ => exists [a]
    | |- exists l, ?a :: ?b :: ?lg = l ++ ?lg /\ _ => exists [a; b]
    | |- exists l, ?a :: ?b :: ?c :: ?lg = l ++ ?lg /\ _ => exists [a; b; c]
    | |- exists l, ?a :: ?b :: ?c :: ?d :: ?lg = l ++ ?lg /\ _ =>
        exists [a; b; c; d]
    end; split; reflexivity.
Qed.

Lemma update_fbo_log st i w h :
  exists l, log (snd (update_fbo st i w h)) = l ++ log st /\
            forallb is_setup l = true.
Proof.
  unfold update_fbo. cbv zeta.
  destruct (_ && _); cbn [snd].
  - exists []. split; [apply get_per_camera_state_log | reflexivity].
  - destruct (allocate_fbo_log (get_per_camera_state st i) i
                (camera_state_at (get_per_camera_state st i) i) w h)
      as (l & Hl & Hs).
    exists l. rewrite get_per_camera_state_log in Hl. split; assumption.
Qed.

Lemma pre_paint_shape st ok st1 :
  clutter_offscreen_effect_pre_paint st = (ok, st1) ->
  let camera := _clutter_stage_get_current_camera (stage st) in
  exists st_u l,
    log st_u = l ++ log st /\ forallb is_setup l = true /\
    same_world st st_u /\
    (ok = false -> st1 = st_u) /\
    (ok = true ->
     st1 = redirect st_u camera /\ up_to_date st_u (index camera) /\
     actor (priv st) <> None).
Proof.
  unfold clutter_offscreen_effect_pre_paint. cbv zeta.
  destruct (meta_enabled st) eqn:He; cbn [negb].
  2:{ intros [= <- <-]. exists st, []. split; [reflexivity|].
      split; [reflexivity|]. split; [apply same_world_refl|].
      split; [reflexivity | discriminate]. }
  destruct (actor (priv st)) as [a|] eqn:Ha.
  2:{ intros [= <- <-]. exists st, []. split; [reflexivity|].
      split; [reflexivity|]. split; [apply same_world_refl|].
      split; [reflexivity | discriminate]. }
  set (camera := _clutter_stage_get_current_camera (stage st)).
  pose proof (request_target_up_to_date st a camera) as Hup.
  pose proof (request_target_same_world st a camera) as Hw.
  pose proof (request_target_log st a camera) as Hlog.
  destruct (request_target st a camera) as [[fw fh] st0].
  cbn [fst snd] in Hup, Hw, Hlog.
  pose proof (update_fbo_up_to_date st0 (index camera) (float_to_int fw)
                (float_to_int fh) Hup) as Hup'.
  pose proof (update_fbo_same_world st0 (index camera) (float_to_int fw)
                (float_to_int fh)) as Hw'.
  destruct (update_fbo_log st0 (index camera) (float_to_int fw)
              (float_to_int fh)) as (l & Hl & Hs).
  destruct (update_fbo st0 _ _ _) as [ok' st_u].
  cbn [fst snd] in Hup', Hw', Hl.
  rewrite Hlog in Hl.
  assert (Hsw : same_world st st_u)
    by (eapply same_world_trans; eassumption).
  destruct ok'; cbn [negb]; intros [= <- <-]; exists st_u, l.
  - split; [exact Hl|]. split; [exact Hs|]. split; [exact Hsw|].
    split; [discriminate|]. intros _.
    split; [reflexivity|]. split; [exact Hup' | discriminate].
  - split; [exact Hl|]. split; [exact Hs|]. split; [exact Hsw|].
    split; [reflexivity | discriminate].
Qed.

(** The calls that push or pop a framebuffer or a matrix, and the paint
    of the actor. *)
Definition is_stack_call (e : Event) : bool :=
  match e with
  | cogl_push_framebuffer _ | cogl_pop_framebuffer
  | cogl_push_matrix | cogl_pop_matrix
  | clutter_actor_continue_paint => true
  | _ => false
  end.

Lemma filter_setup (l : list Event) :
  forallb is_setup l = true -> List.filter is_stack_call l = [].
Proof.
  induction l as [|e l IH]; [reflexivity|].
  cbn [forallb]. intros [He Hl]%andb_prop.
  destruct e; try discriminate He; cbn [List.filter is_stack_call];
    apply IH; exact Hl.
Qed.

Lemma redirect_projection st camera :
  fb_projection (redirect st camera) = fb_projection st.
Proof.
  unfold redirect, _clutter_actor_set_opacity_override. cbv zeta. cbn.
  destruct (actor (priv st)); reflexivity.
Qed.

(** X11.  A paint cycle leaves the framebuffer stack and the matrix stack as it
    found them.  When [pre_paint] succeeds and the entry of the current
    camera has its offscreen buffer and pipeline, then [pre_paint], the
    paint of the actor and [post_paint] together push that offscreen
    buffer and a matrix, let the actor paint, pop both, and push and pop
    one more matrix around the drawing of the texture; the last call
    sets the projection matrix the caller had.  When [pre_paint] fails,
    it has pushed nothing. *)
Theorem paint_cycle_restores_stacks st :
  let camera := _clutter_stage_get_current_camera (stage st) in
  (forall st1,
     clutter_offscreen_effect_pre_paint st = (true, st1) ->
     offscreen (camera_state_at st1 (index camera)) <> None ->
     pipeline (camera_state_at st1 (index camera)) <> None ->
     let st2 := clutter_offscreen_effect_post_paint
                  (emit clutter_actor_continue_paint st1) in
     exists calls,
       log st2 = rev calls ++ log st /\
       List.filter is_stack_call calls =
         [cogl_push_framebuffer
            (offscreen (camera_state_at st1 (index camera)));
          cogl_push_matrix; clutter_actor_continue_paint; cogl_pop_matrix;
          cogl_pop_framebuffer; cogl_push_matrix; cogl_pop_matrix] /\
       last calls = Some (cogl_set_projection_matrix (fb_projection st)) /\
       forall fbs ms, nesting calls fbs ms = Some (fbs, ms)) /\
  (forall st1,
     clutter_offscreen_effect_pre_paint st = (false, st1) ->
     exists calls,
       log st1 = rev calls ++ log st /\
       List.filter is_stack_call calls = [] /\
       forall fbs ms, nesting calls fbs ms = Some (fbs, ms)).
Proof.
  intros camera. split.
  - intros st1 Hpre Ho Hp st2.
    destruct (pre_paint_shape st true st1 Hpre)
      as (st_u & l & Hl & Hs & Hw & _ & Hok).
    destruct (Hok eq_refl) as (Est1 & Hup & Ha). fold camera in Est1, Hup.
    destruct (actor (priv st)) as [a|] eqn:Hact; [clear Ha|contradiction].
    assert (Hau : actor (priv st_u) = Some a).
    { destruct Hw as (_ & -> & _). exact Hact. }
    assert (Hsu : stage st_u = stage st) by apply Hw.
    assert (Hpu : fb_projection st_u = fb_projection st) by apply Hw.
    destruct (redirect_opacity st_u camera a Hau) as [Hact1 _].
    pose proof (redirect_up_to_date st_u camera Hup) as Hup1.
    pose proof (redirect_stage st_u camera) as Hs1.
    pose proof (redirect_projection st_u camera) as Hp1.
    pose proof (redirect_log st_u camera) as Hlog1. cbv zeta in Hlog1.
    destruct (redirect_handles st_u camera) as (Ho1 & _). cbv zeta in Ho1.
    rewrite <- Est1 in Hact1, Hup1, Hs1, Hp1, Hlog1, Ho1.
    rewrite Hsu in Hs1. rewrite Hpu in Hp1.
    set (st1' := emit clutter_actor_continue_paint st1) in *.
    assert (Hcam1 : _clutter_stage_get_current_camera (stage st1') = camera).
    { unfold st1'. cbn [emit stage]. rewrite Hs1. reflexivity. }
    unfold st2.
    rewrite (post_paint_restores st1'
               (mkActor 255 (paint_box a) (paint_opacity a)));
      rewrite ?Hcam1; [|exact Hup1|exact Ho|exact Hp|exact Hact1].
    set (st3 := emit cogl_pop_framebuffer
                  (emit cogl_pop_matrix
                     (_clutter_actor_set_opacity_override
                        (old_opacity_override (priv st1')) st1'))).
    pose proof (same_cache_set_opacity (old_opacity_override (priv st1')) st1')
      as Hc3.
    assert (Hs3 : stage st3 = stage st).
    { unfold st3. cbn [emit stage]. destruct Hc3 as (_ & _ & -> & _).
      unfold st1'. cbn [emit stage]. exact Hs1. }
    assert (Hup3 : up_to_date st3 (index camera)).
    { unfold st3. destruct Hup1 as [G A].
      destruct Hc3 as (C1 & C2 & C3 & _). split.
      - cbn [emit stage priv]. rewrite C3, C2. exact G.
      - intros cs. cbn [emit priv]. rewrite C1. intros Hcs.
        unfold camera_age. cbn [emit stage]. rewrite C3.
        exact (A cs Hcs). }
    assert (Hlog3 : log st3 =
              cogl_pop_framebuffer :: cogl_pop_matrix ::
              clutter_actor_continue_paint :: log st1).
    { unfold st3, st1', _clutter_actor_set_opacity_override.
      cbn [emit log priv]. destruct (actor (priv st1)); reflexivity. }
    assert (Hp3 : fb_projection st3 = fb_projection st).
    { unfold st3, st1', _clutter_actor_set_opacity_override.
      cbn [emit fb_projection priv].
      destruct (actor (priv st1)); cbn [fb_projection]; exact Hp1. }
    pose proof (paint_texture_log st3) as Hpt. cbv zeta in Hpt.
    rewrite Hs3 in Hpt. fold camera in Hpt.
    destruct (Hpt Hup3) as (_ & _ & Hlog4). clear Hpt.
    rewrite Hlog4, Hlog3, Hlog1, Hl, Hp3.
    match goal with
    | |- exists calls, ?a ++ ?b :: ?c :: ?d :: ?e ++ l ++ log st = _ /\ _ =>
        exists (rev l ++ rev e ++ [d; c; b] ++ rev a)
    end.
    split.
    { rewrite !rev_app_distr, !rev_involutive.
      cbn [rev app]. rewrite <- ?app_assoc. reflexivity. }
    cbn [rev app].
    assert (Hsr : forallb is_setup (rev l) = true)
      by (apply forallb_rev_setup; exact Hs).
    split; [|split].
    + rewrite List.filter_app, (filter_setup _ Hsr).
      cbn [app List.filter is_stack_call].
      unfold expanded_viewport. cbn [is_stack_call].
      rewrite Ho1. reflexivity.
    + rewrite last_app. reflexivity.
    + intros fbs ms.
      rewrite (nesting_app _ _ fbs ms fbs ms) by (apply nesting_setup; exact Hsr).
      unfold expanded_viewport. reflexivity.
  - intros st1 Hpre.
    destruct (pre_paint_shape st false st1 Hpre)
      as (st_u & l & Hl & Hs & _ & Hf & _).
    rewrite (Hf eq_refl). exists (rev l).
    assert (Hsr : forallb is_setup (rev l) = true)
      by (apply forallb_rev_setup; exact Hs).
    rewrite rev_involutive.
    split; [exact Hl|]. split; [apply filter_setup; exact Hsr|].
    intros fbs ms. apply nesting_setup. exact Hsr.
Qed.

End WithMatrix.

Import Scenario.

Lemma paint_cycle_restores_stacks_witness :
  let st := state0 empty_context actor0 in
  let camera := _clutter_stage_get_current_camera (stage st) in
  let st2 := clutter_offscreen_effect_post_paint
               (emit clutter_actor_continue_paint painted) in
  let bad := state0 no_texture_context actor0 in
  let bad1 := snd (clutter_offscreen_effect_pre_paint bad) in
  clutter_offscreen_effect_pre_paint st = (true, painted) /\
  offscreen (camera_state_at painted (index camera)) <> None /\
  pipeline (camera_state_at painted (index camera)) <> None /\
  (exists calls,
     log st2 = rev calls ++ log st /\
     List.filter is_stack_call calls =
       [cogl_push_framebuffer (offscreen (camera_state_at painted (index camera)));
        cogl_push_matrix; clutter_actor_continue_paint; cogl_pop_matrix;
        cogl_pop_framebuffer; cogl_push_matrix; cogl_pop_matrix] /\
     last calls = Some (cogl_set_projection_matrix (fb_projection st)) /\
     forall fbs ms, nesting calls fbs ms = Some (fbs, ms)) /\
  clutter_offscreen_effect_pre_paint bad = (false, bad1) /\
  (exists calls,
     log bad1 = rev calls ++ log bad /\
     List.filter is_stack_call calls = [] /\
     forall fbs ms, nesting calls fbs ms = Some (fbs, ms)).
Proof.
  intros st camera st2 bad bad1.
  assert (Hpre : clutter_offscreen_effect_pre_paint st = (true, painted)).
  { unfold painted. fold st.
    rewrite (surjective_pairing (clutter_offscreen_effect_pre_paint st)) at 1.
    f_equal; vm_compute; reflexivity. }
  assert (Ho : offscreen (camera_state_at painted (index camera)) <> None)
    by (vm_compute; discriminate).
  assert (Hp : pipeline (camera_state_at painted (index camera)) <> None)
    by (vm_compute; discriminate).
  assert (Hbad : clutter_offscreen_effect_pre_paint bad = (false, bad1)).
  { unfold bad1.
    rewrite (surjective_pairing (clutter_offscreen_effect_pre_paint bad)) at 1.
    f_equal; vm_compute; reflexivity. }
  destruct (paint_cycle_restores_stacks st) as [W _].
  destruct (paint_cycle_restores_stacks bad) as [_ V].
  split; [exact Hpre|]. split; [exact Ho|]. split; [exact Hp|].
  split; [exact (W painted Hpre Ho Hp)|].
  split; [exact Hbad | exact (V bad1 Hbad)].
Defined.

End PaintCycleFacts.


Module BlurFacts.
Import Cogl Blur.

(** *** The kernel *)

(** The radius is the integer quotient by two of the ceiling of [6 sigma]. *)
Lemma kernel_radius_div (sigma : gfloat) :
  kernel_radius sigma = Qceiling (6 * sigma) / 2.
Proof.
  unfold kernel_radius. symmetry. apply (Zdiv_Qdiv (Qceiling (6 * sigma)) 2).
Qed.


Lemma kernel_indices_length (radius : Z) :
  length (kernel_indices radius) = Z.to_nat (2 * radius + 1).
Proof. unfold kernel_indices. rewrite length_map, length_seq. reflexivity. Qed.

Lemma kernel_factors_length (sigma : R) (radius : Z) :
  0 <= radius ->
  length (kernel_factors sigma radius) = Z.to_nat (2 * radius + 1).
Proof.
  intros Hr. unfold kernel_factors. destruct (radius =? 0) eqn:E.
  - apply Z.eqb_eq in E. subst radius. reflexivity.
  - cbv zeta. rewrite !length_map. apply kernel_indices_length.
Qed.








(** *** Pipelines and the cache *)

(** Updating a pipeline keeps the context and the cache, and the fields of
    every pipeline that the update function keeps. *)
Lemma pipeline_at_update (w : World) (p : option CoglHandle)
    (f : Pipeline -> Pipeline) (h : CoglHandle) :
  pipeline_at (update_pipeline p f w) h =
    if bool_decide (p = Some h) then f (pipeline_at w h) else pipeline_at w h.
Proof.
  unfold update_pipeline, pipeline_at. destruct p as [q|]; simpl.
  - case_bool_decide as E.
    + injection E as ->. rewrite lookup_insert_eq. reflexivity.
    + rewrite lookup_insert_ne by congruence. reflexivity.
  - reflexivity.
Qed.

Lemma update_pipeline_frame (w : World) (p : option CoglHandle)
    (f : Pipeline -> Pipeline) :
  ctx (update_pipeline p f w) = ctx w /\
  pipeline_cache (update_pipeline p f w) = pipeline_cache w /\
  uniform_location (update_pipeline p f w) = uniform_location w.
Proof. destruct p; repeat split. Qed.

(** The base pipeline of a radius: the cached one, or else a new one. *)
Lemma get_blur_pipeline_cached (w : World) (r : Z) :
  pipeline_cache (snd (get_blur_pipeline w r)) !! r =
    Some (fst (get_blur_pipeline w r)).
Proof.
  unfold get_blur_pipeline.
  destruct (pipeline_cache w !! r) as [p|] eqn:E; simpl.
  - exact E.
  - apply lookup_insert_eq.
Qed.

(** [keeps w w']: [w'] has the objects of [w], each pipeline of [w] with
    the base it had, and the same cache. *)
Definition keeps (w w' : World) : Prop :=
  (next_handle (ctx w) <= next_handle (ctx w'))%positive /\
  (forall h, (h < next_handle (ctx w))%positive ->
             base (pipeline_at w' h) = base (pipeline_at w h)) /\
  pipeline_cache w' = pipeline_cache w /\
  uniform_location w' = uniform_location w.

(** [extends w w']: the same, but the cache may have new entries. *)
Definition extends (w w' : World) : Prop :=
  (next_handle (ctx w) <= next_handle (ctx w'))%positive /\
  (forall h, (h < next_handle (ctx w))%positive ->
             base (pipeline_at w' h) = base (pipeline_at w h)) /\
  (forall r p, pipeline_cache w !! r = Some p -> pipeline_cache w' !! r = Some p) /\
  uniform_location w' = uniform_location w.

Lemma keeps_refl (w : World) : keeps w w.
Proof. repeat split; auto. lia. Qed.

Lemma keeps_trans (w1 w2 w3 : World) :
  keeps w1 w2 -> keeps w2 w3 -> keeps w1 w3.
Proof.
  intros (a1 & a2 & a3 & a4) (b1 & b2 & b3 & b4). repeat split.
  - lia.
  - intros h Hh. rewrite b2 by lia. apply a2. exact Hh.
  - congruence.
  - congruence.
Qed.

Lemma keeps_extends (w w' : World) : keeps w w' -> extends w w'.
Proof.
  intros (a1 & a2 & a3 & a4). repeat split; auto.
  intros r p. rewrite a3. auto.
Qed.

Lemma extends_refl (w : World) : extends w w.
Proof. apply keeps_extends, keeps_refl. Qed.

Lemma extends_trans (w1 w2 w3 : World) :
  extends w1 w2 -> extends w2 w3 -> extends w1 w3.
Proof.
  intros (a1 & a2 & a3 & a4) (b1 & b2 & b3 & b4). repeat split.
  - lia.
  - intros h Hh. rewrite b2 by lia. apply a2. exact Hh.
  - auto.
  - congruence.
Qed.

Lemma keeps_update (w : World) (p : option CoglHandle) (f : Pipeline -> Pipeline) :
  (forall d, base (f d) = base d) -> keeps w (update_pipeline p f w).
Proof.
  intros Hf. destruct (update_pipeline_frame w p f) as (Hc & Hk & Hu).
  repeat split.
  - rewrite Hc. lia.
  - intros h _. rewrite pipeline_at_update. case_bool_decide; auto.
  - exact Hk.
  - exact Hu.
Qed.

Lemma keeps_set_uniform_float (w : World) p l v :
  keeps w (cogl_pipeline_set_uniform_float p l v w).
Proof. apply keeps_update. reflexivity. Qed.

Lemma keeps_update_horizontal (self : ClutterBlurEffect) (w : World) :
  keeps w (update_horizontal_pipeline_texture self w).
Proof.
  unfold update_horizontal_pipeline_texture. cbv zeta.
  eapply keeps_trans; [|apply keeps_set_uniform_float].
  apply keeps_update. reflexivity.
Qed.

Lemma keeps_update_vertical (self : ClutterBlurEffect) (w : World) :
  keeps w (update_vertical_pipeline_texture self w).
Proof.
  unfold update_vertical_pipeline_texture. cbv zeta.
  eapply keeps_trans; [|apply keeps_set_uniform_float].
  apply keeps_update. reflexivity.
Qed.

Lemma keeps_set_blend (w : World) p b :
  keeps w (cogl_pipeline_set_blend p b w).
Proof. apply keeps_update. reflexivity. Qed.

Lemma keeps_unref (w : World) p : keeps w (unref_pipeline p w).
Proof. destruct p; repeat split; auto; simpl; lia. Qed.

Lemma keeps_copy (w : World) (src : CoglHandle) :
  keeps w (snd (cogl_pipeline_copy src w)).
Proof.
  unfold cogl_pipeline_copy, new_object. simpl. repeat split; simpl; auto.
  - lia.
  - intros h Hh. unfold pipeline_at. simpl.
    rewrite lookup_insert_ne by lia. reflexivity.
Qed.

Lemma copy_spec (w : World) (src : CoglHandle) :
  let r := cogl_pipeline_copy src w in
  fst r = next_handle (ctx w) /\
  next_handle (ctx (snd r)) = Pos.succ (next_handle (ctx w)) /\
  base (pipeline_at (snd r) (fst r)) = Some src.
Proof.
  unfold cogl_pipeline_copy, new_object, pipeline_at. simpl.
  rewrite lookup_insert_eq. repeat split.
Qed.

(** The cache maps different radii to different pipelines, all of them
    allocated. *)
Definition cache_wf (w : World) : Prop :=
  (forall r p, pipeline_cache w !! r = Some p ->
               (p < next_handle (ctx w))%positive) /\
  (forall r1 r2 p, pipeline_cache w !! r1 = Some p ->
                   pipeline_cache w !! r2 = Some p -> r1 = r2).

Lemma cache_wf_keeps (w w' : World) : cache_wf w -> keeps w w' -> cache_wf w'.
Proof.
  intros [Hlt Hinj] (Hn & _ & Hc & _). split.
  - intros r p. rewrite Hc. intros Hl. specialize (Hlt r p Hl). lia.
  - intros r1 r2 p. rewrite Hc. apply Hinj.
Qed.

Lemma get_blur_pipeline_spec (w : World) (r : Z) :
  let b := fst (get_blur_pipeline w r) in
  let wb := snd (get_blur_pipeline w r) in
  extends w wb /\ (cache_wf w -> cache_wf wb) /\
  pipeline_cache wb !! r = Some b /\
  (is_Some (pipeline_cache w !! r) -> wb = w).
Proof.
  unfold get_blur_pipeline.
  destruct (pipeline_cache w !! r) as [p|] eqn:E; simpl.
  - split; [apply extends_refl|]. split; [tauto|]. split; [exact E|].
    reflexivity.
  - split; [|split; [|split]].
    + repeat split; simpl; auto.
      * lia.
      * intros h Hh. unfold pipeline_at. simpl.
        rewrite lookup_insert_ne by lia. reflexivity.
      * intros r' p Hl. rewrite lookup_insert_ne by congruence. exact Hl.
    + intros [Hlt Hinj]. split; simpl.
      * intros r' p. destruct (decide (r' = r)) as [->|Hne].
        -- rewrite lookup_insert_eq. intros [= <-]. lia.
        -- rewrite lookup_insert_ne by congruence. intros Hl.
           specialize (Hlt r' p Hl). lia.
      * intros r1 r2 p.
        destruct (decide (r1 = r)) as [->|Hn1], (decide (r2 = r)) as [->|Hn2];
          rewrite ?lookup_insert_eq, ?lookup_insert_ne by congruence.
        -- reflexivity.
        -- intros [= <-] Hl. specialize (Hlt r2 _ Hl). lia.
        -- intros Hl [= <-]. specialize (Hlt r1 _ Hl). lia.
        -- apply Hinj.
    + apply lookup_insert_eq.
    + intros [x Hx]. discriminate.
Qed.

(** The two pipelines of an instance are copies of the base pipeline the
    cache holds for the radius. *)
Lemma create_pipelines_spec (w : World) (self : ClutterBlurEffect) (r : Z) :
  let res := create_pipelines w self r in
  exists hp vp b,
    horizontal_pipeline (snd res) = Some hp /\
    vertical_pipeline (snd res) = Some vp /\
    base (pipeline_at (fst res) hp) = Some b /\
    base (pipeline_at (fst res) vp) = Some b /\
    pipeline_cache (fst res) !! r = Some b /\
    (hp < next_handle (ctx (fst res)))%positive /\
    (vp < next_handle (ctx (fst res)))%positive /\
    extends w (fst res) /\ (cache_wf w -> cache_wf (fst res)).
Proof.
  unfold create_pipelines.
  destruct (get_blur_pipeline_spec w r) as (Hext & Hwf & Hcache & _).
  destruct (get_blur_pipeline w r) as [b wb]. cbn [fst snd] in *.
  destruct (copy_spec wb b) as (Hh & Hn1 & Hb1).
  pose proof (keeps_copy wb b) as K1.
  destruct (cogl_pipeline_copy b wb) as [hp w1]. cbn [fst snd] in *.
  set (self1 := set_horizontal (Some hp) _ _ self).
  pose proof (keeps_update_horizontal self1 w1) as K2.
  set (w2 := update_horizontal_pipeline_texture self1 w1) in *.
  destruct (copy_spec w2 b) as (Hv & Hn3 & Hb3).
  pose proof (keeps_copy w2 b) as K3.
  destruct (cogl_pipeline_copy b w2) as [vp w3]. cbn [fst snd] in *.
  set (self2 := set_vertical (Some vp) _ _ self1).
  pose proof (keeps_update_vertical self2 w3) as K4.
  set (w4 := update_vertical_pipeline_texture self2 w3) in *.
  pose proof (keeps_set_blend w4 (horizontal_pipeline self2)
                "RGBA = ADD (SRC_COLOR, 0)") as K5.
  set (w5 := cogl_pipeline_set_blend _ _ w4) in *.
  assert (K35 : keeps w3 w5) by (eapply keeps_trans; eassumption).
  assert (K15 : keeps w1 w5).
  { eapply keeps_trans; [exact K2|]. eapply keeps_trans; eassumption. }
  assert (Kb5 : keeps wb w5) by (eapply keeps_trans; eassumption).
  exists hp, vp, b. cbn [fst snd].
  split; [reflexivity|]. split; [reflexivity|].
  destruct K15 as (L15 & B15 & _). destruct K35 as (L35 & B35 & _).
  split; [rewrite B15 by (rewrite Hn1, Hh; lia); exact Hb1|].
  split; [rewrite B35 by (rewrite Hn3, Hv; lia); exact Hb3|].
  split; [destruct Kb5 as (_ & _ & -> & _); exact Hcache|].
  split; [rewrite Hh; rewrite Hn1 in L15; lia|].
  split; [rewrite Hv; rewrite Hn3 in L35; lia|].
  split; [eapply extends_trans; [exact Hext | apply keeps_extends; exact Kb5]|].
  intros Hw. eapply cache_wf_keeps; [apply Hwf; exact Hw | exact Kb5].
Qed.

(** *** [clutter_blur_effect_set_sigma_real] *)

#[local] Arguments kernel_radius : simpl never.
#[local] Arguments kernel_factors : simpl never.

Lemma kernel_radius_Qeq (s t : gfloat) :
  (s == t)%Q -> kernel_radius s = kernel_radius t.
Proof. intros E. unfold kernel_radius. rewrite E. reflexivity. Qed.

(** The pipeline that a pipeline of an instance is a copy of. *)
Definition base_of (w : World) (p : option CoglHandle) : option CoglHandle :=
  match p with
  | Some h => base (pipeline_at w h)
  | None => None
  end.

(** An instance as [clutter_blur_effect_set_sigma_real] leaves it: the
    radius is the one of its sigma, and its two pipelines are copies of
    the pipeline the cache holds for that radius. *)
Definition linked (w : World) (self : ClutterBlurEffect) : Prop :=
  radius self = kernel_radius (sigma self) /\
  exists hp vp b,
    horizontal_pipeline self = Some hp /\
    vertical_pipeline self = Some vp /\
    (hp < next_handle (ctx w))%positive /\
    (vp < next_handle (ctx w))%positive /\
    base (pipeline_at w hp) = Some b /\
    base (pipeline_at w vp) = Some b /\
    pipeline_cache w !! radius self = Some b.

Lemma linked_extends (w w' : World) (self : ClutterBlurEffect) :
  extends w w' -> linked w self -> linked w' self.
Proof.
  intros (Hn & Hb & Hc & _)
         (Hr & hp & vp & b & H1 & H2 & H3 & H4 & H5 & H6 & H7).
  split; [exact Hr|]. exists hp, vp, b.
  split; [exact H1|]. split; [exact H2|].
  split; [lia|]. split; [lia|].
  split; [rewrite Hb by exact H3; exact H5|].
  split; [rewrite Hb by exact H4; exact H6|].
  apply Hc. exact H7.
Qed.

(** Instances with the same radius have the same base pipeline, instances
    with different radii different ones. *)
Lemma linked_share (w : World) (a b : ClutterBlurEffect) :
  cache_wf w -> linked w a -> linked w b ->
  base_of w (horizontal_pipeline a) = pipeline_cache w !! radius a /\
  base_of w (vertical_pipeline a) = pipeline_cache w !! radius a /\
  is_Some (pipeline_cache w !! radius a) /\
  (radius a = radius b ->
     base_of w (horizontal_pipeline a) = base_of w (horizontal_pipeline b) /\
     base_of w (vertical_pipeline a) = base_of w (vertical_pipeline b)) /\
  (radius a <> radius b ->
     base_of w (horizontal_pipeline a) <> base_of w (horizontal_pipeline b) /\
     base_of w (vertical_pipeline a) <> base_of w (vertical_pipeline b)).
Proof.
  intros [_ Hinj]
         (_ & hp & vp & p & A1 & A2 & _ & _ & A5 & A6 & A7)
         (_ & hq & vq & q & B1 & B2 & _ & _ & B5 & B6 & B7).
  rewrite A1, A2, B1, B2. unfold base_of. rewrite A5, A6, B5, B6, A7.
  split; [reflexivity|]. split; [reflexivity|]. split; [eexists; reflexivity|].
  split.
  - intros E. rewrite E in A7. rewrite A7 in B7. injection B7 as ->.
    split; reflexivity.
  - intros Hne.
    assert (Hpq : p <> q).
    { intros ->. apply Hne. exact (Hinj _ _ _ A7 B7). }
    split; congruence.
Qed.

(** The two calls of [cogl_pipeline_set_uniform_float] that hand the
    weights to the pipelines of the instance. *)
Definition upload (self : ClutterBlurEffect) (k : list R) (w : World) : World :=
  cogl_pipeline_set_uniform_float (vertical_pipeline self)
    (vertical_factors_uniform self) k
    (cogl_pipeline_set_uniform_float (horizontal_pipeline self)
       (horizontal_factors_uniform self) k w).

Lemma upload_keeps (self : ClutterBlurEffect) (k : list R) (w : World) :
  keeps w (upload self k w).
Proof. unfold upload. eapply keeps_trans; apply keeps_set_uniform_float. Qed.

Lemma upload_frame (self : ClutterBlurEffect) (k : list R) (w : World) :
  ctx (upload self k w) = ctx w /\
  forall h,
    base (pipeline_at (upload self k w) h) = base (pipeline_at w h) /\
    snippet_declarations (pipeline_at (upload self k w) h) =
      snippet_declarations (pipeline_at w h) /\
    snippet_replace (pipeline_at (upload self k w) h) =
      snippet_replace (pipeline_at w h) /\
    layer_texture (pipeline_at (upload self k w) h) =
      layer_texture (pipeline_at w h) /\
    blend (pipeline_at (upload self k w) h) = blend (pipeline_at w h).
Proof.
  unfold upload, cogl_pipeline_set_uniform_float. split.
  - rewrite (proj1 (update_pipeline_frame _ _ _)).
    apply (proj1 (update_pipeline_frame _ _ _)).
  - intros h. rewrite !pipeline_at_update.
    repeat case_bool_decide; cbn; repeat split.
Qed.

Lemma upload_uniform (self : ClutterBlurEffect) (k : list R) (w : World) :
  (forall hp, horizontal_pipeline self = Some hp ->
     uniform_float (pipeline_at (upload self k w) hp)
       !! horizontal_factors_uniform self = Some k) /\
  (forall vp, vertical_pipeline self = Some vp ->
     uniform_float (pipeline_at (upload self k w) vp)
       !! vertical_factors_uniform self = Some k).
Proof.
  unfold upload, cogl_pipeline_set_uniform_float. split.
  - intros hp E. rewrite E, !pipeline_at_update.
    rewrite (bool_decide_eq_true_2 (Some hp = Some hp)) by reflexivity.
    case_bool_decide; cbn.
    + destruct (decide (vertical_factors_uniform self =
                        horizontal_factors_uniform self)) as [->|Hne].
      * apply lookup_insert_eq.
      * rewrite lookup_insert_ne by exact Hne. apply lookup_insert_eq.
    + apply lookup_insert_eq.
  - intros vp E. rewrite E, pipeline_at_update.
    rewrite bool_decide_eq_true_2 by reflexivity. cbn.
    apply lookup_insert_eq.
Qed.

(** The three ways through [clutter_blur_effect_set_sigma_real]. *)
Lemma set_sigma_real_same (w : World) (self : ClutterBlurEffect) (s : gfloat) :
  Qeq_bool (sigma self) s = true ->
  clutter_blur_effect_set_sigma_real w self s = (w, self).
Proof.
  intros Hq. unfold clutter_blur_effect_set_sigma_real. rewrite Hq. reflexivity.
Qed.

Lemma set_sigma_real_kept (w : World) (self : ClutterBlurEffect) (s : gfloat) :
  Qeq_bool (sigma self) s = false ->
  is_Some (horizontal_pipeline self) ->
  kernel_radius s = radius self ->
  clutter_blur_effect_set_sigma_real w self s =
    (upload self (kernel_factors (Q2R s) (kernel_radius s)) w,
     set_kernel s (kernel_radius s) self).
Proof.
  intros Hq [hp Hh] Hr. unfold clutter_blur_effect_set_sigma_real.
  rewrite Hq. cbv zeta.
  rewrite (bool_decide_eq_false_2 (kernel_radius s <> radius self))
    by (intros X; apply X; exact Hr).
  rewrite andb_false_r. rewrite Hh. reflexivity.
Qed.

Lemma set_sigma_real_fresh (w : World) (self : ClutterBlurEffect) (s : gfloat) :
  Qeq_bool (sigma self) s = false ->
  horizontal_pipeline self = None \/ kernel_radius s <> radius self ->
  exists w0 self0,
    keeps w w0 /\
    clutter_blur_effect_set_sigma_real w self s =
      (upload (snd (create_pipelines w0 self0 (kernel_radius s)))
         (kernel_factors (Q2R s) (kernel_radius s))
         (fst (create_pipelines w0 self0 (kernel_radius s))),
       set_kernel s (kernel_radius s)
         (snd (create_pipelines w0 self0 (kernel_radius s)))).
Proof.
  intros Hq Hc. unfold clutter_blur_effect_set_sigma_real.
  rewrite Hq. cbv zeta.
  destruct (horizontal_pipeline self) as [hp|] eqn:Hh.
  - destruct Hc as [Hc|Hc]; [discriminate|].
    rewrite (bool_decide_eq_true_2 (Some hp <> None)) by discriminate.
    rewrite (bool_decide_eq_true_2 (kernel_radius s <> radius self)) by exact Hc.
    cbn [andb horizontal_pipeline set_vertical set_horizontal].
    match goal with
    | |- context [create_pipelines ?a ?b _] => exists a, b
    end.
    split; [|destruct (create_pipelines _ _ _); reflexivity].
    eapply keeps_trans; apply keeps_unref.
  - rewrite (bool_decide_eq_false_2 (None <> None))
      by (intros X; apply X; reflexivity).
    cbn [andb]. rewrite Hh.
    exists w, self. split; [apply keeps_refl|].
    destruct (create_pipelines _ _ _); reflexivity.
Qed.

Lemma set_sigma_real_fresh_spec (w : World) (self : ClutterBlurEffect)
    (s : gfloat) :
  Qeq_bool (sigma self) s = false ->
  horizontal_pipeline self = None \/ kernel_radius s <> radius self ->
  extends w (fst (clutter_blur_effect_set_sigma_real w self s)) /\
  (cache_wf w -> cache_wf (fst (clutter_blur_effect_set_sigma_real w self s))) /\
  linked (fst (clutter_blur_effect_set_sigma_real w self s))
         (snd (clutter_blur_effect_set_sigma_real w self s)).
Proof.
  intros Hq Hc.
  destruct (set_sigma_real_fresh w self s Hq Hc) as (w0 & self0 & K & ->).
  destruct (create_pipelines_spec w0 self0 (kernel_radius s))
    as (hp & vp & b & H1 & H2 & H3 & H4 & H5 & H6 & H7 & Hext & Hwf).
  destruct (create_pipelines w0 self0 (kernel_radius s)) as [w1 self1].
  cbn [fst snd] in *.
  pose proof (upload_keeps self1 (kernel_factors (Q2R s) (kernel_radius s)) w1)
    as Ku.
  split; [|split].
  - eapply extends_trans; [apply keeps_extends; exact K|].
    eapply extends_trans; [exact Hext|]. apply keeps_extends. exact Ku.
  - intros Hw. eapply cache_wf_keeps; [|exact Ku].
    apply Hwf. eapply cache_wf_keeps; [exact Hw | exact K].
  - apply (linked_extends w1); [apply keeps_extends; exact Ku|].
    split; [reflexivity|]. exists hp, vp, b.
    split; [exact H1|]. split; [exact H2|].
    split; [exact H6|]. split; [exact H7|].
    split; [exact H3|]. split; [exact H4|]. exact H5.
Qed.

(** Every call keeps the instances linked. *)
Lemma set_sigma_real_linked (w : World) (self : ClutterBlurEffect) (s : gfloat) :
  cache_wf w -> linked w self ->
  extends w (fst (clutter_blur_effect_set_sigma_real w self s)) /\
  cache_wf (fst (clutter_blur_effect_set_sigma_real w self s)) /\
  linked (fst (clutter_blur_effect_set_sigma_real w self s))
         (snd (clutter_blur_effect_set_sigma_real w self s)) /\
  radius (snd (clutter_blur_effect_set_sigma_real w self s)) = kernel_radius s.
Proof.
  intros Hw Hl. destruct (Qeq_bool (sigma self) s) eqn:Hq.
  - rewrite set_sigma_real_same by exact Hq. cbn [fst snd].
    split; [apply extends_refl|]. split; [exact Hw|]. split; [exact Hl|].
    rewrite (proj1 Hl). apply kernel_radius_Qeq, Qeq_bool_iff. exact Hq.
  - destruct (decide (kernel_radius s = radius self)) as [Hr|Hr].
    + destruct Hl as (Hrs & hp & vp & b & H1 & H2 & H3 & H4 & H5 & H6 & H7).
      rewrite set_sigma_real_kept; [|exact Hq|rewrite H1; eexists; reflexivity|exact Hr].
      cbn [fst snd].
      pose proof (upload_keeps self (kernel_factors (Q2R s) (kernel_radius s)) w)
        as Ku.
      split; [apply keeps_extends; exact Ku|].
      split; [eapply cache_wf_keeps; [exact Hw | exact Ku]|].
      split; [|reflexivity].
      apply (linked_extends w); [apply keeps_extends; exact Ku|].
      split; [reflexivity|]. exists hp, vp, b.
      split; [exact H1|]. split; [exact H2|].
      split; [exact H3|]. split; [exact H4|].
      split; [exact H5|]. split; [exact H6|].
      cbn [radius set_kernel]. rewrite Hr. exact H7.
    + destruct (set_sigma_real_fresh_spec w self s Hq (or_intror Hr))
        as (He & Hc & Hk).
      split; [exact He|]. split; [exact (Hc Hw)|]. split; [exact Hk|].
      destruct (set_sigma_real_fresh w self s Hq (or_intror Hr))
        as (w0 & self0 & _ & ->).
      reflexivity.
Qed.

(** A new sigma with the radius the instance has: the pipelines stay, no
    object is made or released, the cache stays, and of the pipelines only
    the uniform values change. *)
Lemma set_sigma_real_keeps_pipelines (w : World) (self : ClutterBlurEffect)
    (s : gfloat) :
  is_Some (horizontal_pipeline self) ->
  kernel_radius s = radius self ->
  horizontal_pipeline (snd (clutter_blur_effect_set_sigma_real w self s)) =
    horizontal_pipeline self /\
  vertical_pipeline (snd (clutter_blur_effect_set_sigma_real w self s)) =
    vertical_pipeline self /\
  ctx (fst (clutter_blur_effect_set_sigma_real w self s)) = ctx w /\
  pipeline_cache (fst (clutter_blur_effect_set_sigma_real w self s)) =
    pipeline_cache w /\
  forall h,
    let d := pipeline_at w h in
    let d' := pipeline_at (fst (clutter_blur_effect_set_sigma_real w self s)) h in
    base d' = base d /\
    snippet_declarations d' = snippet_declarations d /\
    snippet_replace d' = snippet_replace d /\
    layer_texture d' = layer_texture d /\
    blend d' = blend d.
Proof.
  intros Hh Hr. destruct (Qeq_bool (sigma self) s) eqn:Hq.
  - rewrite set_sigma_real_same by exact Hq. cbn [fst snd]. repeat split.
  - rewrite set_sigma_real_kept by assumption. cbn [fst snd].
    destruct (upload_frame self (kernel_factors (Q2R s) (kernel_radius s)) w)
      as [Hc Hf].
    destruct (upload_keeps self (kernel_factors (Q2R s) (kernel_radius s)) w)
      as (_ & _ & Hk & _).
    split; [reflexivity|]. split; [reflexivity|].
    split; [exact Hc|]. split; [exact Hk|]. intros h. apply Hf.
Qed.

(** [clutter_blur_effect_init] links the new instance. *)
Lemma init_linked (w : World) :
  extends w (fst (clutter_blur_effect_init w)) /\
  (cache_wf w -> cache_wf (fst (clutter_blur_effect_init w))) /\
  linked (fst (clutter_blur_effect_init w)) (snd (clutter_blur_effect_init w)).
Proof.
  unfold clutter_blur_effect_init.
  apply set_sigma_real_fresh_spec; [reflexivity | left; reflexivity].
Qed.

(** After a call that does not return at once, the instance has the new
    sigma and radius and the pipelines have the weights. *)
Lemma set_sigma_real_uploads (w : World) (self : ClutterBlurEffect) (s : gfloat) :
  Qeq_bool (sigma self) s = false ->
  let res := clutter_blur_effect_set_sigma_real w self s in
  let k := kernel_factors (Q2R s) (kernel_radius s) in
  sigma (snd res) = s /\ radius (snd res) = kernel_radius s /\
  is_Some (horizontal_pipeline (snd res)) /\
  (forall hp, horizontal_pipeline (snd res) = Some hp ->
     uniform_float (pipeline_at (fst res) hp)
       !! horizontal_factors_uniform (snd res) = Some k) /\
  (forall vp, vertical_pipeline (snd res) = Some vp ->
     uniform_float (pipeline_at (fst res) vp)
       !! vertical_factors_uniform (snd res) = Some k).
Proof.
  intros Hq. cbv zeta.
  destruct (horizontal_pipeline self) as [hp|] eqn:Hh.
  - destruct (decide (kernel_radius s = radius self)) as [Hr|Hr].
    + rewrite set_sigma_real_kept;
        [|exact Hq|rewrite Hh; eexists; reflexivity|exact Hr].
      cbn [fst snd].
      destruct (upload_uniform self (kernel_factors (Q2R s) (kernel_radius s)) w)
        as [U1 U2].
      split; [reflexivity|]. split; [reflexivity|].
      split; [cbn; rewrite Hh; eexists; reflexivity|].
      split; [exact U1 | exact U2].
    + destruct (set_sigma_real_fresh w self s Hq (or_intror Hr))
        as (w0 & self0 & _ & ->).
      destruct (create_pipelines_spec w0 self0 (kernel_radius s))
        as (hp' & vp & b & H1 & _).
      destruct (create_pipelines w0 self0 (kernel_radius s)) as [w1 self1].
      cbn [fst snd] in *.
      destruct (upload_uniform self1 (kernel_factors (Q2R s) (kernel_radius s)) w1)
        as [U1 U2].
      split; [reflexivity|]. split; [reflexivity|].
      split; [cbn; rewrite H1; eexists; reflexivity|].
      split; [exact U1 | exact U2].
  - destruct (set_sigma_real_fresh w self s Hq (or_introl Hh))
      as (w0 & self0 & _ & ->).
    destruct (create_pipelines_spec w0 self0 (kernel_radius s))
      as (hp' & vp & b & H1 & _).
    destruct (create_pipelines w0 self0 (kernel_radius s)) as [w1 self1].
    cbn [fst snd] in *.
    destruct (upload_uniform self1 (kernel_factors (Q2R s) (kernel_radius s)) w1)
      as [U1 U2].
    split; [reflexivity|]. split; [reflexivity|].
    split; [cbn; rewrite H1; eexists; reflexivity|].
    split; [exact U1 | exact U2].
Qed.




(** C7.  [cache_wf]: the cache maps different radii to different
    pipelines; [linked]: the two pipelines of an instance are copies of
    the pipeline the cache holds for the radius of its sigma.  Starting
    from a cache with [cache_wf], [clutter_blur_effect_init] gives a
    linked instance, and every [clutter_blur_effect_set_sigma_real] keeps
    [cache_wf], links the instance to the radius of the new sigma and
    leaves every other instance linked.  So after a call the base
    pipeline of the instance is the cache's pipeline for its radius: it is
    the same object as the base pipeline of any other instance with that
    radius, and a different object from the base pipeline of any instance
    with another radius.  If the new sigma has the radius the instance
    already had, the call keeps the two pipelines of the instance, makes
    and releases no object, leaves the cache alone and changes no field
    of any pipeline other than its uniform values. *)
Theorem radius_cache_sharing (w : World) (a b : ClutterBlurEffect) (s : gfloat) :
  cache_wf w ->
  (let w' := fst (clutter_blur_effect_init w) in
   let c := snd (clutter_blur_effect_init w) in
   cache_wf w' /\ linked w' c /\ (linked w b -> linked w' b)) /\
  (linked w a -> linked w b ->
   let w' := fst (clutter_blur_effect_set_sigma_real w a s) in
   let a' := snd (clutter_blur_effect_set_sigma_real w a s) in
   (cache_wf w' /\ linked w' a' /\ linked w' b) /\
   radius a' = kernel_radius s /\
   (base_of w' (horizontal_pipeline a') = pipeline_cache w' !! radius a' /\
    base_of w' (vertical_pipeline a') = pipeline_cache w' !! radius a' /\
    is_Some (pipeline_cache w' !! radius a')) /\
   (radius a' = radius b ->
      base_of w' (horizontal_pipeline a') = base_of w' (horizontal_pipeline b) /\
      base_of w' (vertical_pipeline a') = base_of w' (vertical_pipeline b)) /\
   (radius a' <> radius b ->
      base_of w' (horizontal_pipeline a') <> base_of w' (horizontal_pipeline b) /\
      base_of w' (vertical_pipeline a') <> base_of w' (vertical_pipeline b)) /\
   (kernel_radius s = radius a ->
      horizontal_pipeline a' = horizontal_pipeline a /\
      vertical_pipeline a' = vertical_pipeline a /\
      ctx w' = ctx w /\
      pipeline_cache w' = pipeline_cache w /\
      forall h,
        let d := pipeline_at w h in
        let d' := pipeline_at w' h in
        base d' = base d /\
        snippet_declarations d' = snippet_declarations d /\
        snippet_replace d' = snippet_replace d /\
        layer_texture d' = layer_texture d /\
        blend d' = blend d)).
Proof.
  intros Hw. split.
  - destruct (init_linked w) as (He & Hc & Hl). cbv zeta.
    split; [exact (Hc Hw)|]. split; [exact Hl|].
    intros Hb. exact (linked_extends _ _ _ He Hb).
  - intros Ha Hb w' a'.
    destruct (set_sigma_real_linked w a s Hw Ha) as (He & Hc & Hl & Hr).
    fold w' in He, Hc, Hl. fold a' in Hl, Hr.
    pose proof (linked_extends _ _ _ He Hb) as Hb'.
    destruct (linked_share w' a' b Hc Hl Hb') as (S1 & S2 & S3 & S4 & S5).
    split; [split; [exact Hc|split; [exact Hl|exact Hb']]|].
    split; [exact Hr|].
    split; [split; [exact S1|split; [exact S2|exact S3]]|].
    split; [exact S4|]. split; [exact S5|].
    intros Hk. apply set_sigma_real_keeps_pipelines; [|exact Hk].
    destruct Ha as (_ & hp & _ & _ & H1 & _). rewrite H1. eexists; reflexivity.
Qed.

Section WithMatrix.

Context {CoglMatrix : Type} `{CoglMatrixAPI CoglMatrix}.

Local Abbreviation State := (@Offscreen.State CoglMatrix).

(** A disabled effect: [pre_paint] returns [FALSE] before it looks at
    anything else, and changes nothing. *)
Lemma pre_paint_disabled (glsl : bool) (self : ClutterBlurEffect) (parent : State) :
  Offscreen.meta_enabled parent = false ->
  clutter_blur_effect_pre_paint glsl self parent = (false, self, parent).
Proof.
  intros He. unfold clutter_blur_effect_pre_paint. rewrite He. reflexivity.
Qed.

Lemma pre_paints_disabled (answers : list bool) (self : ClutterBlurEffect)
    (parent : State) :
  Offscreen.meta_enabled parent = false ->
  Forall (fun ok => ok = false) (pre_paints answers self parent).
Proof.
  intros He. induction answers as [|glsl answers IH]; simpl.
  - constructor.
  - rewrite (pre_paint_disabled glsl self parent He). constructor; [reflexivity|].
    exact IH.
Qed.

(** C10.  When the effect is enabled and attached to an actor and GLSL
    is not available, [pre_paint] returns [FALSE], emits a warning and
    clears the [enabled] flag of the effect.  From then on every
    [pre_paint] returns [FALSE] at its first test, whatever the feature
    check would answer, and leaves the flag cleared. *)
Theorem glsl_unavailable_disables (self : ClutterBlurEffect) (parent : State) :
  Offscreen.meta_enabled parent = true ->
  Offscreen.actor (Offscreen.priv parent) <> None ->
  let r := clutter_blur_effect_pre_paint false self parent in
  let self1 := snd (fst r) in
  let parent1 := snd r in
  fst (fst r) = false /\
  Offscreen.meta_enabled parent1 = false /\
  (exists msg, head (Offscreen.log parent1) = Some (Offscreen.g_warning msg)) /\
  (forall glsl self2,
     clutter_blur_effect_pre_paint glsl self2 parent1 = (false, self2, parent1)) /\
  (forall answers self2,
     Forall (fun ok => ok = false) (pre_paints answers self2 parent1)).
Proof.
  intros He Ha r self1 parent1.
  assert (Hr : r = (false,
                    set_blur_actor (Some tt) self,
                    Offscreen.set_meta_enabled false
                      (Offscreen.emit
                         (Offscreen.g_warning
                            "Unable to use the ShaderEffect: the graphics hardware or the current GL driver does not implement support for the GLSL shading language.")
                         parent))).
  { unfold r, clutter_blur_effect_pre_paint. rewrite He. cbn [negb].
    destruct (Offscreen.actor (Offscreen.priv parent)); [reflexivity|contradiction]. }
  assert (Hd : Offscreen.meta_enabled parent1 = false).
  { unfold parent1. rewrite Hr. reflexivity. }
  split; [rewrite Hr; reflexivity|]. split; [exact Hd|].
  split; [unfold parent1; rewrite Hr; eexists; reflexivity|].
  split.
  - intros glsl self2. apply pre_paint_disabled. exact Hd.
  - intros answers self2. apply pre_paints_disabled. exact Hd.
Qed.

End WithMatrix.

Import Scenario.

Lemma glsl_unavailable_disables_witness :
  let parent := state0 empty_context actor0 in
  let r := clutter_blur_effect_pre_paint false zeroed parent in
  fst (fst r) = false /\
  Offscreen.meta_enabled (snd r) = false /\
  pre_paints [true; false; true] (snd (fst r)) (snd r) = [false; false; false].
Proof.
  intros parent r.
  assert (H1 : Offscreen.meta_enabled parent = true) by reflexivity.
  assert (H2 : Offscreen.actor (Offscreen.priv parent) <> None)
    by (vm_compute; discriminate).
  pose proof (glsl_unavailable_disables zeroed parent H1 H2)
    as (W1 & W2 & _ & _ & W3).
  split; [exact W1|]. split; [exact W2|].
  specialize (W3 [true; false; true] (snd (fst r))).
  vm_compute. reflexivity.
Defined.


Lemma radius_cache_sharing_witness :
  let w := fst blur_b in
  let a := snd blur_a in
  let b := snd blur_b in
  let same := clutter_blur_effect_set_sigma_real w a 1%Q in
  let other := clutter_blur_effect_set_sigma_real w a 2%Q in
  cache_wf w /\ linked w a /\ linked w b /\
  radius (snd same) = radius b /\
  base_of (fst same) (horizontal_pipeline (snd same)) =
    base_of (fst same) (horizontal_pipeline b) /\
  horizontal_pipeline (snd same) = horizontal_pipeline a /\
  pipeline_cache (fst same) = pipeline_cache w /\
  radius (snd other) <> radius b /\
  base_of (fst other) (horizontal_pipeline (snd other)) <>
    base_of (fst other) (horizontal_pipeline b).
Proof.
  intros w a b same other.
  assert (Hc : pipeline_cache w = {[3 := 2%positive]})
    by (vm_compute; reflexivity).
  assert (Hw : cache_wf w).
  { split.
    - intros r p. rewrite Hc. intros [<- <-]%lookup_singleton_Some.
      vm_compute. reflexivity.
    - intros r1 r2 p. rewrite Hc.
      intros [<- _]%lookup_singleton_Some [<- _]%lookup_singleton_Some.
      reflexivity. }
  assert (Ha : linked w a).
  { split; [vm_compute; reflexivity|].
    exists 3%positive, 4%positive, 2%positive.
    repeat (split; [vm_compute; reflexivity|]). vm_compute. reflexivity. }
  assert (Hb : linked w b).
  { split; [vm_compute; reflexivity|].
    exists 5%positive, 6%positive, 2%positive.
    repeat (split; [vm_compute; reflexivity|]). vm_compute. reflexivity. }
  assert (E1 : radius (snd same) = radius b) by (vm_compute; reflexivity).
  assert (K1 : kernel_radius 1%Q = radius a) by (vm_compute; reflexivity).
  assert (N2 : radius (snd other) <> radius b) by (vm_compute; discriminate).
  pose proof (radius_cache_sharing w a b 1%Q Hw) as [_ T1].
  specialize (T1 Ha Hb). cbv zeta in T1.
  destruct T1 as (_ & _ & _ & T4 & _ & T6).
  destruct (T4 E1) as [B1 _]. destruct (T6 K1) as (P1 & _ & _ & P4 & _).
  pose proof (radius_cache_sharing w a b 2%Q Hw) as [_ T2].
  specialize (T2 Ha Hb). cbv zeta in T2.
  destruct T2 as (_ & _ & _ & _ & T5 & _).
  destruct (T5 N2) as [D2 _].
  split; [exact Hw|]. split; [exact Ha|]. split; [exact Hb|].
  split; [exact E1|]. split; [exact B1|]. split; [exact P1|].
  split; [exact P4|]. split; [exact N2|]. exact D2.
Defined.

End BlurFacts.

(** ** The blur effect: the property, the two passes and the lifetime of
    its objects *)

Module BlurPaintFacts.
Import Cogl Blur BlurFacts CacheFacts.

(** *** The sigma property *)

(** X12.  Setting sigma and reading it back gives the value that was set; the
    property is notified and a repaint is queued at every call, also when
    the value is the one the effect already has. *)
Theorem set_sigma_get_sigma (w : World) (self : ClutterBlurEffect) (s : gfloat) :
  let r := clutter_blur_effect_set_sigma w self s in
  (clutter_blur_effect_get_sigma (snd (fst r)) == s)%Q /\
  snd r = [g_object_notify_by_pspec "sigma"; clutter_effect_queue_repaint] /\
  clutter_blur_effect_set_property w self PROP_SIGMA s = r /\
  fst (clutter_blur_effect_get_property (snd (fst r)) PROP_SIGMA) =
    Some (clutter_blur_effect_get_sigma (snd (fst r))) /\
  (radius self = kernel_radius (sigma self) ->
   radius (snd (fst r)) = kernel_radius s).
Proof.
  cbv zeta. unfold clutter_blur_effect_set_sigma, clutter_blur_effect_get_sigma,
    clutter_blur_effect_set_property, clutter_blur_effect_get_property.
  change (PROP_SIGMA =? PROP_SIGMA) with true. cbv iota.
  unfold clutter_blur_effect_set_sigma, clutter_blur_effect_get_sigma.
  destruct (Qeq_bool (sigma self) s) eqn:Hq.
  - rewrite set_sigma_real_same by exact Hq. cbn [fst snd].
    apply Qeq_bool_iff in Hq.
    split; [exact Hq|]. split; [reflexivity|]. split; [reflexivity|].
    split; [reflexivity|]. intros ->. apply kernel_radius_Qeq. exact Hq.
  - destruct (set_sigma_real_uploads w self s Hq) as (Hs & Hr & _).
    destruct (clutter_blur_effect_set_sigma_real w self s) as [w' self'].
    cbn [fst snd] in *. rewrite Hs.
    split; [reflexivity|]. split; [reflexivity|]. split; [reflexivity|].
    split; [reflexivity|]. intros _. exact Hr.
Qed.

(** *** Disposal *)

Lemma unref_object_release (o : option CoglHandle) (w : World) :
  unref_object o w = set_ctx (release (option_list o) (ctx w)) w.
Proof. destruct o, w; reflexivity. Qed.

Lemma set_ctx_set_ctx (c c' : CoglContext) (w : World) :
  set_ctx c (set_ctx c' w) = set_ctx c w.
Proof. reflexivity. Qed.

(** The handles an instance holds, in the order in which [dispose]
    releases them. *)
Definition instance_handles (self : ClutterBlurEffect) : list CoglHandle :=
  option_list (horizontal_pipeline self) ++ option_list (vertical_pipeline self) ++
  option_list (horizontal_texture self) ++ option_list (vertical_texture self) ++
  option_list (vertical_fbo self).

(** X13.  [dispose] releases every handle of the instance once and clears the
    five pointers; it leaves the pipelines and the class's cache alone,
    and running it again changes nothing. *)
Theorem dispose_releases_instance_handles (w : World) (self : ClutterBlurEffect)
    (h : CoglHandle) :
  let r := clutter_blur_effect_dispose w self in
  refs (ctx (fst r)) h =
    refs (ctx w) h - Z.of_nat (count_occ Pos.eq_dec (instance_handles self) h) /\
  instance_handles (snd r) = [] /\
  pipelines (fst r) = pipelines w /\
  pipeline_cache (fst r) = pipeline_cache w /\
  sigma (snd r) = sigma self /\ radius (snd r) = radius self /\
  clutter_blur_effect_dispose (fst r) (snd r) = r.
Proof.
  cbv zeta.
  assert (E : clutter_blur_effect_dispose w self =
              (set_ctx (release (instance_handles self) (ctx w)) w,
               mkBlur (actor self) (radius self) (sigma self) (tex_width self)
                 (tex_height self) (vertical_texture_dirty self) None None None
                 None (horizontal_pixel_step_uniform self)
                 (horizontal_factors_uniform self)
                 None (vertical_pixel_step_uniform self)
                 (vertical_factors_uniform self))).
  { unfold clutter_blur_effect_dispose.
    rewrite !unref_object_release. cbn [fst snd ctx set_ctx].
    rewrite <- !release_app. reflexivity. }
  rewrite E. cbn [fst snd].
  split; [apply refs_release|].
  do 5 (split; [reflexivity|]). reflexivity.
Qed.

(** *** The two passes *)

(** X14.  The first pass, which draws the horizontally blurred image into the
    texture of the second pass, runs when that texture is out of date:
    [clutter_blur_effect_paint_target] clears the flag, so that a second
    call only draws the result, and [clutter_blur_effect_post_paint] and a
    change of sigma set it again. *)
Theorem first_pass_runs_once (o1 o2 : Z) (self : ClutterBlurEffect) :
  let r1 := clutter_blur_effect_paint_target o1 self in
  let r2 := clutter_blur_effect_paint_target o2 (fst r1) in
  let result o :=
    [cogl_pipeline_set_color4ub (vertical_pipeline self) o o o o;
     cogl_framebuffer_draw_rectangle cogl_get_draw_framebuffer
       (vertical_pipeline self) 0%Q 0%Q
       (int_to_float (tex_width self)) (int_to_float (tex_height self))] in
  vertical_texture_dirty (fst r1) = false /\
  (vertical_texture_dirty self = true ->
   snd r1 =
     cogl_framebuffer_draw_rectangle
       (offscreen_framebuffer (vertical_fbo self))
       (horizontal_pipeline self) (-1)%Q 1%Q 1%Q (-1)%Q :: result o1) /\
  (vertical_texture_dirty self = false -> r1 = (self, result o1)) /\
  r2 = (fst r1, result o2) /\
  (forall w tex,
     vertical_texture_dirty
       (snd (clutter_blur_effect_post_paint w self tex)) = true) /\
  (forall w s,
     Qeq_bool (sigma self) s = false ->
     vertical_texture_dirty
       (snd (clutter_blur_effect_set_sigma_real w self s)) = true).
Proof.
  cbv zeta. unfold clutter_blur_effect_paint_target.
  split; [destruct (vertical_texture_dirty self) eqn:E; [reflexivity | exact E]|].
  split; [intros ->; reflexivity|].
  split; [intros ->; reflexivity|].
  split; [destruct (vertical_texture_dirty self) eqn:E; simpl; rewrite ?E;
          reflexivity|].
  split.
  - intros w tex. unfold clutter_blur_effect_post_paint.
    destruct (if bool_decide _ then _ else _) as [w' self']. reflexivity.
  - intros w s Hq.
    destruct (horizontal_pipeline self) as [hp|] eqn:Hh.
    + destruct (decide (kernel_radius s = radius self)) as [Hr|Hr].
      * rewrite set_sigma_real_kept;
          [reflexivity | exact Hq | rewrite Hh; eexists; reflexivity | exact Hr].
      * destruct (set_sigma_real_fresh w self s Hq (or_intror Hr))
          as (w0 & self0 & _ & ->). reflexivity.
    + destruct (set_sigma_real_fresh w self s Hq (or_introl Hh))
        as (w0 & self0 & _ & ->). reflexivity.
Qed.

(** [sized w self]: the texture of the second pass, if there is one, has
    the size the effect recorded for the texture of the first pass. *)
Definition sized (w : World) (self : ClutterBlurEffect) : Prop :=
  forall v, vertical_texture self = Some v ->
    cogl_texture_get_width (Some v) (ctx w) = tex_width self /\
    cogl_texture_get_height (Some v) (ctx w) = tex_height self.

Lemma update_vertical_ctx (self : ClutterBlurEffect) (w : World) :
  ctx (update_vertical_pipeline_texture self w) = ctx w.
Proof.
  unfold update_vertical_pipeline_texture, cogl_pipeline_set_uniform_float,
    cogl_pipeline_set_layer_texture. cbv zeta.
  rewrite (proj1 (update_pipeline_frame _ _ _)).
  apply (proj1 (update_pipeline_frame _ _ _)).
Qed.

Lemma update_horizontal_ctx (self : ClutterBlurEffect) (w : World) :
  ctx (update_horizontal_pipeline_texture self w) = ctx w.
Proof.
  unfold update_horizontal_pipeline_texture, cogl_pipeline_set_uniform_float,
    cogl_pipeline_set_layer_texture. cbv zeta.
  rewrite (proj1 (update_pipeline_frame _ _ _)).
  apply (proj1 (update_pipeline_frame _ _ _)).
Qed.

#[local] Arguments update_vertical_pipeline_texture : simpl never.
#[local] Arguments update_horizontal_pipeline_texture : simpl never.

(** The world in which the texture of the second pass is allocated:
    the previous texture and its framebuffer have been released. *)
Definition released_vertical (w : World) (self : ClutterBlurEffect) : World :=
  match vertical_texture self with
  | Some t => unref_object (vertical_fbo self) (unref_object (Some t) w)
  | None => w
  end.

Lemma allocate_vertical_eq (w : World) (self : ClutterBlurEffect) :
  exists t fbo c,
    allocate_vertical w self =
      (update_vertical_pipeline_texture (set_vertical_target t fbo self)
         (set_ctx c (released_vertical w self)),
       set_vertical_target t fbo self) /\
    (forall v, t = Some v ->
       texture_size c !! v = Some (tex_width self, tex_height self)).
Proof.
  unfold allocate_vertical. cbv zeta. fold (released_vertical w self).
  set (w0 := released_vertical w self).
  unfold cogl_texture_new_with_size, offscreen_new_to,
    cogl_offscreen_new_to_texture.
  destruct (texture_new_ok (ctx w0)) eqn:Ek.
  - cbn [new_object fst snd offscreen_new_ok].
    destruct (offscreen_new_ok (ctx w0)) eqn:Eo;
      do 3 eexists; (split; [reflexivity|]);
      intros v [= <-]; cbn [texture_size]; apply lookup_insert_eq.
  - do 3 eexists. split; [reflexivity|]. intros v Hv. discriminate Hv.
Qed.

Lemma allocate_vertical_sized (w : World) (self : ClutterBlurEffect) :
  sized (fst (allocate_vertical w self)) (snd (allocate_vertical w self)) /\
  horizontal_texture (snd (allocate_vertical w self)) = horizontal_texture self /\
  tex_width (snd (allocate_vertical w self)) = tex_width self /\
  tex_height (snd (allocate_vertical w self)) = tex_height self.
Proof.
  destruct (allocate_vertical_eq w self) as (t & fbo & c & -> & Hsz).
  cbn [fst snd]. split; [|repeat split].
  intros v Hv. cbn in Hv. specialize (Hsz v Hv).
  rewrite update_vertical_ctx. cbn [ctx set_ctx].
  unfold cogl_texture_get_width, cogl_texture_get_height. rewrite Hsz.
  split; reflexivity.
Qed.

(** X15.  [clutter_blur_effect_post_paint] records the texture of the first
    pass.  When it is the texture the effect already has, nothing happens
    but that the texture of the second pass is marked out of date.
    Otherwise the effect records its size, and afterwards the texture of
    the second pass, kept or allocated anew, has that size. *)
Theorem post_paint_tracks_texture (w : World) (self : ClutterBlurEffect)
    (tex : option CoglHandle) :
  let r := clutter_blur_effect_post_paint w self tex in
  horizontal_texture (snd r) = tex /\
  vertical_texture_dirty (snd r) = true /\
  (tex = horizontal_texture self ->
   r = (w, set_vertical_texture_dirty true self)) /\
  (tex <> horizontal_texture self ->
   tex_width (snd r) = cogl_texture_get_width tex (ctx w) /\
   tex_height (snd r) = cogl_texture_get_height tex (ctx w) /\
   sized (fst r) (snd r)) /\
  (sized w self -> sized (fst r) (snd r)).
Proof.
  cbv zeta. unfold clutter_blur_effect_post_paint.
  case_bool_decide as Hc.
  - set (w1 := ref_object tex (unref_object (horizontal_texture self) w)).
    assert (Hsz : texture_size (ctx w1) = texture_size (ctx w)).
    { unfold w1. destruct tex, (horizontal_texture self); reflexivity. }
    assert (Hw : forall t, cogl_texture_get_width t (ctx w1) =
                           cogl_texture_get_width t (ctx w)).
    { intros [t|]; [|reflexivity]. unfold cogl_texture_get_width.
      rewrite Hsz. reflexivity. }
    assert (Hh : forall t, cogl_texture_get_height t (ctx w1) =
                           cogl_texture_get_height t (ctx w)).
    { intros [t|]; [|reflexivity]. unfold cogl_texture_get_height.
      rewrite Hsz. reflexivity. }
    set (self1 := set_horizontal_texture tex _ _ self).
    set (w2 := update_horizontal_pipeline_texture self1 w1).
    assert (Hctx2 : ctx w2 = ctx w1) by apply update_horizontal_ctx.
    assert (Hsized : sized
              (fst (if bool_decide (vertical_texture self1 = None)
                       || bool_decide (tex_width self1 <>
                            cogl_texture_get_width (vertical_texture self1) (ctx w2))
                       || bool_decide (tex_height self1 <>
                            cogl_texture_get_height (vertical_texture self1) (ctx w2))
                    then allocate_vertical w2 self1 else (w2, self1)))
              (snd (if bool_decide (vertical_texture self1 = None)
                       || bool_decide (tex_width self1 <>
                            cogl_texture_get_width (vertical_texture self1) (ctx w2))
                       || bool_decide (tex_height self1 <>
                            cogl_texture_get_height (vertical_texture self1) (ctx w2))
                    then allocate_vertical w2 self1 else (w2, self1))) /\
            horizontal_texture
              (snd (if bool_decide (vertical_texture self1 = None)
                       || bool_decide (tex_width self1 <>
                            cogl_texture_get_width (vertical_texture self1) (ctx w2))
                       || bool_decide (tex_height self1 <>
                            cogl_texture_get_height (vertical_texture self1) (ctx w2))
                    then allocate_vertical w2 self1 else (w2, self1))) = tex /\
            tex_width
              (snd (if bool_decide (vertical_texture self1 = None)
                       || bool_decide (tex_width self1 <>
                            cogl_texture_get_width (vertical_texture self1) (ctx w2))
                       || bool_decide (tex_height self1 <>
                            cogl_texture_get_height (vertical_texture self1) (ctx w2))
                    then allocate_vertical w2 self1 else (w2, self1))) =
              cogl_texture_get_width tex (ctx w) /\
            tex_height
              (snd (if bool_decide (vertical_texture self1 = None)
                       || bool_decide (tex_width self1 <>
                            cogl_texture_get_width (vertical_texture self1) (ctx w2))
                       || bool_decide (tex_height self1 <>
                            cogl_texture_get_height (vertical_texture self1) (ctx w2))
                    then allocate_vertical w2 self1 else (w2, self1))) =
              cogl_texture_get_height tex (ctx w)).
    { destruct (bool_decide (vertical_texture self1 = None)
                || bool_decide (tex_width self1 <>
                     cogl_texture_get_width (vertical_texture self1) (ctx w2))
                || bool_decide (tex_height self1 <>
                     cogl_texture_get_height (vertical_texture self1) (ctx w2)))
        eqn:E.
      - destruct (allocate_vertical_sized w2 self1) as (S1 & S2 & S3 & S4).
        split; [exact S1|]. split; [rewrite S2; reflexivity|].
        split; [rewrite S3; apply Hw | rewrite S4; apply Hh].
      - cbn [fst snd]. split; [|split; [reflexivity|split; [apply Hw|apply Hh]]].
        apply orb_false_elim in E as [E E3].
        apply orb_false_elim in E as [E1 E2].
        apply bool_decide_eq_false in E2, E3.
        intros v Hv. rewrite <- Hv. split.
        + destruct (decide (tex_width self1 =
                            cogl_texture_get_width (vertical_texture self1) (ctx w2)))
            as [Heq|Hne]; [symmetry; exact Heq | contradiction].
        + destruct (decide (tex_height self1 =
                            cogl_texture_get_height (vertical_texture self1) (ctx w2)))
            as [Heq|Hne]; [symmetry; exact Heq | contradiction]. }
    destruct (if bool_decide (vertical_texture self1 = None) || _ || _
              then allocate_vertical w2 self1 else (w2, self1)) as [w3 self3].
    cbn [fst snd] in *. destruct Hsized as (S1 & S2 & S3 & S4).
    split; [exact S2|]. split; [reflexivity|].
    split; [intros Heq; contradiction|].
    split; [intros _; split; [exact S3|split; [exact S4|exact S1]]|].
    intros _. exact S1.
  - assert (Heq : tex = horizontal_texture self).
    { destruct (decide (tex = horizontal_texture self)); [assumption|contradiction]. }
    cbn [fst snd]. split; [symmetry; exact Heq|]. split; [reflexivity|].
    split; [reflexivity|]. split; [intros Hne; contradiction|].
    intros Hs. exact Hs.
Qed.

(** *** The program of a pipeline *)

(** The declarations and the code of the snippet of a pipeline. *)
Definition program (d : Pipeline) : string * string :=
  (snippet_declarations d, snippet_replace d).

(** [same_programs n w w']: the pipelines below [n] have in [w'] the
    program they have in [w]. *)
Definition same_programs (n : positive) (w w' : World) : Prop :=
  forall h, (h < n)%positive ->
    program (pipeline_at w' h) = program (pipeline_at w h).

Lemma same_programs_refl n w : same_programs n w w.
Proof. intros h _. reflexivity. Qed.

Lemma same_programs_trans n w1 w2 w3 :
  same_programs n w1 w2 -> same_programs n w2 w3 -> same_programs n w1 w3.
Proof. intros H12 H23 h Hh. rewrite (H23 h Hh). apply H12. exact Hh. Qed.

Lemma same_programs_le n m w w' :
  (n <= m)%positive -> same_programs m w w' -> same_programs n w w'.
Proof. intros Hle Hs h Hh. apply Hs. lia. Qed.

Lemma program_update (w : World) (p : option CoglHandle)
    (f : Pipeline -> Pipeline) (n : positive) :
  (forall d, program (f d) = program d) ->
  same_programs n w (update_pipeline p f w).
Proof.
  intros Hf h _. rewrite pipeline_at_update. case_bool_decide; auto.
Qed.

Lemma program_upload self k w n : same_programs n w (upload self k w).
Proof.
  unfold upload, cogl_pipeline_set_uniform_float.
  eapply same_programs_trans; apply program_update; reflexivity.
Qed.

Lemma program_update_horizontal self w n :
  same_programs n w (update_horizontal_pipeline_texture self w).
Proof.
  unfold update_horizontal_pipeline_texture, cogl_pipeline_set_uniform_float,
    cogl_pipeline_set_layer_texture. cbv zeta.
  eapply same_programs_trans; apply program_update; reflexivity.
Qed.

Lemma program_update_vertical self w n :
  same_programs n w (update_vertical_pipeline_texture self w).
Proof.
  unfold update_vertical_pipeline_texture, cogl_pipeline_set_uniform_float,
    cogl_pipeline_set_layer_texture. cbv zeta.
  eapply same_programs_trans; apply program_update; reflexivity.
Qed.

Lemma program_set_blend p b w n : same_programs n w (cogl_pipeline_set_blend p b w).
Proof. apply program_update. reflexivity. Qed.

Lemma program_unref p w n : same_programs n w (unref_pipeline p w).
Proof. intros h _. destruct p; reflexivity. Qed.

Lemma program_copy (w : World) (src : CoglHandle) :
  same_programs (next_handle (ctx w)) w (snd (cogl_pipeline_copy src w)) /\
  program (pipeline_at (snd (cogl_pipeline_copy src w))
             (fst (cogl_pipeline_copy src w))) =
    program (pipeline_at w src).
Proof.
  unfold same_programs, cogl_pipeline_copy, new_object, pipeline_at.
  cbn [fst snd pipelines ctx]. split.
  - intros h Hh. rewrite lookup_insert_ne by lia. reflexivity.
  - rewrite lookup_insert_eq. reflexivity.
Qed.

(** The cache holds, for every radius, a pipeline with the program of
    that radius. *)
Definition cache_sound (w : World) : Prop :=
  forall r p, pipeline_cache w !! r = Some p ->
    program (pipeline_at w p) = (blur_declarations r, blur_source r).

(** The pipelines of the instance have the program of its radius. *)
Definition programmed (w : World) (self : ClutterBlurEffect) : Prop :=
  forall p,
    horizontal_pipeline self = Some p \/ vertical_pipeline self = Some p ->
    program (pipeline_at w p) =
      (blur_declarations (radius self), blur_source (radius self)).

Lemma cache_sound_keeps w w' :
  cache_wf w -> keeps w w' -> same_programs (next_handle (ctx w)) w w' ->
  cache_sound w -> cache_sound w'.
Proof.
  intros [Hlt _] (_ & _ & Hc & _) Hp Hs r p. rewrite Hc. intros Hl.
  rewrite (Hp p (Hlt r p Hl)). apply Hs. exact Hl.
Qed.

Lemma get_blur_pipeline_program (w : World) (r : Z) :
  cache_wf w -> cache_sound w ->
  cache_sound (snd (get_blur_pipeline w r)) /\
  program (pipeline_at (snd (get_blur_pipeline w r))
             (fst (get_blur_pipeline w r))) =
    (blur_declarations r, blur_source r) /\
  same_programs (next_handle (ctx w)) w (snd (get_blur_pipeline w r)).
Proof.
  intros [Hlt _] Hs. unfold get_blur_pipeline.
  destruct (pipeline_cache w !! r) as [p|] eqn:E; cbn [fst snd].
  - split; [exact Hs|]. split; [apply Hs; exact E | apply same_programs_refl].
  - unfold cogl_pipeline_new, new_object. cbn [fst snd next_handle].
    split; [|split].
    + intros r' p. cbn [pipeline_cache].
      destruct (decide (r' = r)) as [->|Hne].
      * rewrite lookup_insert_eq. intros [= <-].
        unfold pipeline_at. cbn [pipelines]. rewrite lookup_insert_eq. reflexivity.
      * rewrite lookup_insert_ne by congruence. intros Hl.
        specialize (Hlt r' p Hl).
        unfold pipeline_at. cbn [pipelines].
        rewrite lookup_insert_ne by lia. apply Hs. exact Hl.
    + unfold pipeline_at. cbn [pipelines]. rewrite lookup_insert_eq. reflexivity.
    + intros h Hh. unfold pipeline_at. cbn [pipelines].
      rewrite lookup_insert_ne by lia. reflexivity.
Qed.

Lemma create_pipelines_program (w : World) (self : ClutterBlurEffect) (r : Z) :
  cache_wf w -> cache_sound w ->
  cache_sound (fst (create_pipelines w self r)) /\
  (forall p,
     horizontal_pipeline (snd (create_pipelines w self r)) = Some p \/
     vertical_pipeline (snd (create_pipelines w self r)) = Some p ->
     program (pipeline_at (fst (create_pipelines w self r)) p) =
       (blur_declarations r, blur_source r)).
Proof.
  intros Hwf Hs. unfold create_pipelines.
  destruct (get_blur_pipeline_spec w r) as (Hext & Hwfb & Hcache & _).
  destruct (get_blur_pipeline_program w r Hwf Hs) as (Hsb & Hpb & _).
  specialize (Hwfb Hwf).
  destruct (get_blur_pipeline w r) as [b wb]. cbn [fst snd] in *.
  assert (Hb : (b < next_handle (ctx wb))%positive).
  { destruct Hwfb as [Hlt _]. exact (Hlt r b Hcache). }
  destruct (copy_spec wb b) as (Hh & Hn1 & _).
  destruct (program_copy wb b) as [Q1 Q1'].
  pose proof (keeps_copy wb b) as K1.
  destruct (cogl_pipeline_copy b wb) as [hp w1]. cbn [fst snd] in *.
  set (self1 := set_horizontal (Some hp) _ _ self).
  pose proof (keeps_update_horizontal self1 w1) as K2.
  pose proof (program_update_horizontal self1 w1 (next_handle (ctx w1))) as Q2.
  set (w2 := update_horizontal_pipeline_texture self1 w1) in *.
  assert (Hn2 : next_handle (ctx w2) = next_handle (ctx w1)).
  { unfold w2. rewrite update_horizontal_ctx. reflexivity. }
  destruct (copy_spec w2 b) as (Hv & Hn3 & _).
  destruct (program_copy w2 b) as [Q3 Q3'].
  pose proof (keeps_copy w2 b) as K3.
  destruct (cogl_pipeline_copy b w2) as [vp w3]. cbn [fst snd] in *.
  set (self2 := set_vertical (Some vp) _ _ self1).
  pose proof (keeps_update_vertical self2 w3) as K4.
  pose proof (program_update_vertical self2 w3 (next_handle (ctx w3))) as Q4.
  set (w4 := update_vertical_pipeline_texture self2 w3) in *.
  pose proof (keeps_set_blend w4 (horizontal_pipeline self2)
                "RGBA = ADD (SRC_COLOR, 0)") as K5.
  pose proof (program_set_blend (horizontal_pipeline self2)
                "RGBA = ADD (SRC_COLOR, 0)" w4 (next_handle (ctx w3))) as Q5.
  set (w5 := cogl_pipeline_set_blend _ _ w4) in *.
  (* programs below the handles of [w3] are those of [w3] *)
  assert (P35 : same_programs (next_handle (ctx w3)) w3 w5)
    by (eapply same_programs_trans; eassumption).
  assert (P13 : same_programs (next_handle (ctx w1)) w1 w3).
  { eapply same_programs_trans; [exact Q2|]. rewrite <- Hn2. exact Q3. }
  assert (L13 : (next_handle (ctx w1) <= next_handle (ctx w3))%positive)
    by (rewrite Hn3, Hn2; lia).
  assert (Lb1 : (next_handle (ctx wb) <= next_handle (ctx w1))%positive)
    by (rewrite Hn1; lia).
  assert (Pb5 : same_programs (next_handle (ctx wb)) wb w5).
  { eapply same_programs_trans; [exact Q1|].
    eapply same_programs_trans.
    - eapply same_programs_le; [exact Lb1 | exact P13].
    - eapply same_programs_le; [|exact P35]. lia. }
  assert (Kb5 : keeps wb w5).
  { eapply keeps_trans; [exact K1|]. eapply keeps_trans; [exact K2|].
    eapply keeps_trans; [exact K3|]. eapply keeps_trans; eassumption. }
  cbn [fst snd]. split.
  - exact (cache_sound_keeps wb w5 Hwfb Kb5 Pb5 Hsb).
  - intros p [Hp|Hp]; cbn in Hp; injection Hp as <-.
    + rewrite (P35 hp) by (rewrite Hn3, Hn2, Hn1, Hh; lia).
      rewrite (P13 hp) by (rewrite Hn1, Hh; lia).
      rewrite Q1'. exact Hpb.
    + rewrite (P35 vp) by (rewrite Hn3, Hv; lia).
      rewrite Q3'.
      rewrite (Q2 b) by lia. rewrite (Q1 b) by exact Hb. exact Hpb.
Qed.

Lemma program_upload_at self k w h :
  program (pipeline_at (upload self k w) h) = program (pipeline_at w h).
Proof. apply (program_upload self k w (Pos.succ h)). lia. Qed.

(** The world in which [clutter_blur_effect_set_sigma_real] creates the
    pipelines: the pipelines of another radius are released first. *)
Definition released_pipelines (w : World) (self : ClutterBlurEffect) : World :=
  match horizontal_pipeline self with
  | Some _ =>
      unref_pipeline (vertical_pipeline self)
        (unref_pipeline (horizontal_pipeline self) w)
  | None => w
  end.

Lemma released_pipelines_keeps w self :
  keeps w (released_pipelines w self) /\
  pipelines (released_pipelines w self) = pipelines w.
Proof.
  unfold released_pipelines. destruct (horizontal_pipeline self); split.
  - eapply keeps_trans; apply keeps_unref.
  - destruct (vertical_pipeline self); reflexivity.
  - apply keeps_refl.
  - reflexivity.
Qed.

Lemma set_sigma_real_recreates (w : World) (self : ClutterBlurEffect)
    (s : gfloat) :
  Qeq_bool (sigma self) s = false ->
  horizontal_pipeline self = None \/ kernel_radius s <> radius self ->
  exists self0,
    clutter_blur_effect_set_sigma_real w self s =
      (upload (snd (create_pipelines (released_pipelines w self) self0
                      (kernel_radius s)))
         (kernel_factors (Q2R s) (kernel_radius s))
         (fst (create_pipelines (released_pipelines w self) self0
                 (kernel_radius s))),
       set_kernel s (kernel_radius s)
         (snd (create_pipelines (released_pipelines w self) self0
                 (kernel_radius s)))).
Proof.
  intros Hq Hc. unfold clutter_blur_effect_set_sigma_real, released_pipelines.
  rewrite Hq. cbv zeta.
  destruct (horizontal_pipeline self) as [hp|] eqn:Hh.
  - destruct Hc as [Hc|Hc]; [discriminate Hc|].
    rewrite (bool_decide_eq_true_2 (Some hp <> None)) by discriminate.
    rewrite (bool_decide_eq_true_2 (kernel_radius s <> radius self)) by exact Hc.
    cbn [andb horizontal_pipeline vertical_pipeline set_vertical set_horizontal].
    match goal with
    | |- context [create_pipelines _ ?b _] => exists b
    end.
    destruct (create_pipelines _ _ _); reflexivity.
  - rewrite (bool_decide_eq_false_2 (None <> None))
      by (intros X; apply X; reflexivity).
    cbn [andb]. rewrite Hh.
    exists self. destruct (create_pipelines _ _ _); reflexivity.
Qed.

(** X16.  The array declared by the shader of the two pipelines of an instance
    has the length of the array of weights handed to them. *)
Theorem shader_declares_the_kernel (w : World) (self : ClutterBlurEffect)
    (s : gfloat) :
  cache_wf w -> cache_sound w -> programmed w self ->
  Qeq_bool (sigma self) s = false -> (0 <= s)%Q ->
  let res := clutter_blur_effect_set_sigma_real w self s in
  let k := kernel_factors (Q2R s) (kernel_radius s) in
  let declared (p : CoglHandle) :=
    snippet_declarations (pipeline_at (fst res) p) =
      ("uniform vec2 pixel_step;" ++ nl
       ++ "uniform float factors[" ++ pretty (Z.of_nat (length k)) ++ "];"
       ++ nl)%string /\
    snippet_replace (pipeline_at (fst res) p) = blur_source (kernel_radius s) in
  cache_wf (fst res) /\ cache_sound (fst res) /\
  programmed (fst res) (snd res) /\
  is_Some (horizontal_pipeline (snd res)) /\
  (forall p, horizontal_pipeline (snd res) = Some p ->
     declared p /\
     uniform_float (pipeline_at (fst res) p)
       !! horizontal_factors_uniform (snd res) = Some k) /\
  (forall p, vertical_pipeline (snd res) = Some p ->
     declared p /\
     uniform_float (pipeline_at (fst res) p)
       !! vertical_factors_uniform (snd res) = Some k).
Proof.
  intros Hwf Hs Hp Hq Hpos. cbv zeta.
  assert (Hr0 : 0 <= kernel_radius s).
  { rewrite kernel_radius_div. apply Z.div_pos; [|lia].
    assert (Hc : (0 <= inject_Z (Qceiling (6 * s)))%Q).
    { apply Qle_trans with (6 * s)%Q; [lra | apply Qle_ceiling]. }
    change 0%Q with (inject_Z 0) in Hc. rewrite <- Zle_Qle in Hc. exact Hc. }
  assert (Hlen : Z.of_nat (length (kernel_factors (Q2R s) (kernel_radius s))) =
                 (kernel_radius s * 2 + 1)%Z).
  { rewrite kernel_factors_length by exact Hr0. lia. }
  rewrite Hlen.
  destruct (set_sigma_real_uploads w self s Hq) as (_ & M4 & M5 & U1 & U2).
  assert (Hmain :
    cache_wf (fst (clutter_blur_effect_set_sigma_real w self s)) /\
    cache_sound (fst (clutter_blur_effect_set_sigma_real w self s)) /\
    programmed (fst (clutter_blur_effect_set_sigma_real w self s))
               (snd (clutter_blur_effect_set_sigma_real w self s))).
  { assert (Hfresh : forall self0,
      let cp := create_pipelines (released_pipelines w self) self0
                  (kernel_radius s) in
      let w' := upload (snd cp) (kernel_factors (Q2R s) (kernel_radius s))
                  (fst cp) in
      cache_wf w' /\ cache_sound w' /\
      programmed w' (set_kernel s (kernel_radius s) (snd cp))).
    { intros self0. cbv zeta.
      destruct (released_pipelines_keeps w self) as [K0 P0].
      assert (Hwf0 : cache_wf (released_pipelines w self))
        by exact (cache_wf_keeps _ _ Hwf K0).
      assert (Hs0 : cache_sound (released_pipelines w self)).
      { apply (cache_sound_keeps w); auto.
        intros h _. unfold pipeline_at. rewrite P0. reflexivity. }
      destruct (create_pipelines_program _ self0 (kernel_radius s) Hwf0 Hs0)
        as [Hs1 Hp1].
      destruct (create_pipelines_spec (released_pipelines w self) self0
                  (kernel_radius s))
        as (hp' & vp' & b & _ & _ & _ & _ & _ & _ & _ & _ & Hwf1).
      destruct (create_pipelines (released_pipelines w self) self0
                  (kernel_radius s)) as [w1 self1].
      cbn [fst snd] in *.
      pose proof (upload_keeps self1
                    (kernel_factors (Q2R s) (kernel_radius s)) w1) as Ku.
      split; [exact (cache_wf_keeps _ _ (Hwf1 Hwf0) Ku)|].
      split; [apply (cache_sound_keeps w1); auto; apply program_upload|].
      intros p Hpp. rewrite program_upload_at. apply Hp1. exact Hpp. }
    destruct (horizontal_pipeline self) as [hp|] eqn:Hh.
    - destruct (decide (kernel_radius s = radius self)) as [Hr|Hr].
      + rewrite set_sigma_real_kept;
          [|exact Hq|rewrite Hh; eexists; reflexivity|exact Hr].
        cbn [fst snd].
        pose proof (upload_keeps self
                      (kernel_factors (Q2R s) (kernel_radius s)) w) as Ku.
        split; [exact (cache_wf_keeps _ _ Hwf Ku)|].
        split; [apply (cache_sound_keeps w); auto; apply program_upload|].
        intros p Hpp. rewrite program_upload_at.
        cbn [radius set_kernel horizontal_pipeline vertical_pipeline] in *.
        rewrite Hr. apply Hp. exact Hpp.
      + destruct (set_sigma_real_recreates w self s Hq (or_intror Hr))
          as (self0 & ->).
        apply Hfresh.
    - destruct (set_sigma_real_recreates w self s Hq (or_introl Hh))
        as (self0 & ->).
      apply Hfresh. }
  destruct Hmain as (M1 & M2 & M3).
  assert (Hprog : forall p,
    horizontal_pipeline (snd (clutter_blur_effect_set_sigma_real w self s))
      = Some p \/
    vertical_pipeline (snd (clutter_blur_effect_set_sigma_real w self s))
      = Some p ->
    snippet_declarations (pipeline_at
        (fst (clutter_blur_effect_set_sigma_real w self s)) p) =
      blur_declarations (kernel_radius s) /\
    snippet_replace (pipeline_at
        (fst (clutter_blur_effect_set_sigma_real w self s)) p) =
      blur_source (kernel_radius s)).
  { intros p Hpp. specialize (M3 p Hpp). rewrite M4 in M3.
    unfold program in M3. injection M3 as -> ->. split; reflexivity. }
  split; [exact M1|]. split; [exact M2|]. split; [exact M3|].
  split; [exact M5|]. split.
  - intros p Hpp. split; [apply Hprog; left; exact Hpp | apply U1; exact Hpp].
  - intros p Hpp. split; [apply Hprog; right; exact Hpp | apply U2; exact Hpp].
Qed.

(** *** References across a change of radius *)

Lemma update_horizontal_cache (self : ClutterBlurEffect) (w : World) :
  pipeline_cache (update_horizontal_pipeline_texture self w) = pipeline_cache w.
Proof. exact (proj1 (proj2 (proj2 (keeps_update_horizontal self w)))). Qed.

Lemma update_vertical_cache (self : ClutterBlurEffect) (w : World) :
  pipeline_cache (update_vertical_pipeline_texture self w) = pipeline_cache w.
Proof. exact (proj1 (proj2 (proj2 (keeps_update_vertical self w)))). Qed.

Lemma create_pipelines_ctx (w : World) (self : ClutterBlurEffect) (r : Z) :
  let wb := snd (get_blur_pipeline w r) in
  let res := create_pipelines w self r in
  ctx (fst res) = snd (new_object (snd (new_object (ctx wb)))) /\
  pipeline_cache (fst res) = pipeline_cache wb /\
  horizontal_pipeline (snd res) = Some (next_handle (ctx wb)) /\
  vertical_pipeline (snd res) = Some (Pos.succ (next_handle (ctx wb))).
Proof.
  cbv zeta. unfold create_pipelines.
  destruct (get_blur_pipeline w r) as [b wb]. cbn [fst snd].
  unfold cogl_pipeline_copy.
  cbn [new_object fst snd].
  unfold cogl_pipeline_set_blend.
  rewrite (proj1 (update_pipeline_frame _ _ _)).
  rewrite (proj1 (proj2 (update_pipeline_frame _ _ _))).
  rewrite update_vertical_ctx, update_vertical_cache.
  cbn [ctx pipeline_cache].
  rewrite update_horizontal_ctx, update_horizontal_cache.
  cbn [ctx pipeline_cache horizontal_pipeline vertical_pipeline
       set_vertical set_horizontal next_handle].
  repeat split.
Qed.

Lemma get_blur_pipeline_ctx (w : World) (r : Z) :
  ctx (snd (get_blur_pipeline w r)) =
    match pipeline_cache w !! r with
    | Some _ => ctx w
    | None =>
        cogl_object_unref (next_handle (ctx w))
          (snd (new_object (snd (new_object (ctx w)))))
    end /\
  pipeline_cache (snd (get_blur_pipeline w r)) =
    match pipeline_cache w !! r with
    | Some _ => pipeline_cache w
    | None => <[r := Pos.succ (next_handle (ctx w))]> (pipeline_cache w)
    end.
Proof.
  unfold get_blur_pipeline.
  destruct (pipeline_cache w !! r); split; reflexivity.
Qed.

Lemma released_pipelines_ctx (w : World) (self : ClutterBlurEffect) hp vp :
  horizontal_pipeline self = Some hp -> vertical_pipeline self = Some vp ->
  ctx (released_pipelines w self) = release [hp; vp] (ctx w) /\
  pipeline_cache (released_pipelines w self) = pipeline_cache w.
Proof.
  intros Hh Hv. unfold released_pipelines. rewrite Hh, Hv. split; reflexivity.
Qed.

(** X17.  When the radius changes, the instance gives up its reference on each
    of its two pipelines and holds the only reference on each of two new
    ones.  The base pipeline of the radius is never released: one that is
    in the cache is left alone, a new one stays with the reference that
    the cache holds, and only its snippet is released. *)
Theorem radius_change_reference_balance (w : World) (self : ClutterBlurEffect)
    (s : gfloat) (hp vp : CoglHandle) :
  Qeq_bool (sigma self) s = false ->
  horizontal_pipeline self = Some hp -> vertical_pipeline self = Some vp ->
  kernel_radius s <> radius self ->
  let res := clutter_blur_effect_set_sigma_real w self s in
  let n := next_handle (ctx w) in
  let held h := refs (ctx (fst res)) h in
  (forall h, (h < n)%positive ->
     held h = refs (ctx w) h - Z.of_nat (count_occ Pos.eq_dec [hp; vp] h)) /\
  match pipeline_cache w !! kernel_radius s with
  | Some b =>
      pipeline_cache (fst res) = pipeline_cache w /\
      horizontal_pipeline (snd res) = Some n /\
      vertical_pipeline (snd res) = Some (n + 1)%positive /\
      held n = 1 /\ held (n + 1)%positive = 1 /\
      next_handle (ctx (fst res)) = (n + 2)%positive
  | None =>
      pipeline_cache (fst res) =
        <[kernel_radius s := (n + 1)%positive]> (pipeline_cache w) /\
      held n = 0 /\ held (n + 1)%positive = 1 /\
      horizontal_pipeline (snd res) = Some (n + 2)%positive /\
      vertical_pipeline (snd res) = Some (n + 3)%positive /\
      held (n + 2)%positive = 1 /\ held (n + 3)%positive = 1 /\
      next_handle (ctx (fst res)) = (n + 4)%positive
  end.
Proof.
  intros Hq Hh Hv Hr. cbv zeta.
  destruct (set_sigma_real_recreates w self s Hq (or_intror Hr)) as (self0 & ->).
  cbn [fst snd].
  destruct (released_pipelines_ctx w self hp vp Hh Hv) as [C0 K0].
  destruct (create_pipelines_ctx (released_pipelines w self) self0
              (kernel_radius s)) as (C1 & K1 & H1 & V1).
  destruct (get_blur_pipeline_ctx (released_pipelines w self) (kernel_radius s))
    as [C2 K2].
  rewrite K0 in C2, K2.
  set (cp := create_pipelines (released_pipelines w self) self0
               (kernel_radius s)) in *.
  rewrite (proj1 (upload_frame _ _ _)).
  rewrite (proj1 (proj2 (proj2 (upload_keeps _ _ _)))).
  cbn [horizontal_pipeline vertical_pipeline set_kernel].
  rewrite C1, K1, H1, V1.
  set (wb := snd (get_blur_pipeline (released_pipelines w self)
                    (kernel_radius s))) in *.
  assert (N0 : next_handle (ctx (released_pipelines w self))
               = next_handle (ctx w)).
  { rewrite C0. apply next_release. }
  assert (R0 : forall h, refs (ctx (released_pipelines w self)) h =
                 refs (ctx w) h - Z.of_nat (count_occ Pos.eq_dec [hp; vp] h)).
  { intros h. rewrite C0. apply refs_release. }
  rewrite C2, K2. clear C1 K1 H1 V1 C2 K2.
  destruct (pipeline_cache w !! kernel_radius s) as [b|] eqn:E.
  - split; [intros h Hlt|split; [reflexivity|]].
    2: split; [f_equal|split; [f_equal|split; [|split]]].
    all: repeat (progress (rewrite ?refs_new_object, ?refs_unref,
                             ?next_new_object, ?next_unref, ?N0)).
    all: repeat match goal with
                | |- context [@decide ?P ?i] => destruct (@decide P i)
                end.
    all: rewrite ?R0; lia.
  - split; [intros h Hlt|split; [f_equal; rewrite N0; lia|]].
    2: split; [|split; [|split; [f_equal|split; [f_equal|split; [|split]]]]].
    all: repeat (progress (rewrite ?refs_new_object, ?refs_unref,
                             ?next_new_object, ?next_unref, ?N0)).
    all: repeat match goal with
                | |- context [@decide ?P ?i] => destruct (@decide P i)
                end.
    all: rewrite ?R0; lia.
Qed.

Import Scenario.

Lemma set_sigma_get_sigma_witness :
  let w := fst blur_a in
  let a := snd blur_a in
  let r := clutter_blur_effect_set_sigma w a (1 # 2) in
  radius a = kernel_radius (sigma a) /\
  (clutter_blur_effect_get_sigma (snd (fst r)) == 1 # 2)%Q /\
  radius (snd (fst r)) = kernel_radius (1 # 2).
Proof.
  intros w a r.
  assert (Hr : radius a = kernel_radius (sigma a)) by (vm_compute; reflexivity).
  pose proof (set_sigma_get_sigma w a (1 # 2)) as W. cbv zeta in W.
  destruct W as (W1 & _ & _ & _ & W5).
  split; [exact Hr|]. split; [exact W1 | exact (W5 Hr)].
Defined.

Lemma first_pass_runs_once_witness :
  let a := snd blur_a in
  let r1 := clutter_blur_effect_paint_target 255 a in
  let r2 := clutter_blur_effect_paint_target 128 (fst r1) in
  let result self o :=
    [cogl_pipeline_set_color4ub (vertical_pipeline self) o o o o;
     cogl_framebuffer_draw_rectangle cogl_get_draw_framebuffer
       (vertical_pipeline self) 0%Q 0%Q
       (int_to_float (tex_width self)) (int_to_float (tex_height self))] in
  vertical_texture_dirty a = true /\
  snd r1 =
    cogl_framebuffer_draw_rectangle (offscreen_framebuffer (vertical_fbo a))
      (horizontal_pipeline a) (-1)%Q 1%Q 1%Q (-1)%Q :: result a 255 /\
  vertical_texture_dirty (fst r1) = false /\
  r2 = (fst r1, result (fst r1) 128) /\
  Qeq_bool (sigma (fst r1)) 2%Q = false /\
  vertical_texture_dirty
    (snd (clutter_blur_effect_set_sigma_real (fst blur_a) (fst r1) 2%Q)) = true.
Proof.
  intros a r1 r2 result.
  assert (Hd : vertical_texture_dirty a = true) by (vm_compute; reflexivity).
  assert (Hc : vertical_texture_dirty (fst r1) = false)
    by (vm_compute; reflexivity).
  assert (Hq : Qeq_bool (sigma (fst r1)) 2%Q = false) by (vm_compute; reflexivity).
  pose proof (first_pass_runs_once 255 128 a) as W. cbv zeta in W.
  destruct W as (_ & W2 & _).
  pose proof (first_pass_runs_once 128 0 (fst r1)) as V. cbv zeta in V.
  destruct V as (_ & _ & V3 & _ & _ & V6).
  split; [exact Hd|]. split; [exact (W2 Hd)|]. split; [exact Hc|].
  split; [exact (V3 Hc)|]. split; [exact Hq|]. exact (V6 (fst blur_a) 2%Q Hq).
Defined.

Lemma post_paint_tracks_texture_witness :
  let a := snd blur_a in
  let w := set_ctx (snd (cogl_texture_new_with_size 100 80 (ctx (fst blur_a))))
             (fst blur_a) in
  let r := clutter_blur_effect_post_paint w a (Some 5%positive) in
  let r' := clutter_blur_effect_post_paint (fst r) (snd r) (Some 5%positive) in
  Some 5%positive <> horizontal_texture a /\ sized w a /\
  tex_width (snd r) = cogl_texture_get_width (Some 5%positive) (ctx w) /\
  tex_height (snd r) = cogl_texture_get_height (Some 5%positive) (ctx w) /\
  sized (fst r) (snd r) /\
  Some 5%positive = horizontal_texture (snd r) /\
  r' = (fst r, set_vertical_texture_dirty true (snd r)).
Proof.
  intros a w r r'.
  assert (Hn : horizontal_texture a = None) by (vm_compute; reflexivity).
  assert (Hv : vertical_texture a = None) by (vm_compute; reflexivity).
  assert (Hne : Some 5%positive <> horizontal_texture a)
    by (rewrite Hn; discriminate).
  assert (Hs : sized w a).
  { intros v E. rewrite Hv in E. discriminate E. }
  pose proof (post_paint_tracks_texture w a (Some 5%positive)) as W.
  cbv zeta in W. destruct W as (W1 & _ & _ & W4 & W5).
  destruct (W4 Hne) as (X1 & X2 & _).
  pose proof (post_paint_tracks_texture (fst r) (snd r) (Some 5%positive)) as V.
  cbv zeta in V. destruct V as (_ & _ & V3 & _).
  split; [exact Hne|]. split; [exact Hs|]. split; [exact X1|].
  split; [exact X2|]. split; [exact (W5 Hs)|].
  split; [symmetry; exact W1|]. apply V3. symmetry. exact W1.
Defined.

Lemma shader_declares_the_kernel_witness :
  let res := clutter_blur_effect_set_sigma_real blur_world zeroed (1 # 2) in
  let k := kernel_factors (Q2R (1 # 2)) (kernel_radius (1 # 2)) in
  cache_wf blur_world /\ cache_sound blur_world /\
  programmed blur_world zeroed /\
  Qeq_bool (sigma zeroed) (1 # 2) = false /\ (0 <= 1 # 2)%Q /\
  horizontal_pipeline (snd res) = Some 3%positive /\
  snippet_declarations (pipeline_at (fst res) 3%positive) =
    ("uniform vec2 pixel_step;" ++ nl
     ++ "uniform float factors[" ++ pretty (Z.of_nat (length k)) ++ "];"
     ++ nl)%string /\
  uniform_float (pipeline_at (fst res) 3%positive)
    !! horizontal_factors_uniform (snd res) = Some k.
Proof.
  intros res k.
  assert (Hw : cache_wf blur_world).
  { split.
    - intros r p E. change (pipeline_cache blur_world) with (∅ : gmap Z CoglHandle) in E.
      rewrite lookup_empty in E. discriminate E.
    - intros r1 r2 p E. change (pipeline_cache blur_world) with (∅ : gmap Z CoglHandle) in E.
      rewrite lookup_empty in E. discriminate E. }
  assert (Hs : cache_sound blur_world).
  { intros r p E. change (pipeline_cache blur_world) with (∅ : gmap Z CoglHandle) in E.
    rewrite lookup_empty in E. discriminate E. }
  assert (Hp : programmed blur_world zeroed).
  { intros p [E|E]; discriminate E. }
  assert (Hq : Qeq_bool (sigma zeroed) (1 # 2) = false) by reflexivity.
  assert (H0 : (0 <= 1 # 2)%Q) by (unfold Qle; simpl; lia).
  assert (Hh : horizontal_pipeline (snd res) = Some 3%positive)
    by (vm_compute; reflexivity).
  pose proof (shader_declares_the_kernel blur_world zeroed (1 # 2)
                Hw Hs Hp Hq H0) as W.
  cbv zeta in W. destruct W as (_ & _ & _ & _ & W5 & _).
  destruct (W5 3%positive Hh) as [[D _] U].
  split; [exact Hw|]. split; [exact Hs|]. split; [exact Hp|].
  split; [exact Hq|]. split; [exact H0|]. split; [exact Hh|].
  split; [exact D | exact U].
Defined.

Lemma radius_change_reference_balance_witness :
  let w := fst blur_b in
  let a := snd blur_a in
  let res := clutter_blur_effect_set_sigma_real w a 2%Q in
  Qeq_bool (sigma a) 2%Q = false /\
  horizontal_pipeline a = Some 3%positive /\
  vertical_pipeline a = Some 4%positive /\
  kernel_radius 2%Q <> radius a /\
  refs (ctx (fst res)) 3%positive =
    refs (ctx w) 3%positive
    - Z.of_nat (count_occ Pos.eq_dec [3%positive; 4%positive] 3%positive) /\
  pipeline_cache (fst res) =
    <[kernel_radius 2%Q := (next_handle (ctx w) + 1)%positive]>
      (pipeline_cache w) /\
  refs (ctx (fst res)) (next_handle (ctx w)) = 0 /\
  refs (ctx (fst res)) (next_handle (ctx w) + 1)%positive = 1 /\
  horizontal_pipeline (snd res) = Some (next_handle (ctx w) + 2)%positive.
Proof.
  intros w a res.
  assert (Hq : Qeq_bool (sigma a) 2%Q = false) by (vm_compute; reflexivity).
  assert (Hh : horizontal_pipeline a = Some 3%positive)
    by (vm_compute; reflexivity).
  assert (Hv : vertical_pipeline a = Some 4%positive)
    by (vm_compute; reflexivity).
  assert (Hr : kernel_radius 2%Q <> radius a) by (vm_compute; discriminate).
  assert (Hn : (3 < next_handle (ctx w))%positive) by (vm_compute; reflexivity).
  assert (E : pipeline_cache w !! kernel_radius 2%Q = None)
    by (vm_compute; reflexivity).
  pose proof (radius_change_reference_balance w a 2%Q 3%positive 4%positive
                Hq Hh Hv Hr) as W.
  cbv zeta in W. rewrite E in W.
  destruct W as (W1 & W2 & W3 & W4 & W5 & _).
  split; [exact Hq|]. split; [exact Hh|]. split; [exact Hv|].
  split; [exact Hr|]. split; [exact (W1 3%positive Hn)|].
  split; [exact W2|]. split; [exact W3|]. split; [exact W4 | exact W5].
Defined.

End BlurPaintFacts.

Module ShaderFacts.
Import Cogl Shader.

Lemma eqb_empty_false (src : string) :
  src <> EmptyString -> String.eqb src EmptyString = false.
Proof. intros Hne. apply String.eqb_neq. exact Hne. Qed.

(** C8, as the code has it.  A call with a [NULL] or empty source returns
    [FALSE] and changes nothing.  A call with a non-empty source returns
    [TRUE]: on an instance that has no snippet yet it creates the pipeline
    if there is none, creates a snippet that wraps the source and attaches
    it to the pipeline; on an instance that has a snippet it changes
    nothing, so the source of the first such call stays. *)
Theorem set_shader_source_first_wins (w : World)
    (priv : ClutterShaderEffectPrivate) (source : option string) :
  let r := clutter_shader_effect_set_shader_source w priv source in
  (source = None \/ source = Some EmptyString -> r = (false, w, priv)) /\
  (forall src, source = Some src -> src <> EmptyString ->
     snippet priv <> None -> r = (true, w, priv)) /\
  (forall src, source = Some src -> src <> EmptyString ->
     snippet priv = None ->
     fst (fst r) = true /\
     exists s p,
       snippet (snd r) = Some s /\ pipeline (snd r) = Some p /\
       (pipeline priv <> None -> pipeline priv = Some p) /\
       refs (ctx (snd (fst r))) s = 1 /\
       pipeline_snippets (snd (fst r)) !! p =
         Some (default [] (pipeline_snippets w !! p) ++ [s]) /\
       declarations (snippet_at (snd (fst r)) s) =
         Some ("#define main clutter_shader_effect_main" ++ nl
               ++ src ++ nl ++ "#undef main" ++ nl)%string /\
       replace (snippet_at (snd (fst r)) s) =
         Some ("clutter_shader_effect_main ();" ++ nl)%string).
Proof.
  intros r. split; [|split].
  - intros [-> | ->]; reflexivity.
  - intros src -> Hne Hs. unfold r, clutter_shader_effect_set_shader_source.
    rewrite (eqb_empty_false src Hne).
    destruct (snippet priv); [reflexivity | contradiction].
  - intros src -> Hne Hs. unfold r, clutter_shader_effect_set_shader_source.
    rewrite (eqb_empty_false src Hne), Hs.
    unfold clutter_shader_effect_ensure_pipeline,
      clutter_shader_effect_create_snippet, cogl_snippet_new, cogl_pipeline_new,
      new_object.
    destruct priv as [a t p s sh pr]. simpl in *. subst s.
    destruct p as [p|], t; simpl;
      (split; [reflexivity|]); do 2 eexists;
      (split; [reflexivity|]); (split; [reflexivity|]);
      (split; [intros; first [reflexivity | contradiction]|]);
      unfold refs, snippet_at, cogl_snippet_set_replace,
        cogl_snippet_set_declarations; simpl;
      repeat split; simplify_map_eq; reflexivity.
Qed.

(** C8, as stated, fails: after a first call has installed a source, a
    call with an empty or a [NULL] source returns [FALSE], not [TRUE]. *)
Lemma set_shader_source_later_call_fails :
  let r1 :=
    clutter_shader_effect_set_shader_source empty_world
      (clutter_shader_effect_new CLUTTER_FRAGMENT_SHADER)
      (Some "void main () { }"%string) in
  let w1 := snd (fst r1) in
  let priv1 := snd r1 in
  fst (fst r1) = true /\ snippet priv1 = Some 2%positive /\
  clutter_shader_effect_set_shader_source w1 priv1 (Some EmptyString) =
    (false, w1, priv1) /\
  clutter_shader_effect_set_shader_source w1 priv1 None = (false, w1, priv1).
Proof. vm_compute. repeat split. Qed.

Lemma set_shader_source_first_wins_witness :
  let r1 :=
    clutter_shader_effect_set_shader_source empty_world
      (clutter_shader_effect_new CLUTTER_FRAGMENT_SHADER)
      (Some "void main () { }"%string) in
  let w1 := snd (fst r1) in
  let priv1 := snd r1 in
  fst (fst r1) = true /\
  clutter_shader_effect_set_shader_source w1 priv1
    (Some "void main () { discard; }"%string) = (true, w1, priv1).
Proof.
  intros r1 w1 priv1.
  pose proof (set_shader_source_first_wins empty_world
                (clutter_shader_effect_new CLUTTER_FRAGMENT_SHADER)
                (Some "void main () { }"%string)) as (_ & _ & W1).
  specialize (W1 _ eq_refl ltac:(discriminate) eq_refl). destruct W1 as [W1 _].
  split; [exact W1|].
  pose proof (set_shader_source_first_wins w1 priv1
                (Some "void main () { discard; }"%string)) as (_ & W2 & _).
  apply (W2 _ eq_refl); [discriminate|].
  vm_compute. discriminate.
Defined.

End ShaderFacts.

(** ** The shader effect: uniforms, the static source, programs and the
    end of an instance *)

Module ShaderObjectFacts.
Import Cogl Shader ShaderFacts CacheFacts.

(** *** Uniforms and the source *)

(** X18.  Setting a uniform and setting the source can be done in either
    order: the pipeline is made by whichever comes first and used by the
    other, and the results are the same. *)
Theorem uniform_and_source_commute (in_paint : bool) (w : World)
    (ps : PipelineState) (priv : ClutterShaderEffectPrivate)
    (name : option string) (value : option GValue) (source : option string) :
  let u := clutter_shader_effect_set_uniform_value in_paint w ps priv name value in
  let us := clutter_shader_effect_set_shader_source
              (fst (fst (fst u))) (snd (fst u)) source in
  let s := clutter_shader_effect_set_shader_source w priv source in
  let su := clutter_shader_effect_set_uniform_value in_paint
              (snd (fst s)) ps (snd s) name value in
  (fst (fst us), snd (fst us), snd (fst (fst u)), snd us, snd u) =
  (fst (fst s), fst (fst (fst su)), snd (fst (fst su)), snd (fst su), snd su).
Proof.
  cbv zeta.
  unfold clutter_shader_effect_set_uniform_value,
    clutter_shader_effect_set_shader_source.
  destruct name as [name|], value as [value|], source as [src|];
    try reflexivity;
    try (destruct (String.eqb src EmptyString); [reflexivity|]);
    try (destruct priv as [a t [p|] [s|] sh pr], t; reflexivity).
  all: destruct priv as [a t [p|] [s|] sh pr], t, value, a, in_paint;
    reflexivity.
Qed.

(** *** [set_actor] *)

Section WithMatrix.

Context {CoglMatrix : Type} `{CoglMatrixAPI CoglMatrix}.

Local Abbreviation State := (@Offscreen.State CoglMatrix).

(** X19.  Without GLSL, [set_actor] warns and disables the effect and does
    nothing else: the parent's [set_actor] is not run, so neither the
    shader effect nor the offscreen effect records the actor and no
    offscreen buffer is released.  The effect stays disabled when
    [set_actor] is run again with GLSL, and [pre_paint] of a disabled
    effect returns [FALSE] and changes nothing.  With GLSL, [set_actor]
    is the parent's, and the shader effect has an actor exactly when it
    was given one. *)
Theorem shader_set_actor_without_glsl (priv : ClutterShaderEffectPrivate)
    (parent : State) (a a' : option Offscreen.ClutterActor) :
  let r := clutter_shader_effect_set_actor false priv parent a in
  let r' := clutter_shader_effect_set_actor true (fst r) (snd r) a' in
  let ok := clutter_shader_effect_set_actor true priv parent a in
  fst r = priv /\
  Offscreen.meta_enabled (snd r) = false /\
  Offscreen.priv (snd r) = Offscreen.priv parent /\
  Offscreen.cogl (snd r) = Offscreen.cogl parent /\
  (exists msg, Offscreen.log (snd r) = Offscreen.g_warning msg :: Offscreen.log parent) /\
  Offscreen.clutter_offscreen_effect_pre_paint (snd r) = (false, snd r) /\
  Offscreen.meta_enabled (snd r') = false /\
  Offscreen.clutter_offscreen_effect_pre_paint (snd r') = (false, snd r') /\
  snd ok = Offscreen.clutter_offscreen_effect_set_actor parent a /\
  Offscreen.meta_enabled (snd ok) = Offscreen.meta_enabled parent /\
  Offscreen.actor (Offscreen.priv (snd ok : State)) = a /\
  (actor (fst ok) = None <-> a = None).
Proof.
  cbv zeta. unfold clutter_shader_effect_set_actor. cbn [negb fst snd].
  assert (Hset : forall (st : State) b,
    Offscreen.meta_enabled (Offscreen.clutter_offscreen_effect_set_actor st b) =
      Offscreen.meta_enabled st /\
    Offscreen.actor (Offscreen.priv
      (Offscreen.clutter_offscreen_effect_set_actor st b : State)) = b).
  { intros st b. unfold Offscreen.clutter_offscreen_effect_set_actor.
    destruct (foldl _ _ _) as [arr c]. split; reflexivity. }
  split; [reflexivity|]. split; [reflexivity|]. split; [reflexivity|].
  split; [reflexivity|]. split; [eexists; reflexivity|].
  split; [reflexivity|].
  destruct (Hset (Offscreen.set_meta_enabled false
                    (Offscreen.emit (Offscreen.g_warning
    "Unable to use the ShaderEffect: the graphics hardware or the current GL driver does not implement support for the GLSL shading language.")
                       parent)) a') as [E1 _].
  split; [exact E1|].
  split.
  { unfold Offscreen.clutter_offscreen_effect_pre_paint at 1.
    rewrite E1. reflexivity. }
  destruct (Hset parent a) as [E2 E3].
  split; [reflexivity|]. split; [exact E2|]. split; [exact E3|].
  cbn [actor set_actor_pointer]. rewrite E3.
  destruct a; split; intros X; first [reflexivity | discriminate X].
Qed.

End WithMatrix.

(** *** Shaders and programs *)

(** The shader type of the Cogl 1 API for the type of the effect. *)
Definition cogl_type (t : ClutterShaderType) : CoglShaderType :=
  match t with
  | CLUTTER_FRAGMENT_SHADER => COGL_SHADER_TYPE_FRAGMENT
  | CLUTTER_VERTEX_SHADER => COGL_SHADER_TYPE_VERTEX
  end.

(** The source of the shader for the source [src] of the effect: [src]
    with its [main] renamed, and a [main] that calls it. *)
Definition full_source (src : string) : option string :=
  Some (("#define main clutter_shader_effect_main" ++ nl
         ++ src ++ nl ++ "#undef main" ++ nl)
        ++ (nl ++ "void" ++ nl ++ "main ()" ++ nl ++ "{" ++ nl
            ++ "  clutter_shader_effect_main ();" ++ nl ++ "}" ++ nl))%string.

Definition main_wrapper : string :=
  (nl ++ "void" ++ nl ++ "main ()" ++ nl ++ "{" ++ nl
   ++ "  clutter_shader_effect_main ();" ++ nl ++ "}" ++ nl)%string.

Definition wrapped_source (src : string) : string :=
  ("#define main clutter_shader_effect_main" ++ nl
   ++ src ++ nl ++ "#undef main" ++ nl)%string.

(** The context in which [clutter_shader_effect_set_shader_source]
    creates the snippet. *)
Definition ensured (w : World) (priv : ClutterShaderEffectPrivate)
  : CoglContext :=
  match pipeline priv with
  | Some _ => ctx w
  | None => snd (new_object (ctx w))
  end.

Lemma set_shader_source_installs (w : World)
    (priv : ClutterShaderEffectPrivate) (src : string) :
  src <> EmptyString -> snippet priv = None ->
  let r := clutter_shader_effect_set_shader_source w priv (Some src) in
  let s := next_handle (ensured w priv) in
  fst (fst r) = true /\
  snd r = mkPriv (actor priv) (shader_type priv)
            (match pipeline priv with
             | Some p => Some p
             | None => Some (next_handle (ctx w))
             end)
            (Some s) (shader priv) (program priv) /\
  ctx (snd (fst r)) = snd (new_object (ensured w priv)) /\
  declarations (snippet_at (snd (fst r)) s) = Some (wrapped_source src).
Proof.
  intros Hne Hs. cbv zeta.
  unfold clutter_shader_effect_set_shader_source.
  rewrite (eqb_empty_false src Hne), Hs.
  unfold ensured, clutter_shader_effect_ensure_pipeline,
    clutter_shader_effect_create_snippet, cogl_snippet_new, cogl_pipeline_new,
    snippet_at, cogl_snippet_set_replace, cogl_snippet_set_declarations,
    cogl_pipeline_add_snippet, snippet_at.
  destruct priv as [a t [p|] s sh pr], t;
    cbn [pipeline shader_type new_object fst snd ctx snippets next_handle
         actor snippet shader program pipeline_snippets];
    rewrite !lookup_insert_eq;
    repeat split.
Qed.

Lemma get_shader_new (glsl : Compiler) (w : World) (g : Programs)
    (priv : ClutterShaderEffectPrivate) (sn : CoglHandle) :
  shader priv = None -> snippet priv = Some sn ->
  let n := next_handle (ctx w) in
  let type := cogl_type (shader_type priv) in
  let source := g_strconcat (declarations (snippet_at w sn)) main_wrapper in
  let g' := mkPrograms (<[n := (type, source)]> (shaders g)) (programs g) in
  clutter_shader_effect_get_shader glsl w g priv =
    if cogl_shader_is_compiled glsl type source then
      (Some n, set_ctx (snd (new_object (ctx w))) w, g',
       set_shader (Some n) priv, [])
    else
      (None, set_ctx (cogl_object_unref n (snd (new_object (ctx w)))) w, g',
       priv,
       [g_warning "G_STRLOC: Unable to compile the GLSL shader: %s"
          [cogl_shader_get_info_log glsl type source]]).
Proof.
  intros Hsh Hs. cbv zeta. unfold clutter_shader_effect_get_shader.
  rewrite Hsh, Hs. fold main_wrapper.
  destruct priv as [a t p s sh pr]. cbn in Hsh, Hs. subst sh s.
  destruct t; cbn [shader_type cogl_type new_object fst snd set_ctx ctx
                   snippets pipeline_snippets];
    change (snippet_at (mkWorld ?c (snippets w) (pipeline_snippets w)) sn)
      with (snippet_at w sn);
    destruct (cogl_shader_is_compiled glsl _ _); reflexivity.
Qed.

Lemma get_program_new (glsl : Compiler) (w : World) (g : Programs)
    (priv : ClutterShaderEffectPrivate) :
  program priv = None ->
  let r := clutter_shader_effect_get_shader glsl w g priv in
  let w1 := snd (fst (fst (fst r))) in
  let g1 := snd (fst (fst r)) in
  let priv1 := snd (fst r) in
  let n := next_handle (ctx w1) in
  clutter_shader_effect_get_program glsl w g priv =
    match fst (fst (fst (fst r))) with
    | None => (None, w1, g1, priv1, snd r)
    | Some sh =>
        (Some n, set_ctx (snd (new_object (ctx w1))) w1,
         mkPrograms (shaders g1) (<[n := mkProgram [sh] true]> (programs g1)),
         set_program (Some n) priv1, snd r)
    end.
Proof.
  intros Hp. cbv zeta. unfold clutter_shader_effect_get_program. rewrite Hp.
  destruct (clutter_shader_effect_get_shader glsl w g priv)
    as [[[[o w1] g1] priv1] sig].
  destruct o; reflexivity.
Qed.

(** X20.  After the source has been set, [clutter_shader_effect_get_program]
    makes a shader with the full source and a program with that shader
    attached, and keeps both: later calls hand out the same objects and
    change nothing.  When the source does not compile, the shader is
    released at once, no program is made, and the instance is left as it
    was, so every call tries again.  Without a source there is no program
    and nothing is made. *)
Theorem get_program_wraps_source (glsl : Compiler) (w : World) (g : Programs)
    (priv : ClutterShaderEffectPrivate) (src : string) :
  src <> EmptyString ->
  snippet priv = None -> shader priv = None -> program priv = None ->
  let s := clutter_shader_effect_set_shader_source w priv (Some src) in
  let w1 := snd (fst s) in
  let priv1 := snd s in
  let r := clutter_shader_effect_get_program glsl w1 g priv1 in
  let w' := snd (fst (fst (fst r))) in
  let g' := snd (fst (fst r)) in
  let priv' := snd (fst r) in
  let n := next_handle (ctx w1) in
  let type := cogl_type (shader_type priv) in
  clutter_shader_effect_get_program glsl w g priv = (None, w, g, priv, []) /\
  (cogl_shader_is_compiled glsl type (full_source src) = true ->
   fst (fst (fst (fst r))) = Some (n + 1)%positive /\ snd r = [] /\
   shader priv' = Some n /\ program priv' = Some (n + 1)%positive /\
   shaders g' !! n = Some (type, full_source src) /\
   programs g' !! (n + 1)%positive = Some (mkProgram [n] true) /\
   refs (ctx w') n = 1 /\ refs (ctx w') (n + 1)%positive = 1 /\
   clutter_shader_effect_get_program glsl w' g' priv' =
     (Some (n + 1)%positive, w', g', priv', []) /\
   clutter_shader_effect_get_shader glsl w' g' priv' =
     (Some n, w', g', priv', [])) /\
  (cogl_shader_is_compiled glsl type (full_source src) = false ->
   fst (fst (fst (fst r))) = None /\
   snd r = [g_warning "G_STRLOC: Unable to compile the GLSL shader: %s"
              [cogl_shader_get_info_log glsl type (full_source src)]] /\
   priv' = priv1 /\ programs g' = programs g /\
   refs (ctx w') n = 0 /\ next_handle (ctx w') = (n + 1)%positive).
Proof.
  intros Hne Hs Hsh Hp. cbv zeta.
  split.
  { unfold clutter_shader_effect_get_program, clutter_shader_effect_get_shader.
    rewrite Hp, Hsh, Hs. reflexivity. }
  destruct (set_shader_source_installs w priv src Hne Hs) as (_ & E2 & E3 & E4).
  cbv zeta in E2, E3, E4.
  destruct (clutter_shader_effect_set_shader_source w priv (Some src))
    as [[ok w1] priv1].
  cbn [fst snd] in *.
  set (sn := next_handle (ensured w priv)) in *.
  assert (Hsh1 : shader priv1 = None) by (rewrite E2; exact Hsh).
  assert (Hs1 : snippet priv1 = Some sn) by (rewrite E2; reflexivity).
  assert (Hp1 : program priv1 = None) by (rewrite E2; exact Hp).
  assert (Ht1 : shader_type priv1 = shader_type priv) by (rewrite E2; reflexivity).
  pose proof (get_shader_new glsl w1 g priv1 sn Hsh1 Hs1) as G.
  cbv zeta in G. rewrite E4, Ht1 in G.
  change (g_strconcat (Some (wrapped_source src)) main_wrapper)
    with (full_source src) in G.
  rewrite (get_program_new glsl w1 g priv1 Hp1). cbv zeta. rewrite G.
  clear G E2 E3 E4.
  split; intros Hc; rewrite Hc; cbn [fst snd].
  - cbn [ctx set_ctx shaders programs shader program set_program set_shader].
    rewrite Pos.add_1_r.
    unfold clutter_shader_effect_get_shader,
      clutter_shader_effect_get_program.
    cbn [shader program set_program set_shader].
    rewrite !refs_new_object, !next_new_object.
    split; [reflexivity|]. split; [reflexivity|]. split; [reflexivity|].
    split; [reflexivity|]. split; [apply lookup_insert_eq|].
    split; [apply lookup_insert_eq|].
    split; [repeat destruct (decide _); try lia; reflexivity|].
    split; [repeat destruct (decide _); try lia; reflexivity|].
    split; reflexivity.
  - cbn [ctx set_ctx shaders programs].
    rewrite refs_unref, refs_new_object, next_unref, next_new_object.
    split; [reflexivity|]. split; [reflexivity|]. split; [reflexivity|].
    split; [reflexivity|].
    split; [|lia].
    repeat destruct (decide _); try lia; try congruence.
Qed.

(** *** The end of an instance *)

Lemma shader_unref_object_release (o : option CoglHandle) (w : World) :
  unref_object o w = set_ctx (release (option_list o) (ctx w)) w.
Proof. destruct o, w; reflexivity. Qed.

(** The handles an instance holds, in the order in which
    [clutter_shader_effect_finalize] releases them. *)
Definition shader_handles (priv : ClutterShaderEffectPrivate)
  : list CoglHandle :=
  option_list (pipeline priv) ++ option_list (snippet priv) ++
  option_list (shader priv) ++ option_list (program priv).

Lemma finalize_eq (w : World) (priv : ClutterShaderEffectPrivate) :
  clutter_shader_effect_finalize w priv =
    (set_ctx (release (shader_handles priv) (ctx w)) w,
     mkPriv (actor priv) (shader_type priv) None None None None).
Proof.
  unfold clutter_shader_effect_finalize, shader_handles.
  cbn [set_pipeline set_snippet set_shader set_program
       pipeline snippet shader program actor shader_type].
  rewrite !shader_unref_object_release. cbn [ctx set_ctx].
  rewrite <- !release_app. rewrite <- ?app_assoc. reflexivity.
Qed.

(** X21.  [clutter_shader_effect_finalize] releases the pipeline, the snippet,
    the shader and the program of the instance, each once, and clears the
    four pointers; the snippets and what is attached to the pipelines
    stay as they are, and a second run changes nothing. *)
Theorem shader_finalize_releases_handles (w : World)
    (priv : ClutterShaderEffectPrivate) (h : CoglHandle) :
  let r := clutter_shader_effect_finalize w priv in
  refs (ctx (fst r)) h =
    refs (ctx w) h - Z.of_nat (count_occ Pos.eq_dec (shader_handles priv) h) /\
  shader_handles (snd r) = [] /\
  snippets (fst r) = snippets w /\
  pipeline_snippets (fst r) = pipeline_snippets w /\
  next_handle (ctx (fst r)) = next_handle (ctx w) /\
  clutter_shader_effect_finalize (fst r) (snd r) = r.
Proof.
  cbv zeta. rewrite finalize_eq. cbn [fst snd ctx set_ctx].
  split; [apply refs_release|]. split; [reflexivity|].
  split; [reflexivity|]. split; [reflexivity|].
  split; [apply next_release|]. reflexivity.
Qed.

(** X22.  An effect that is made, given its source, asked for its program and
    finalized leaves no reference behind: every object made on the way
    ends without a reference, whether the source compiles or not, and the
    objects that were there before keep theirs. *)
Theorem shader_lifecycle_leaves_no_reference (glsl : Compiler) (w : World)
    (g : Programs) (t : ClutterShaderType) (src : string) (h : CoglHandle) :
  src <> EmptyString ->
  let s := clutter_shader_effect_set_shader_source w
             (clutter_shader_effect_new t) (Some src) in
  let p := clutter_shader_effect_get_program glsl (snd (fst s)) g (snd s) in
  let f := clutter_shader_effect_finalize
             (snd (fst (fst (fst p)))) (snd (fst p)) in
  let n := next_handle (ctx w) in
  let n' := next_handle (ctx (fst f)) in
  n' = (if cogl_shader_is_compiled glsl (cogl_type t) (full_source src)
        then n + 4 else n + 3)%positive /\
  refs (ctx (fst f)) h =
    if decide (n <= h < n')%positive then 0 else refs (ctx w) h.
Proof.
  intros Hne. cbv zeta.
  destruct (set_shader_source_installs w (clutter_shader_effect_new t) src Hne
              eq_refl) as (_ & E2 & E3 & E4).
  cbv zeta in E2, E3, E4.
  destruct (clutter_shader_effect_set_shader_source w
              (clutter_shader_effect_new t) (Some src)) as [[ok w1] priv1].
  cbn [fst snd] in *.
  unfold ensured in *.
  cbn [clutter_shader_effect_new pipeline actor shader_type shader program]
    in *.
  rewrite next_new_object in *.
  set (n := next_handle (ctx w)) in *.
  pose proof (get_shader_new glsl w1 g priv1 (Pos.succ n)) as G.
  rewrite E2 in G. specialize (G eq_refl eq_refl). cbv zeta in G.
  rewrite <- E2 in G. rewrite E4 in G.
  change (g_strconcat (Some (wrapped_source src)) main_wrapper)
    with (full_source src) in G.
  assert (Ht : shader_type priv1 = t) by (rewrite E2; reflexivity).
  rewrite Ht in G.
  rewrite (get_program_new glsl w1 g priv1) by (rewrite E2; reflexivity).
  cbv zeta. rewrite G. clear G.
  assert (N1 : next_handle (ctx w1) = Pos.succ (Pos.succ n)).
  { rewrite E3. rewrite !next_new_object. reflexivity. }
  assert (R1 : forall x, refs (ctx w1) x =
            if decide (x = Pos.succ n) then 1
            else if decide (x = n) then 1 else refs (ctx w) x).
  { intros x. rewrite E3, !refs_new_object, next_new_object. reflexivity. }
  destruct (cogl_shader_is_compiled glsl (cogl_type t) (full_source src));
    cbn [fst snd]; rewrite finalize_eq; cbn [fst snd ctx set_ctx];
    rewrite next_release, refs_release;
    repeat (progress (rewrite ?next_new_object, ?next_unref,
                        ?refs_new_object, ?refs_unref, ?N1, ?R1));
    unfold shader_handles; rewrite E2;
    cbn [pipeline snippet shader program set_shader set_program option_list
         app count_occ].
  all: clear E2 E3 E4 Ht N1 R1; clearbody n.
  all: cbn [option_list option_rect app count_occ].
  all: split; [lia|].
  all: repeat destruct (Pos.eq_dec _ _); repeat destruct (decide _);
         change (Z.of_nat 0) with 0; change (Z.of_nat 1) with 1; lia.
Qed.

(** *** The static source *)

Lemma copy_entry_new {A : Type} (source h : CoglHandle) (m : gmap positive A) :
  copy_entry source h m !! h = m !! source.
Proof.
  unfold copy_entry. destruct (m !! source) as [x|] eqn:E.
  - apply lookup_insert_eq.
  - apply lookup_delete_eq.
Qed.

Lemma copy_entry_other {A : Type} (source h h' : CoglHandle)
    (m : gmap positive A) :
  h' <> h -> copy_entry source h m !! h' = m !! h'.
Proof.
  intros Hne. unfold copy_entry. destruct (m !! source) as [x|] eqn:E.
  - apply lookup_insert_ne. congruence.
  - apply lookup_delete_ne. congruence.
Qed.

(** The class has neither base pipeline nor base snippet, or it has both,
    allocated, and the base pipeline has the base snippet and no other. *)
Definition class_ok (w : World) (class_priv : ClutterShaderEffectClassPrivate)
  : Prop :=
  match base_pipeline class_priv, base_snippet class_priv with
  | None, None => True
  | Some b, Some s =>
      (b < next_handle (ctx w))%positive /\
      (s < next_handle (ctx w))%positive /\
      pipeline_snippets w !! b = Some [s]
  | _, _ => False
  end.

(** A handle that is not allocated yet has no snippets. *)
Definition fresh_handles (w : World) : Prop :=
  forall h, (next_handle (ctx w) <= h)%positive ->
    pipeline_snippets w !! h = None.

(** The pipeline of the instance, if it has one, is allocated and is not
    the base pipeline of the class. *)
Definition own_pipeline (w : World)
    (class_priv : ClutterShaderEffectClassPrivate)
    (priv : ClutterShaderEffectPrivate) : Prop :=
  forall q, pipeline priv = Some q ->
    (q < next_handle (ctx w))%positive /\ base_pipeline class_priv <> Some q.

(** The context after an allocation. *)
Definition alloc (c : CoglContext) : CoglContext := snd (new_object c).

Lemma new_object_alloc (c : CoglContext) :
  new_object c = (next_handle c, alloc c).
Proof. reflexivity. Qed.

Lemma refs_alloc (c : CoglContext) (h : CoglHandle) :
  refs (alloc c) h = if decide (h = next_handle c) then 1 else refs c h.
Proof. apply refs_new_object. Qed.

Lemma next_alloc (c : CoglContext) :
  next_handle (alloc c) = Pos.succ (next_handle c).
Proof. reflexivity. Qed.

Lemma refs_ref (h h' : CoglHandle) (c : CoglContext) :
  refs (cogl_object_ref h c) h' =
    refs c h' + (if decide (h' = h) then 1 else 0).
Proof.
  unfold refs, cogl_object_ref. cbn [refcount].
  destruct (decide (h' = h)) as [->|Hne].
  - rewrite lookup_insert_eq. reflexivity.
  - rewrite lookup_insert_ne by congruence. lia.
Qed.

Lemma next_ref (h : CoglHandle) (c : CoglContext) :
  next_handle (cogl_object_ref h c) = next_handle c.
Proof. reflexivity. Qed.

Definition snippet_hook (t : ClutterShaderType) : CoglSnippetHook :=
  match t with
  | CLUTTER_FRAGMENT_SHADER => COGL_SNIPPET_HOOK_FRAGMENT
  | CLUTTER_VERTEX_SHADER => COGL_SNIPPET_HOOK_VERTEX
  end.

Lemma create_snippet_eq (w : World) (priv : ClutterShaderEffectPrivate)
    (src : string) :
  clutter_shader_effect_create_snippet w priv src =
    (next_handle (ctx w),
     mkWorld (alloc (ctx w))
       (<[next_handle (ctx w) :=
            mkSnippet (snippet_hook (shader_type priv))
              (Some (wrapped_source src))
              (Some ("clutter_shader_effect_main ();" ++ nl)%string)]>
          (snippets w))
       (pipeline_snippets w)).
Proof.
  unfold clutter_shader_effect_create_snippet, cogl_snippet_new,
    cogl_snippet_set_declarations, cogl_snippet_set_replace, snippet_at,
    wrapped_source.
  destruct (shader_type priv); cbn [new_object fst snd ctx snippets
                                    pipeline_snippets snippet_hook];
    rewrite !lookup_insert_eq; cbn [default hook declarations replace];
    rewrite !insert_insert_eq; reflexivity.
Qed.

Ltac ctx_norm :=
  repeat (progress (rewrite ?next_ref, ?refs_ref, ?refs_alloc, ?next_alloc)).

(** X23.  The instances of a class with a static source share the snippet of
    the class.  The first of them makes the class's snippet, from the
    source, and its base pipeline; the later ones make no snippet, and
    the class keeps what it has.  Each instance takes a reference on the
    snippet and has a pipeline of its own with that snippet attached: the
    one it has already, or else a new copy of the base pipeline. *)
Theorem static_source_is_shared (src : string) (w : World)
    (ps : PipelineState) (class_priv : ClutterShaderEffectClassPrivate)
    (priv : ClutterShaderEffectPrivate) :
  fresh_handles w -> class_ok w class_priv -> own_pipeline w class_priv priv ->
  let r := clutter_shader_effect_try_static_source (Some src) w ps
             class_priv priv in
  let w' := fst (fst (fst r)) in
  let ps' := snd (fst (fst r)) in
  let class_priv' := snd (fst r) in
  let priv' := snd r in
  let n := next_handle (ctx w) in
  clutter_shader_effect_try_static_source None w ps class_priv priv =
    (w, ps, class_priv, priv) /\
  fresh_handles w' /\ class_ok w' class_priv' /\
  own_pipeline w' class_priv' priv' /\
  (base_pipeline class_priv <> None ->
   class_priv' = class_priv /\ snippets w' = snippets w) /\
  (base_pipeline class_priv = None ->
   class_priv' = mkClassPriv (Some (n + 1)%positive) (Some n) /\
   declarations (snippet_at w' n) = Some (wrapped_source src) /\
   layer0 ps' !! (n + 1)%positive =
     Some (layer_null_texture "COGL_TEXTURE_TYPE_2D") /\
   refs (ctx w') (n + 1)%positive = 1) /\
  exists s p,
    base_snippet class_priv' = Some s /\ snippet priv' = Some s /\
    pipeline priv' = Some p /\
    refs (ctx w') s =
      match base_pipeline class_priv with
      | Some _ => refs (ctx w) s + 1
      | None => 2
      end /\
    (pipeline priv = None ->
     (n <= p)%positive /\ refs (ctx w') p = 1 /\
     pipeline_snippets w' !! p = Some [s]) /\
    (forall q, pipeline priv = Some q ->
     p = q /\
     pipeline_snippets w' !! q =
       Some (default [] (pipeline_snippets w !! q) ++ [s])).
Proof.
  intros Hf Hc Ho. cbv zeta. split; [reflexivity|].
  unfold class_ok in Hc. unfold own_pipeline in Ho. unfold fresh_handles in Hf.
  unfold clutter_shader_effect_try_static_source.
  rewrite create_snippet_eq.
  unfold cogl_pipeline_copy, cogl_pipeline_new.
  set (n := next_handle (ctx w)) in *.
  destruct class_priv as [[b|] [s|]]; cbn [base_pipeline base_snippet] in *;
    try contradiction.
  - (* the class has its base pipeline *)
    destruct Hc as (Hb & Hs & Hbs).
    destruct (pipeline priv) as [q|] eqn:Hq.
    + destruct (Ho q eq_refl) as [Hlt Hne].
      cbn [add_snippet cogl_pipeline_add_snippet ref_object fst snd ctx
           set_ctx snippets pipeline_snippets set_snippet].
      unfold fresh_handles, class_ok, own_pipeline.
      cbn [base_pipeline base_snippet ctx set_ctx snippet pipeline
           pipeline_snippets snippets layer0 fst snd set_snippet
           set_pipeline].
      rewrite ?Hq, ?next_ref, ?refs_ref. fold n.
      split.
      { intros h Hh. rewrite lookup_insert_ne by lia. apply Hf. exact Hh. }
      split.
      { split; [exact Hb|]. split; [exact Hs|].
        rewrite lookup_insert_ne by congruence. exact Hbs. }
      split; [exact Ho|].
      split; [intros _; split; reflexivity|].
      split; [intros X; discriminate X|].
      exists s, q.
      split; [reflexivity|]. split; [reflexivity|]. split; [reflexivity|].
      split; [ctx_norm; repeat destruct (decide _); try lia; congruence|].
      split; [intros X; discriminate X|].
      intros q' [= E]. subst q'. split; [reflexivity|]. apply lookup_insert_eq.
    + rewrite new_object_alloc.
      cbn [ref_object fst snd ctx set_ctx snippets pipeline_snippets
           set_snippet set_pipeline].
      unfold fresh_handles, class_ok, own_pipeline.
      cbn [base_pipeline base_snippet ctx set_ctx snippet pipeline
           pipeline_snippets snippets layer0 fst snd set_snippet
           set_pipeline].
      rewrite ?next_ref, ?refs_ref, ?refs_alloc, ?next_alloc. fold n.
      split.
      { intros h Hh. rewrite copy_entry_other by lia. apply Hf. lia. }
      split.
      { split; [lia|]. split; [lia|].
        rewrite copy_entry_other by lia. exact Hbs. }
      split.
      { intros q' [= E]. subst q'. split; [lia|]. intros [= X]. lia. }
      split; [intros _; split; reflexivity|].
      split; [intros X; discriminate X|].
      exists s, n.
      split; [reflexivity|]. split; [reflexivity|]. split; [reflexivity|].
      split; [ctx_norm; repeat destruct (decide _); try lia; congruence|].
      split; [|intros q' X; discriminate X].
      intros _. split; [lia|].
      split; [ctx_norm; repeat destruct (decide _); try lia; congruence|].
      rewrite copy_entry_new. exact Hbs.
  - (* the class has no base pipeline yet *)
    clear Hc.
    rewrite new_object_alloc.
    cbn [fst snd ctx set_ctx snippets pipeline_snippets base_pipeline
         base_snippet cogl_pipeline_add_snippet
         cogl_pipeline_set_layer_null_texture layer0 uniforms
         uniform_location].
    rewrite next_alloc. fold n.
    assert (Hfn : @lookup CoglHandle _ _ _ (Pos.succ n) (pipeline_snippets w)
                  = None)
      by (apply Hf; unfold n; lia).
    rewrite Hfn. cbn [default app].
    rewrite Pos.add_1_r.
    destruct (pipeline priv) as [q|] eqn:Hq.
    + destruct (Ho q eq_refl) as [Hlt _].
      cbn [add_snippet cogl_pipeline_add_snippet ref_object fst snd ctx
           set_ctx snippets pipeline_snippets set_snippet layer0].
      unfold fresh_handles, class_ok, own_pipeline, snippet_at.
      cbn [base_pipeline base_snippet ctx set_ctx snippet pipeline
           pipeline_snippets snippets layer0 fst snd set_snippet
           set_pipeline].
      rewrite ?Hq, ?next_ref, ?refs_ref, ?refs_alloc, ?next_alloc. fold n.
      split.
      { intros h Hh. rewrite lookup_insert_ne by lia.
        rewrite lookup_insert_ne by lia. apply Hf. lia. }
      split.
      { split; [lia|]. split; [lia|].
        rewrite lookup_insert_ne by lia. apply lookup_insert_eq. }
      split.
      { intros q' [= E]. subst q'. split; [lia|]. intros [= X]. lia. }
      split; [intros X; exfalso; apply X; reflexivity|].
      split.
      { intros _. split; [reflexivity|].
        split; [rewrite lookup_insert_eq; reflexivity|].
        split; [apply lookup_insert_eq|].
        ctx_norm; repeat destruct (decide _); try lia; congruence. }
      exists n, q.
      split; [reflexivity|]. split; [reflexivity|]. split; [reflexivity|].
      split; [ctx_norm; repeat destruct (decide _); try lia; congruence|].
      split; [intros X; discriminate X|].
      intros q' [= E]. subst q'. split; [reflexivity|].
      rewrite lookup_insert_eq. rewrite lookup_insert_ne by lia.
      reflexivity.
    + rewrite new_object_alloc.
      cbn [ref_object fst snd ctx set_ctx snippets pipeline_snippets
           set_snippet set_pipeline layer0 uniforms].
      unfold fresh_handles, class_ok, own_pipeline, snippet_at.
      cbn [base_pipeline base_snippet ctx set_ctx snippet pipeline
           pipeline_snippets snippets layer0 fst snd set_snippet
           set_pipeline].
      rewrite ?next_ref, ?refs_ref, ?refs_alloc, ?next_alloc. fold n.
      split.
      { intros h Hh. rewrite copy_entry_other by lia.
        rewrite lookup_insert_ne by lia. apply Hf. lia. }
      split.
      { split; [lia|]. split; [lia|].
        rewrite copy_entry_other by lia. apply lookup_insert_eq. }
      split.
      { intros q' [= E]. subst q'. split; [lia|]. intros [= X]. lia. }
      split; [intros X; exfalso; apply X; reflexivity|].
      split.
      { intros _. split; [reflexivity|].
        split; [rewrite lookup_insert_eq; reflexivity|].
        split; [rewrite copy_entry_other by lia; apply lookup_insert_eq|].
        ctx_norm; repeat destruct (decide _); try lia; congruence. }
      exists n, (Pos.succ (Pos.succ n)).
      split; [reflexivity|]. split; [reflexivity|]. split; [reflexivity|].
      split; [ctx_norm; repeat destruct (decide _); try lia; congruence|].
      split; [|intros q' X; discriminate X].
      intros _. split; [lia|].
      split; [ctx_norm; repeat destruct (decide _); try lia; congruence|].
      rewrite copy_entry_new. apply lookup_insert_eq.
Qed.

(** A fragment shader effect in the empty world, a driver that compiles
    every source and one that compiles none. *)
Definition any_compiler : Compiler :=
  mkCompiler (fun _ _ => true) (fun _ _ => EmptyString).

Definition no_compiler : Compiler :=
  mkCompiler (fun _ _ => false) (fun _ _ => "0:1: syntax error"%string).

Definition no_programs : Programs := mkPrograms ∅ ∅.

Definition no_pipeline_state : PipelineState :=
  mkPipelineState ∅ ∅ (fun _ => 0).

Lemma get_program_wraps_source_witness :
  let priv := clutter_shader_effect_new CLUTTER_FRAGMENT_SHADER in
  let src := "void main () { }"%string in
  let s := clutter_shader_effect_set_shader_source empty_world priv (Some src) in
  let n := next_handle (ctx (snd (fst s))) in
  let r := clutter_shader_effect_get_program any_compiler (snd (fst s))
             no_programs (snd s) in
  let r0 := clutter_shader_effect_get_program no_compiler (snd (fst s))
              no_programs (snd s) in
  src <> EmptyString /\
  fst (fst (fst (fst r))) = Some (n + 1)%positive /\
  shaders (snd (fst (fst r))) !! n =
    Some (COGL_SHADER_TYPE_FRAGMENT, full_source src) /\
  fst (fst (fst (fst r0))) = None /\
  refs (ctx (snd (fst (fst (fst r0))))) n = 0.
Proof.
  intros priv src s n r r0.
  assert (Hne : src <> EmptyString) by discriminate.
  pose proof (get_program_wraps_source any_compiler empty_world no_programs
                priv src Hne eq_refl eq_refl eq_refl) as W.
  cbv zeta in W. destruct W as (_ & W & _).
  destruct (W eq_refl) as (W1 & _ & _ & _ & W5 & _).
  pose proof (get_program_wraps_source no_compiler empty_world no_programs
                priv src Hne eq_refl eq_refl eq_refl) as V.
  cbv zeta in V. destruct V as (_ & _ & V).
  destruct (V eq_refl) as (V1 & _ & _ & _ & V5 & _).
  split; [exact Hne|]. split; [exact W1|]. split; [exact W5|].
  split; [exact V1 | exact V5].
Defined.

Lemma shader_lifecycle_leaves_no_reference_witness :
  let src := "void main () { }"%string in
  let s := clutter_shader_effect_set_shader_source empty_world
             (clutter_shader_effect_new CLUTTER_FRAGMENT_SHADER) (Some src) in
  let p := clutter_shader_effect_get_program any_compiler (snd (fst s))
             no_programs (snd s) in
  let f := clutter_shader_effect_finalize
             (snd (fst (fst (fst p)))) (snd (fst p)) in
  src <> EmptyString /\
  next_handle (ctx (fst f)) = 5%positive /\
  refs (ctx (fst f)) 1%positive = 0 /\ refs (ctx (fst f)) 4%positive = 0 /\
  refs (ctx (fst f)) 5%positive = refs (ctx empty_world) 5%positive.
Proof.
  cbv zeta.
  assert (Hne : "void main () { }"%string <> EmptyString) by discriminate.
  pose proof (shader_lifecycle_leaves_no_reference any_compiler empty_world
                no_programs CLUTTER_FRAGMENT_SHADER "void main () { }"
                1%positive Hne) as W.
  pose proof (shader_lifecycle_leaves_no_reference any_compiler empty_world
                no_programs CLUTTER_FRAGMENT_SHADER "void main () { }"
                4%positive Hne) as V.
  pose proof (shader_lifecycle_leaves_no_reference any_compiler empty_world
                no_programs CLUTTER_FRAGMENT_SHADER "void main () { }"
                5%positive Hne) as U.
  cbv zeta in W, V, U.
  destruct W as [W1 W2]. destruct V as [_ V2]. destruct U as [_ U2].
  rewrite W1 in W2, V2, U2.
  split; [exact Hne|]. split; [exact W1|]. split; [exact W2|].
  split; [exact V2 | exact U2].
Defined.

Lemma static_source_is_shared_witness :
  let src := "void main () { }"%string in
  let first := clutter_shader_effect_new CLUTTER_FRAGMENT_SHADER in
  let r1 := clutter_shader_effect_try_static_source (Some src) empty_world
              no_pipeline_state (mkClassPriv None None) first in
  let w1 := fst (fst (fst r1)) in
  let ps1 := snd (fst (fst r1)) in
  let class1 := snd (fst r1) in
  let u := clutter_shader_effect_add_uniform false w1 ps1
             (clutter_shader_effect_new CLUTTER_FRAGMENT_SHADER)
             "alpha" (G_TYPE_FLOAT (1 # 2)) in
  let second := snd (fst u) in
  let w2 := fst (fst (fst u)) in
  let ps2 := snd (fst (fst u)) in
  let r2 := clutter_shader_effect_try_static_source (Some src) w2 ps2
              class1 second in
  fresh_handles empty_world /\ class_ok empty_world (mkClassPriv None None) /\
  own_pipeline empty_world (mkClassPriv None None) first /\
  class1 = mkClassPriv (Some 2%positive) (Some 1%positive) /\
  fresh_handles w2 /\ class_ok w2 class1 /\ own_pipeline w2 class1 second /\
  snd (fst r2) = class1 /\
  snippets (fst (fst (fst r2))) = snippets w2 /\
  snippet (snd r1) = Some 1%positive /\ snippet (snd r2) = Some 1%positive /\
  refs (ctx (fst (fst (fst r2)))) 1%positive = 3 /\
  pipeline (snd r1) = Some 3%positive /\ pipeline (snd r2) = Some 4%positive.
Proof.
  intros src first r1 w1 ps1 class1 u second w2 ps2 r2.
  assert (F0 : fresh_handles empty_world).
  { intros h _. apply lookup_empty. }
  assert (C0 : class_ok empty_world (mkClassPriv None None)) by exact I.
  assert (O0 : own_pipeline empty_world (mkClassPriv None None) first).
  { intros q X. discriminate X. }
  pose proof (static_source_is_shared src empty_world no_pipeline_state
                (mkClassPriv None None) first F0 C0 O0) as W.
  cbv zeta in W. destruct W as (_ & F1 & C1 & _ & _ & W5 & W6).
  destruct (W5 eq_refl) as (K0 & _).
  assert (K1 : class1 = mkClassPriv (Some 2%positive) (Some 1%positive))
    by exact K0.
  assert (E1 : snippet (snd r1) = Some 1%positive) by (vm_compute; reflexivity).
  assert (P1 : pipeline (snd r1) = Some 3%positive) by (vm_compute; reflexivity).
  assert (F2 : fresh_handles w2).
  { intros h Hh.
    assert (E : pipeline_snippets w2 = pipeline_snippets w1)
      by (vm_compute; reflexivity).
    rewrite E. apply F1.
    assert (N1 : next_handle (ctx w1) = 4%positive) by (vm_compute; reflexivity).
    assert (N2 : next_handle (ctx w2) = 5%positive) by (vm_compute; reflexivity).
    change (next_handle (ctx w1) <= h)%positive.
    rewrite N1. rewrite N2 in Hh. lia. }
  assert (C2 : class_ok w2 class1).
  { rewrite K1. unfold class_ok. cbn [base_pipeline base_snippet].
    split; [vm_compute; reflexivity|]. split; vm_compute; reflexivity. }
  assert (O2 : own_pipeline w2 class1 second).
  { intros q X.
    assert (E : pipeline second = Some 4%positive) by (vm_compute; reflexivity).
    rewrite E in X. injection X as <-.
    split; [vm_compute; reflexivity|].
    rewrite K1. cbn [base_pipeline]. discriminate. }
  pose proof (static_source_is_shared src w2 ps2 class1 second F2 C2 O2) as V.
  cbv zeta in V. destruct V as (_ & _ & _ & _ & V4 & _ & V6).
  assert (B2 : base_pipeline class1 <> None).
  { rewrite K1. discriminate. }
  destruct (V4 B2) as [V41 V42].
  split; [exact F0|]. split; [exact C0|]. split; [exact O0|].
  split; [exact K1|]. split; [exact F2|]. split; [exact C2|].
  split; [exact O2|]. split; [exact V41|]. split; [exact V42|].
  split; [exact E1|].
  split; [vm_compute; reflexivity|]. split; [vm_compute; reflexivity|].
  split; [exact P1|]. vm_compute. reflexivity.
Defined.

(** *** Uniform values *)




End ShaderObjectFacts.
